(** * AI code review assistant: the review pipeline of [backend/llm_service.py],
    the endpoints of [backend/main.py] with the model classes of
    [backend/schemas.py], the database layer of [backend/db.py] and the
    dashboard helpers of [frontend/app.py], embedded in Rocq.

    Conventions of the embedding.
    - A Python [str] is a [string]; one [ascii] stands for one code point in
      the range 0..255, classified (whitespace, word character, case) as the
      Unicode database classifies that code point.
    - A Python [dict] is an association list in insertion order; [dict_set]
      is item assignment.  A FileSet is such a list with distinct keys.
    - A Python [float] is the rational it is equal to.  The division and the
      multiplication of the comment ratio round to the nearest binary64
      number, ties to even, as the interpreter does; [round(x, 2)] is kept as
      the number of two decimals it stands for, which the interpreter returns
      as the binary64 number nearest to it.
    - Exceptions are values of a sum type; [try]/[except] is a [match].
    - The libraries the code calls (the HTTP client, the JSON codec, the
      validators of the model classes, the MySQL connector) are variables of
      the sections that use them; what the code does with them is logged: the
      requests sent, the calls made to the connector with their outcomes. *)

From Stdlib Require Import String Ascii List Bool Arith PeanoNat ZArith QArith Qround Qpower Lia.
From Stdlib Require Import Sorting.Sorted Sorting.Permutation.
Import ListNotations.

Local Close Scope Q_scope.
Local Open Scope string_scope.
Local Open Scope nat_scope.
Local Open Scope list_scope.

Set Implicit Arguments.
Set Warnings "-register-all,-abstract-large-number".

(* ================================================================== *)
(** ** Python string primitives *)
(* ================================================================== *)

Module PyStr.

Definition code (c : ascii) : nat := nat_of_ascii c.

Definition LF : ascii := ascii_of_nat 10.
Definition CR : ascii := ascii_of_nat 13.

(** [str.isspace] on one code point below 256. *)
Definition isspace (c : ascii) : bool :=
  let n := code c in
  ((9 <=? n) && (n <=? 13)) || ((28 <=? n) && (n <=? 32))
  || (n =? 133) || (n =? 160).

(** The line boundaries of [str.splitlines] below 256. *)
Definition is_linebreak (c : ascii) : bool :=
  let n := code c in
  ((10 <=? n) && (n <=? 13)) || ((28 <=? n) && (n <=? 30)) || (n =? 133).

(** [str.lower] on one code point below 256. *)
Definition lower_char (c : ascii) : ascii :=
  let n := code c in
  if ((65 <=? n) && (n <=? 90))
     || ((192 <=? n) && (n <=? 222) && negb (n =? 215))
  then ascii_of_nat (n + 32) else c.

Definition upper_ascii_char (c : ascii) : ascii :=
  let n := code c in
  if (97 <=? n) && (n <=? 122) then ascii_of_nat (n - 32) else c.

Definition is_ascii_alpha (c : ascii) : bool :=
  let n := code c in
  ((65 <=? n) && (n <=? 90)) || ((97 <=? n) && (n <=? 122)).

Fixpoint lower (s : string) : string :=
  match s with
  | EmptyString => EmptyString
  | String c s' => String (lower_char c) (lower s')
  end.

Fixpoint lstrip (s : string) : string :=
  match s with
  | EmptyString => EmptyString
  | String c s' => if isspace c then lstrip s' else s
  end.

Fixpoint rstrip (s : string) : string :=
  match s with
  | EmptyString => EmptyString
  | String c s' =>
      match rstrip s' with
      | EmptyString => if isspace c then EmptyString else String c EmptyString
      | r => String c r
      end
  end.

(** [s.strip()] *)
Definition strip (s : string) : string := rstrip (lstrip s).

(** [s.split(sep)] for a separator of one character. *)
Fixpoint split (sep : ascii) (s : string) : list string :=
  match s with
  | EmptyString => [EmptyString]
  | String c s' =>
      if Ascii.eqb c sep then EmptyString :: split sep s'
      else match split sep s' with
           | l :: ls => String c l :: ls
           | [] => [String c EmptyString]
           end
  end.

(** [s.splitlines()] *)
Fixpoint splitlines (s : string) : list string :=
  match s with
  | EmptyString => []
  | String c s' =>
      if is_linebreak c then
        EmptyString ::
          match s' with
          | String c2 s'' =>
              if Ascii.eqb c CR && Ascii.eqb c2 LF then splitlines s''
              else splitlines s'
          | EmptyString => splitlines s'
          end
      else match splitlines s' with
           | l :: ls => String c l :: ls
           | [] => [String c EmptyString]
           end
  end.

(** [sep.join(parts)] *)
Definition join (sep : string) (parts : list string) : string :=
  String.concat sep parts.

(** [s.startswith(p)] *)
Definition startswith (p s : string) : bool := String.prefix p s.

(** [s[:n]] *)
Fixpoint take (n : nat) (s : string) : string :=
  match n, s with
  | S n', String c s' => String c (take n' s')
  | _, _ => EmptyString
  end.

(** [s[n:]] *)
Fixpoint drop (n : nat) (s : string) : string :=
  match n, s with
  | S n', String _ s' => drop n' s'
  | _, _ => s
  end.

(** [s.count(sub)] for a non-empty [sub]: occurrences counted from the
    left without overlap; [skip] characters of a counted occurrence are
    still to be passed. *)
Fixpoint count_from (sub : string) (skip : nat) (s : string) : nat :=
  match s with
  | EmptyString => 0
  | String _ s' =>
      match skip with
      | S k => count_from sub k s'
      | O => if String.prefix sub s
             then S (count_from sub (String.length sub - 1) s')
             else count_from sub 0 s'
      end
  end.

Definition count (sub s : string) : nat := count_from sub 0 s.

(** [s.replace(a, b)] for single characters. *)
Fixpoint replace_char (a b : ascii) (s : string) : string :=
  match s with
  | EmptyString => EmptyString
  | String c s' =>
      String (if Ascii.eqb c a then b else c) (replace_char a b s')
  end.

(** [s.title()] on ASCII text: a letter that follows a non-letter is
    upper-cased, every other letter lower-cased. *)
Fixpoint title_from (prev_cased : bool) (s : string) : string :=
  match s with
  | EmptyString => EmptyString
  | String c s' =>
      String (if prev_cased then lower_char c else upper_ascii_char c)
             (title_from (is_ascii_alpha c) s')
  end.

Definition title (s : string) : string := title_from false s.

(** [s * n] *)
Fixpoint repeat_str (s : string) (n : nat) : string :=
  match n with
  | O => EmptyString
  | S n' => (s ++ repeat_str s n')%string
  end.

End PyStr.

(* ================================================================== *)
(** ** Python dictionaries in insertion order *)
(* ================================================================== *)

Module PyDict.
Section Dict.
Variable V : Type.

Definition dict := list (string * V).

Definition keys (d : dict) : list string := map fst d.

(** [d.get(k)] *)
Fixpoint get (k : string) (d : dict) : option V :=
  match d with
  | [] => None
  | (k', v) :: d' => if String.eqb k k' then Some v else get k d'
  end.

(** [d[k] = v]: an existing key keeps its place, a new one goes last. *)
Fixpoint dict_set (k : string) (v : V) (d : dict) : dict :=
  match d with
  | [] => [(k, v)]
  | (k', v') :: d' =>
      if String.eqb k k' then (k', v) :: d' else (k', v') :: dict_set k v d'
  end.
End Dict.

Arguments get {V} k d.
Arguments dict_set {V} k v d.
Arguments keys {V} d.
End PyDict.

(** The uploaded files: filename to content. *)
Definition FileSet := PyDict.dict string.

(* ================================================================== *)
(** ** MetricsCalculator: [calculate_code_metrics] *)
(* ================================================================== *)

Record FileMetrics := mkFileMetrics {
  total_lines : nat;
  code_lines : nat;
  comment_lines : nat;
  complexity_score : nat;
  comment_ratio : Q
}.

(** Round half to even, to an integer. *)
Definition round_half_even (q : Q) : Z :=
  let f := Qfloor q in
  match Qcompare (q - inject_Z f)%Q (1 # 2)%Q with
  | Lt => f
  | Gt => (f + 1)%Z
  | Eq => if Z.even f then f else (f + 1)%Z
  end.

(** [round(q, 2)] for the binary64 number [q]: the number of two decimals
    nearest to the exact value of [q], ties to even. *)
Definition round2 (q : Q) : Q := Qred (round_half_even (q * 100)%Q # 100)%Q.

(** [floor (log2 q)] for a positive rational. *)
Definition ilog2 (q : Q) : Z :=
  let l := (Z.log2 (Qnum q) - Z.log2 (Zpos (Qden q)))%Z in
  if Qle_bool (2 ^ l)%Q q then l else (l - 1)%Z.

(** The binary64 number nearest to a rational that is not negative, ties
    to even: 53 significant bits, exponents down to that of the subnormal
    numbers (the numbers here stay far below the largest one). *)
Definition binary64 (q : Q) : Q :=
  match Qcompare q 0 with
  | Gt =>
      let e := Z.max (ilog2 q - 52) (-1074) in
      (inject_Z (round_half_even (q / 2 ^ e)) * 2 ^ e)%Q
  | _ => 0%Q
  end.

Definition nat_Q (n : nat) : Q := inject_Z (Z.of_nat n).

(** [a / b] for two integers: the quotient, correctly rounded. *)
Definition int_truediv (a b : nat) : Q := binary64 (nat_Q a / nat_Q b)%Q.

(** [x * y] for two floats. *)
Definition float_mul (x y : Q) : Q := binary64 (x * y)%Q.

Definition nonempty (s : string) : bool :=
  match s with EmptyString => false | _ => true end.

Definition is_code_line (l : string) : bool :=
  nonempty (PyStr.strip l) && negb (PyStr.startswith "#" (PyStr.strip l)).

Definition is_comment_line (l : string) : bool :=
  PyStr.startswith "#" (PyStr.strip l).

Definition is_blank_line (l : string) : bool :=
  negb (nonempty (PyStr.strip l)).

Definition complexity_keywords : list string :=
  ["if"; "for"; "while"; "elif"; "else"; "try"; "except"; "def"; "class"].

Definition sum (l : list nat) : nat := fold_left Nat.add l 0.

(** The lines the calculator works on: [content.strip().split('\n')]. *)
Definition metric_lines (content : string) : list string :=
  PyStr.split PyStr.LF (PyStr.strip content).

(** The body of the loop of [calculate_code_metrics] for one file
    (llm_service.py, lines 28-43). *)
Definition file_metrics (content : string) : FileMetrics :=
  let lines := metric_lines content in
  let total := List.length lines in
  let code := List.length (filter is_code_line lines) in
  let comment := List.length (filter is_comment_line lines) in
  let complexity :=
    sum (map (fun kw => PyStr.count kw (PyStr.lower content)) complexity_keywords) in
  mkFileMetrics total code comment complexity
    (round2 (if 0 <? total then float_mul (int_truediv comment total) 100%Q
             else 0%Q)).

Definition calculate_code_metrics (files : FileSet) : PyDict.dict FileMetrics :=
  fold_left (fun metrics '(filename, content) =>
               PyDict.dict_set filename (file_metrics content) metrics)
            files [].

(* ================================================================== *)
(** ** Regular expressions of the security patterns *)
(* ================================================================== *)

Module Re.

(** The constructs the eight patterns use. *)
Inductive regex : Type :=
| Eps                              (* end of the pattern *)
| Lit (c : ascii)                  (* a literal character *)
| Dot                              (* [.] *)
| Space                            (* [\s] *)
| OneOf (cs : list ascii)          (* a character class [...] *)
| NoneOf (cs : list ascii)         (* a negated class [^...] *)
| WordB                            (* [\b] *)
| Seq (a b : regex)
| Star (a : regex)
| Plus (a : regex).

(** [\w] below 256: alphanumeric code points and the underscore. *)
Definition is_word_char (c : ascii) : bool :=
  let n := PyStr.code c in
  ((48 <=? n) && (n <=? 57)) || ((65 <=? n) && (n <=? 90)) || (n =? 95)
  || ((97 <=? n) && (n <=? 122))
  || (n =? 170) || (n =? 178) || (n =? 179) || (n =? 181) || (n =? 185)
  || (n =? 186) || ((188 <=? n) && (n <=? 190))
  || ((192 <=? n) && (n <=? 214)) || ((216 <=? n) && (n <=? 246))
  || (248 <=? n).

Definition is_word (c : option ascii) : bool :=
  match c with Some c => is_word_char c | None => false end.

Definition first_char (s : string) : option ascii :=
  match s with String c _ => Some c | EmptyString => None end.

Fixpoint mem (c : ascii) (cs : list ascii) : bool :=
  match cs with
  | [] => false
  | c' :: cs' => Ascii.eqb c c' || mem c cs'
  end.

(** Does a construct that consumes one character accept [t]?  Literals
    are compared without regard to case ([re.IGNORECASE]), for the code
    points a string here holds (below 256): the letters of the patterns are
    ASCII, and below 256 such a letter matches its two cases only. *)
Definition accepts (r : regex) (t : ascii) : bool :=
  match r with
  | Lit c => Ascii.eqb (PyStr.lower_char t) (PyStr.lower_char c)
  | Dot => negb (Ascii.eqb t PyStr.LF)
  | Space => PyStr.isspace t
  | OneOf cs => mem t cs
  | NoneOf cs => negb (mem t cs)
  | _ => false
  end.

Definition cont := option ascii -> string -> bool.

(** Repetition: at most [n] further rounds, each of which must consume
    something; the longer match is tried first. *)
Definition star_loop (step : option ascii -> string -> cont -> bool) (k : cont)
  : nat -> option ascii -> string -> bool :=
  fix loop n prev s :=
    match n with
    | O => k prev s
    | S n' =>
        step prev s (fun p' s' =>
                       (String.length s' <? String.length s) && loop n' p' s')
        || k prev s
    end.

(** Backtracking matcher: [m r prev s k] tries [r] at the front of [s],
    [prev] being the character before it, and hands what is left to [k]. *)
Fixpoint m (r : regex) (prev : option ascii) (s : string) (k : cont) {struct r} : bool :=
  match r with
  | Eps => k prev s
  | Seq a b => m a prev s (fun p' s' => m b p' s' k)
  | Star a => star_loop (m a) k (String.length s) prev s
  | Plus a => m a prev s (fun p' s' => star_loop (m a) k (String.length s') p' s')
  | WordB => xorb (is_word prev) (is_word (first_char s)) && k prev s
  | _ => match s with
         | String t s' => accepts r t && k (Some t) s'
         | EmptyString => false
         end
  end.

Fixpoint search_from (r : regex) (prev : option ascii) (s : string) : bool :=
  m r prev s (fun _ _ => true)
  || match s with
     | String c s' => search_from r (Some c) s'
     | EmptyString => false
     end.

(** [re.search(r, s, re.IGNORECASE) is not None] *)
Definition search (r : regex) (s : string) : bool := search_from r None s.

(** A run of literal characters followed by [r]. *)
Fixpoint lits (s : string) (r : regex) : regex :=
  match s with
  | EmptyString => r
  | String c s' => Seq (Lit c) (lits s' r)
  end.

(** The double and the single quote, the members of the classes of the
    patterns (written Q below). *)
Definition dquote : ascii := "034"%char.
Definition squote : ascii := "039"%char.
Definition quotes : list ascii := [dquote; squote].

End Re.

(* ================================================================== *)
(** ** SecurityScanner: [scan_security_issues] *)
(* ================================================================== *)

Record SecurityFinding := mkFinding {
  finding_file : string;
  finding_line : nat;
  finding_type : string;
  finding_code : string
}.

Import Re.

(** [execute\s*\(\s*[Q].*%s] *)
Definition re_sql_format : regex :=
  lits "execute" (Seq (Star Space) (Seq (Lit "(") (Seq (Star Space)
    (Seq (OneOf quotes) (Seq (Star Dot) (lits "%s" Eps)))))).

(** [cursor\.execute.*\+] *)
Definition re_sql_concat : regex :=
  lits "cursor.execute" (Seq (Star Dot) (Seq (Lit "+") Eps)).

(** [<name>\s*=\s*[Q][^Q]+[Q]], for the names [password] and [api_key] *)
Definition re_assigned_literal (name : string) : regex :=
  lits name (Seq (Star Space) (Seq (Lit "=") (Seq (Star Space)
    (Seq (OneOf quotes) (Seq (Plus (NoneOf quotes)) (Seq (OneOf quotes) Eps)))))).

Definition re_password : regex := re_assigned_literal "password".
Definition re_api_key : regex := re_assigned_literal "api_key".

(** [\beval\(] and [\bexec\(] *)
Definition re_eval : regex := Seq WordB (lits "eval(" Eps).
Definition re_exec : regex := Seq WordB (lits "exec(" Eps).

(** [os\.system\(] *)
Definition re_os_system : regex := lits "os.system(" Eps.

(** [subprocess\.call\(.*shell=True] *)
Definition re_subprocess_shell : regex :=
  lits "subprocess.call(" (Seq (Star Dot) (lits "shell=True" Eps)).

(** The [patterns] dictionary, in declaration order. *)
Definition patterns : PyDict.dict (list regex) :=
  [ ("sql_injection", [re_sql_format; re_sql_concat]);
    ("hardcoded_secrets", [re_password; re_api_key]);
    ("unsafe_eval", [re_eval; re_exec]);
    ("command_injection", [re_os_system; re_subprocess_shell]) ].

(** [enumerate(l, start)] *)
Definition enumerate (A : Type) (start : nat) (l : list A) : list (nat * A) :=
  combine (seq start (List.length l)) l.

(** [vuln_type.replace('_', ' ').title()] *)
Definition display_type (vuln_type : string) : string :=
  PyStr.title (PyStr.replace_char "_" " " vuln_type).

(** The two inner loops of [scan_security_issues] (llm_service.py, lines
    61-69): every regex of every category against one line. *)
Definition scan_line (filename : string) (line_num : nat) (line : string)
  (security_issues : list SecurityFinding) : list SecurityFinding :=
  fold_left
    (fun acc '(vuln_type, regexes) =>
       fold_left
         (fun acc regex =>
            if search regex line
            then acc ++ [mkFinding filename line_num (display_type vuln_type)
                                   (PyStr.strip line)]
            else acc)
         regexes acc)
    patterns security_issues.

Definition scan_file (security_issues : list SecurityFinding)
  (item : string * string) : list SecurityFinding :=
  let '(filename, content) := item in
  fold_left (fun acc '(line_num, line) => scan_line filename line_num line acc)
            (enumerate 1 (PyStr.split PyStr.LF content))
            security_issues.

Definition scan_security_issues (files : FileSet) : list SecurityFinding :=
  fold_left scan_file files [].

(* ================================================================== *)
(** ** PromptBuilder: [_build_prompt_from_files] *)
(* ================================================================== *)

Definition nl : string := String PyStr.LF EmptyString.
Definition dq : string := String dquote EmptyString.

Definition max_chars : nat := 8000.

Definition truncation_marker : string := (nl ++ nl ++ "[...TRUNCATED...]")%string.

(** The content as it enters the prompt. *)
Definition truncate_content (content : string) : string :=
  if max_chars <? String.length content
  then (PyStr.take max_chars content ++ truncation_marker)%string
  else content.

(** The part appended for one file (llm_service.py, line 87). *)
Definition file_section (filename content : string) : string :=
  ("--- BEGIN FILE: " ++ filename ++ " ---" ++ nl
   ++ truncate_content content ++ nl ++ "--- END FILE ---" ++ nl)%string.

Definition prompt_parts (files : FileSet) : list string :=
  fold_left (fun parts '(filename, content) =>
               parts ++ [file_section filename content])
            files [].

Definition _build_prompt_from_files (files : FileSet) : string :=
  PyStr.join nl (prompt_parts files).

(* ================================================================== *)
(** ** Values decoded from JSON *)
(* ================================================================== *)

Inductive pyval : Type :=
| PNone
| PBool (b : bool)
| PInt (z : Z)
| PFloat (q : Q)
| PStr (s : string)
| PList (l : list pyval)
| PDict (d : list (string * pyval)).

Definition is_dict (v : pyval) : bool :=
  match v with PDict _ => true | _ => false end.

(** [d.get(k, default)] *)
Definition get_default (k : string) (default : pyval) (d : PyDict.dict pyval) : pyval :=
  match PyDict.get k d with Some v => v | None => default end.

(* ================================================================== *)
(** ** ResponseNormalizer and ReviewOrchestrator *)
(* ================================================================== *)

Record ReviewResult := mkReviewResult {
  summary : pyval;
  details : pyval;
  issues : pyval;
  quality_score : pyval;
  strengths : pyval;
  metrics : PyDict.dict FileMetrics;
  raw_response : string
}.

(** [fallback["metrics"] = metrics] *)
Definition set_metrics (metrics' : PyDict.dict FileMetrics) (r : ReviewResult) : ReviewResult :=
  mkReviewResult (summary r) (details r) (issues r) (quality_score r)
                 (strengths r) metrics' (raw_response r).

Definition _fallback_parse (text : string) : ReviewResult :=
  let lines := PyStr.splitlines (PyStr.strip text) in
  let summary := PyStr.join nl (firstn 5 lines) in
  let details := PyStr.strip text in
  mkReviewResult (PStr summary) (PStr details) (PList []) (PFloat 5) (PList [])
                 [] text.

(** Exceptions of the libraries the pipeline calls. *)
Inductive lib_exn : Type :=
| RequestException      (* [requests.post]: connection failure, timeout *)
| HTTPError (status : Z) (* [raise_for_status] *)
| JSONDecodeError       (* [response.json] *)
| KeyError
| IndexError
| TypeError
| AttributeError
| ValidationError.      (* pydantic *)

Inductive exn : Type :=
| LLMConfigError (msg : string)
| Lib (e : lib_exn).

Record Response := mkResponse {
  status_code : Z;
  body : option pyval     (* what [response.json()] decodes, if it can *)
}.

Record Request := mkRequest {
  url : string;
  authorization : string;
  model : string;
  system_message : string;
  user_message : string;
  timeout : nat
}.

(** Computations that may send requests and may raise: the requests sent so
    far are threaded through. *)
Definition Net (A : Type) : Type := list Request -> list Request * (exn + A).

Definition ret {A : Type} (a : A) : Net A := fun log => (log, inr a).

Definition raise {A : Type} (e : exn) : Net A := fun log => (log, inl e).

Definition bind {A B : Type} (c : Net A) (f : A -> Net B) : Net B :=
  fun log =>
    match c log with
    | (log', inr a) => f a log'
    | (log', inl e) => (log', inl e)
    end.

Definition lift {A : Type} (r : lib_exn + A) : Net A :=
  match r with inr a => ret a | inl e => raise (Lib e) end.

Declare Scope net_scope.
Delimit Scope net_scope with net.
Notation "x <- c ;; k" := (bind c (fun x => k))
  (at level 61, c at next level, right associativity) : net_scope.
Notation "c ;;; k" := (bind c (fun _ => k))
  (at level 61, right associativity) : net_scope.

(** [v[k]] for a string key. *)
Definition subscript (v : pyval) (k : string) : lib_exn + pyval :=
  match v with
  | PDict d => match PyDict.get k d with Some x => inr x | None => inl KeyError end
  | _ => inl TypeError
  end.

(** [v[0]] *)
Definition subscript0 (v : pyval) : lib_exn + pyval :=
  match v with
  | PList (x :: _) => inr x
  | PList [] => inl IndexError
  | PStr (String c _) => inr (PStr (String c EmptyString))
  | PStr EmptyString => inl IndexError
  | PDict _ => inl KeyError
  | _ => inl TypeError
  end.

Definition lbind {A B : Type} (r : lib_exn + A) (f : A -> lib_exn + B) : lib_exn + B :=
  match r with inr a => f a | inl e => inl e end.

(** [data[choices][0][message][content]], the keys being strings. *)
Definition completion_content (data : pyval) : lib_exn + pyval :=
  lbind (subscript data "choices") (fun choices =>
  lbind (subscript0 choices) (fun choice =>
  lbind (subscript choice "message") (fun message =>
  subscript message "content"))).

Definition GROQ_CHAT_COMPLETIONS_URL : string :=
  "https://api.groq.com/openai/v1/chat/completions".

(** [not GROQ_API_KEY] *)
Definition key_missing (key : option string) : bool :=
  match key with
  | None => true
  | Some k => negb (nonempty k)
  end.

Definition key_text (key : option string) : string :=
  match key with Some k => k | None => "None" end.

Section Pipeline.

(** Module-level configuration, read from the environment at import. *)
Variable GROQ_API_KEY : option string.
Variable AI_MODEL : string.

(** The outside world: the answer of the endpoint to a request, and the
    JSON decoder ([None] when [json.loads] raises). *)
Variable requests_post : Request -> lib_exn + Response.
Variable json_loads : string -> option pyval.

(** Text formatting of numbers in f-strings, and the warning sign that
    opens a security alert line (not a code point below 256). *)
Variable str_nat : nat -> string.
Variable str_float : Q -> string.
Variable warning_sign : string.

Definition metrics_summary (metrics : PyDict.dict FileMetrics) : string :=
  PyStr.join nl
    (map (fun '(fname, m) =>
            ("File: " ++ fname ++ " - Lines: " ++ str_nat (code_lines m)
             ++ ", Complexity: " ++ str_nat (complexity_score m)
             ++ ", Comments: " ++ str_float (comment_ratio m) ++ "%")%string)
         metrics).

Definition security_summary (security_issues : list SecurityFinding) : string :=
  match security_issues with
  | [] => EmptyString
  | _ =>
      ("SECURITY ALERTS FOUND:" ++ nl
       ++ PyStr.join nl
            (map (fun issue =>
                    (warning_sign ++ " " ++ finding_type issue ++ " in "
                     ++ finding_file issue ++ ":"
                     ++ str_nat (finding_line issue))%string)
                 (firstn 5 security_issues))
       ++ nl ++ nl)%string
  end.

(** The fixed instructions that follow the metrics digest. *)
Definition output_contract : string :=
  String.concat nl
    [ "You must return ONLY a single valid JSON object, no markdown, no backticks.";
      "Focus on:";
      "- Code complexity and maintainability";
      "- Readability and clarity";
      "- Security vulnerabilities (SQL injection, XSS, authentication)";
      "- Performance bottlenecks and optimization opportunities";
      "- Testing gaps and edge cases";
      "- Best practices and design patterns";
      "- Documentation quality";
      "";
      "The JSON object MUST have this shape:";
      "{";
      ("  " ++ dq ++ "summary" ++ dq ++ ": " ++ dq
       ++ "short high-level summary with overall quality rating (1-10)"
       ++ dq ++ ",")%string;
      ("  " ++ dq ++ "details" ++ dq ++ ": " ++ dq
       ++ "full detailed review in plain text" ++ dq ++ ",")%string;
      ("  " ++ dq ++ "quality_score" ++ dq ++ ": 7.5,")%string;
      ("  " ++ dq ++ "strengths" ++ dq ++ ": [" ++ dq
       ++ "list of good practices found" ++ dq ++ "],")%string;
      ("  " ++ dq ++ "issues" ++ dq ++ ": [")%string;
      "    {";
      ("      " ++ dq ++ "id" ++ dq ++ ": " ++ dq ++ "unique-issue-id" ++ dq ++ ",")%string;
      ("      " ++ dq ++ "file" ++ dq ++ ": " ++ dq ++ "filename" ++ dq ++ ",")%string;
      ("      " ++ dq ++ "line_start" ++ dq ++ ": 0,")%string;
      ("      " ++ dq ++ "line_end" ++ dq ++ ": 0,")%string;
      ("      " ++ dq ++ "severity" ++ dq ++ ": " ++ dq
       ++ "critical | high | medium | low | info" ++ dq ++ ",")%string;
      ("      " ++ dq ++ "category" ++ dq ++ ": " ++ dq
       ++ "bug | security | performance | readability | style | test | other"
       ++ dq ++ ",")%string;
      ("      " ++ dq ++ "message" ++ dq ++ ": " ++ dq
       ++ "one-sentence description" ++ dq ++ ",")%string;
      ("      " ++ dq ++ "suggestion" ++ dq ++ ": " ++ dq
       ++ "how to fix it" ++ dq ++ ",")%string;
      ("      " ++ dq ++ "code_patch" ++ dq ++ ": " ++ dq
       ++ "optional code snippet" ++ dq)%string;
      "    }";
      "  ]";
      "}";
      ("If there are no issues, return an empty list for " ++ dq ++ "issues"
       ++ dq ++ ".")%string ].

Definition build_system_message (metrics : PyDict.dict FileMetrics)
  (security_issues : list SecurityFinding) : string :=
  ("You are a senior software engineer performing a code review." ++ nl
   ++ security_summary security_issues
   ++ "CODE METRICS:" ++ nl ++ metrics_summary metrics ++ nl ++ nl
   ++ output_contract)%string.

Definition build_user_message (prompt_code : string) : string :=
  ("Review the following code files and provide a professional code review."
   ++ nl ++ nl ++ prompt_code)%string.

(** [requests.post(...)]: the request leaves, the endpoint answers. *)
Definition post (req : Request) : Net Response :=
  fun log =>
    (log ++ [req],
     match requests_post req with inr r => inr r | inl e => inl (Lib e) end).

(** [response.raise_for_status()] *)
Definition raise_for_status (r : Response) : Net unit :=
  if ((400 <=? status_code r) && (status_code r <? 600))%Z
  then raise (Lib (HTTPError (status_code r)))
  else ret tt.

(** [response.json()] *)
Definition response_json (r : Response) : Net pyval :=
  match body r with
  | Some v => ret v
  | None => raise (Lib JSONDecodeError)
  end.

(** The [try] block and its handler (llm_service.py, lines 206-222), for the
    completion text [content]. *)
Definition normalize (content : pyval) (metrics : PyDict.dict FileMetrics)
  : Net ReviewResult :=
  match content with
  | PStr text =>
      match json_loads text with
      | Some (PDict parsed) =>
          ret (mkReviewResult
                 (get_default "summary" (PStr EmptyString) parsed)
                 (get_default "details" (PStr EmptyString) parsed)
                 (get_default "issues" (PList []) parsed)
                 (get_default "quality_score" (PFloat 5) parsed)
                 (get_default "strengths" (PList []) parsed)
                 metrics text)
      | _ =>
          (* the decoder raised, or [parsed] has no [get] *)
          ret (set_metrics metrics (_fallback_parse text))
      end
  | _ =>
      (* [json.loads] raises [TypeError]; the handler calls [strip] on a
         value that has none *)
      raise (Lib AttributeError)
  end.

Local Open Scope net_scope.

(** The request of one review: URL, headers, payload and timeout. *)
Definition build_request (metrics : PyDict.dict FileMetrics)
  (security_issues : list SecurityFinding) (prompt_code : string) : Request :=
  mkRequest GROQ_CHAT_COMPLETIONS_URL
            ("Bearer " ++ key_text GROQ_API_KEY)%string
            AI_MODEL
            (build_system_message metrics security_issues)
            (build_user_message prompt_code)
            90.

Definition review_code_with_llm (files : FileSet) : Net ReviewResult :=
  if key_missing GROQ_API_KEY
  then raise (LLMConfigError "GROQ_API_KEY is not set in environment (.env).")
  else
    let metrics := calculate_code_metrics files in
    let security_issues := scan_security_issues files in
    let prompt_code := _build_prompt_from_files files in
    response <- post (build_request metrics security_issues prompt_code) ;;
    raise_for_status response ;;;
    data <- response_json response ;;
    content <- lift (completion_content data) ;;
    normalize content metrics.

(** One call of the pipeline, starting with nothing sent. *)
Definition run_review (files : FileSet) : list Request * (exn + ReviewResult) :=
  review_code_with_llm files [].

End Pipeline.

(* ================================================================== *)
(** ** Typed issues: [schemas.Issue] and the conversions of [main.py] *)
(* ================================================================== *)

Record Issue := mkIssue {
  issue_id : string;
  issue_file : string;
  issue_line_start : Z;
  issue_line_end : Z;
  issue_severity : string;
  issue_category : string;
  issue_message : string;
  issue_suggestion : string;
  issue_code_patch : option string
}.

Section IssueConversion.

(** The field validators of the model class: what a [str] field and an
    [int] field accept, and the value they store. *)
Variable validate_str : pyval -> option string.
Variable validate_int : pyval -> option Z.

Definition required {A : Type} (validate : pyval -> option A) (k : string)
  (d : PyDict.dict pyval) : option A :=
  match PyDict.get k d with
  | Some v => validate v
  | None => None
  end.

(** [code_patch: Optional[str] = ...]: absent gives the empty default,
    [None] is kept. *)
Definition optional_str (k : string) (d : PyDict.dict pyval) : option (option string) :=
  match PyDict.get k d with
  | None => Some (Some EmptyString)
  | Some PNone => Some None
  | Some v => option_map Some (validate_str v)
  end.

Definition obind {A B : Type} (o : option A) (f : A -> option B) : option B :=
  match o with Some a => f a | None => None end.

(** The constructor call of [Issue] on the items of a mapping: [None]
    stands for the validation error. *)
Definition Issue_init (d : PyDict.dict pyval) : option Issue :=
  obind (required validate_str "id" d) (fun i =>
  obind (required validate_str "file" d) (fun f =>
  obind (required validate_int "line_start" d) (fun ls =>
  obind (required validate_int "line_end" d) (fun le =>
  obind (required validate_str "severity" d) (fun sv =>
  obind (required validate_str "category" d) (fun c =>
  obind (required validate_str "message" d) (fun msg =>
  obind (required validate_str "suggestion" d) (fun sg =>
  obind (optional_str "code_patch" d) (fun cp =>
  Some (mkIssue i f ls le sv c msg sg cp)))))))))).

(** The comprehension of [review_code] (main.py, line 121): an [Issue] for
    every [issue] of [issues] that passes [isinstance(issue, dict)]. *)
Fixpoint issue_models (issues : list pyval) : lib_exn + list Issue :=
  match issues with
  | [] => inr []
  | PDict d :: rest =>
      match Issue_init d with
      | None => inl ValidationError
      | Some i =>
          match issue_models rest with
          | inr l => inr (i :: l)
          | inl e => inl e
          end
      end
  | _ :: rest => issue_models rest
  end.

(** The conversion in [get_report] (main.py, lines 181-188): any failure
    leaves no issue at all. *)
Definition get_report_issues (raw_issues : pyval) : list Issue :=
  match raw_issues with
  | PList l =>
      match issue_models l with
      | inr r => r
      | inl _ => []
      end
  | _ => []
  end.

End IssueConversion.

(* ================================================================== *)
(** ** Vocabulary of the statements, and sample inputs *)
(* ================================================================== *)

(** The entry the metrics loop stores for one item of the FileSet. *)
Definition metrics_entry (item : string * string) : string * FileMetrics :=
  (fst item, file_metrics (snd item)).

(** The lines of a file as the specification has them: the content split
    at newlines, nothing stripped first.  The calculator works on
    [metric_lines] instead. *)
Definition spec_lines (content : string) : list string :=
  PyStr.split PyStr.LF content.

(** A file of one code line followed by two newlines. *)
Definition trailing_blank_py : string := ("x = 1" ++ nl ++ nl)%string.

(** What is rounded: the float [comment_lines / total_lines * 100]. *)
Definition raw_ratio (comment total : nat) : Q :=
  float_mul (int_truediv comment total) 100%Q.

(** A small FileSet: a file with a comment, code and a blank line, and an
    empty file. *)
Definition sample_py : string :=
  ("# sums" ++ nl ++ "x = 1" ++ nl ++ nl ++ "y = x" ++ nl)%string.

Definition sample_files : FileSet := [("a.py", sample_py); ("b.py", EmptyString)].

(** A file one character longer than the truncation budget. *)
Definition long_content : string := PyStr.repeat_str "a" (S max_chars).

Definition section_header (filename : string) : string :=
  ("--- BEGIN FILE: " ++ filename ++ " ---" ++ nl)%string.

Definition section_footer : string := (nl ++ "--- END FILE ---" ++ nl)%string.

(** Whitespace at the ends of a text. *)
Fixpoint all_space (s : string) : bool :=
  match s with
  | EmptyString => true
  | String c s' => PyStr.isspace c && all_space s'
  end.

Definition starts_with_space (s : string) : bool :=
  match s with
  | String c _ => PyStr.isspace c
  | EmptyString => false
  end.

Fixpoint ends_with_space (s : string) : bool :=
  match s with
  | EmptyString => false
  | String c EmptyString => PyStr.isspace c
  | String _ s' => ends_with_space s'
  end.

(** A line holds no line boundary. *)
Fixpoint no_linebreak (s : string) : bool :=
  match s with
  | EmptyString => true
  | String c s' => negb (PyStr.is_linebreak c) && no_linebreak s'
  end.

(** A computation that sends nothing and raises no configuration error. *)
Definition quiet (A : Type) (c : Net A) : Prop :=
  forall log, exists out,
    c log = (log, out) /\ forall msg, out <> inl (LLMConfigError msg).

Definition config_error_message : string :=
  "GROQ_API_KEY is not set in environment (.env).".

(** Sample configuration and replies of the endpoint. *)
Definition sample_key : option string := Some "gsk_sample".

Definition reply_with (content : pyval) : Response :=
  mkResponse 200
    (Some (PDict [("choices",
                   PList [PDict [("message", PDict [("content", content)])]])])).

(** A reply that is a JSON object, which also carries a [metrics] entry of
    its own, and the value the decoder gives for it. *)
Definition json_reply_text : string := "{...}".

Definition json_reply_value : pyval :=
  PDict [("summary", PStr "ok"); ("details", PStr "d"); ("quality_score", PInt 8);
         ("strengths", PList []); ("issues", PList []);
         ("metrics", PDict [("a.py", PDict [("total_lines", PInt 999)])])].

(** A reply in prose, with a blank line before it and a newline after. *)
Definition prose_reply_text : string :=
  (nl ++ "Overall fine." ++ nl ++ "One nit." ++ nl)%string.

(** A decoder that knows the JSON reply of the samples and rejects every
    other text. *)
Definition sample_json_loads (s : string) : option pyval :=
  if String.eqb s json_reply_text then Some json_reply_value else None.

Definition sample_str_nat (n : nat) : string := "n".
Definition sample_str_float (q : Q) : string := "q".

(** An endpoint that answers every request with the given completion. *)
Definition sample_post (content : pyval) (req : Request) : lib_exn + Response :=
  inr (reply_with content).

(** Validators that accept a value of exactly the declared type. *)
Definition exact_str (v : pyval) : option string :=
  match v with PStr s => Some s | _ => None end.

Definition exact_int (v : pyval) : option Z :=
  match v with PInt z => Some z | _ => None end.

(** A complete issue entry, and a mapping that lacks required fields. *)
Definition complete_entry : pyval :=
  PDict [("id", PStr "I1"); ("file", PStr "a.py"); ("line_start", PInt 1);
         ("line_end", PInt 2); ("severity", PStr "low"); ("category", PStr "style");
         ("message", PStr "unused name"); ("suggestion", PStr "drop it")].

Definition complete_issue : Issue :=
  mkIssue "I1" "a.py" 1 2 "low" "style" "unused name" "drop it" (Some EmptyString).

Definition partial_entry : pyval :=
  PDict [("id", PStr "I2"); ("message", PStr "no file given")].

(** An entry and the issue the model class makes of it. *)
Definition converts (validate_str : pyval -> option string)
  (validate_int : pyval -> option Z) (entry : pyval) (i : Issue) : Prop :=
  exists d, entry = PDict d /\ Issue_init validate_str validate_int d = Some i.

(** The findings in the order the specification gives: by file, then by
    line, then by category, one per matching regex. *)
Definition regex_findings (filename : string) (line_num : nat) (line : string)
  (vuln_type : string) (regexes : list regex) : list SecurityFinding :=
  flat_map (fun regex =>
              if search regex line
              then [mkFinding filename line_num (display_type vuln_type)
                              (PyStr.strip line)]
              else [])
           regexes.

Definition line_findings (filename : string) (line_num : nat) (line : string)
  : list SecurityFinding :=
  flat_map (fun entry => regex_findings filename line_num line (fst entry) (snd entry))
           patterns.

Definition file_findings (item : string * string) : list SecurityFinding :=
  flat_map (fun numbered => line_findings (fst item) (fst numbered) (snd numbered))
           (enumerate 1 (PyStr.split PyStr.LF (snd item))).

(** The place of a category, by its displayed name, in the declaration. *)
Fixpoint index_of (t : string) (l : list string) : nat :=
  match l with
  | [] => 0
  | t' :: l' => if String.eqb t t' then 0 else S (index_of t l')
  end.

Definition category_rank (t : string) : nat :=
  index_of t (map display_type (PyDict.keys patterns)).

(** Order of two findings of one file: by line, then by category. *)
Definition finding_le (a b : SecurityFinding) : Prop :=
  finding_line a < finding_line b
  \/ (finding_line a = finding_line b
      /\ category_rank (finding_type a) <= category_rank (finding_type b)).

(** The character before the text that follows [w], [prev] being the one
    before [w]. *)
Fixpoint last_char (prev : option ascii) (w : string) : option ascii :=
  match w with
  | EmptyString => prev
  | String c w' => last_char (Some c) w'
  end.

(** What the patterns mean: [Matches r prev w rest] says that [r] matches
    the word [w] when [prev] is the character before it and [rest] the text
    after it. *)
Inductive Matches : regex -> option ascii -> string -> string -> Prop :=
| M_Eps prev rest :
    Matches Eps prev EmptyString rest
| M_Char r t prev rest :
    accepts r t = true ->
    Matches r prev (String t EmptyString) rest
| M_WordB prev rest :
    xorb (is_word prev) (is_word (first_char rest)) = true ->
    Matches WordB prev EmptyString rest
| M_Seq a b prev w1 w2 rest :
    Matches a prev w1 (w2 ++ rest) ->
    Matches b (last_char prev w1) w2 rest ->
    Matches (Seq a b) prev (w1 ++ w2) rest
| M_Star0 a prev rest :
    Matches (Star a) prev EmptyString rest
| M_StarS a prev w1 w2 rest :
    Matches a prev w1 (w2 ++ rest) ->
    Matches (Star a) (last_char prev w1) w2 rest ->
    Matches (Star a) prev (w1 ++ w2) rest
| M_Plus a prev w1 w2 rest :
    Matches a prev w1 (w2 ++ rest) ->
    Matches (Star a) (last_char prev w1) w2 rest ->
    Matches (Plus a) prev (w1 ++ w2) rest.

(** The images of [lower_char] that differ from their source. *)
Definition is_lowered (c : ascii) : bool :=
  let n := PyStr.code c in
  ((97 <=? n) && (n <=? 122))
  || ((224 <=? n) && (n <=? 254) && negb (n =? 247)).

(** The assignment of the password literal, in lower case. *)
Definition password_line : string :=
  ("password = " ++ dq ++ "admin123" ++ dq)%string.

Definition secrets_py : string :=
  ("def get_password():" ++ nl ++ "    PASSWORD = " ++ dq ++ "Admin123" ++ dq
   ++ "  # secret" ++ nl ++ "    return EVAL(x)" ++ nl)%string.

(** Closes a goal that says a chain of field validations fails, once one
    of its links is known to fail. *)
Ltac init_none :=
  repeat (cbn beta iota;
          match goal with
          | |- None = None => reflexivity
          | |- match ?x with _ => _ end = None => destruct x
          end).

(* ================================================================== *)
(** ** Vocabulary of the further properties *)
(* ================================================================== *)

(** The number of occurrences of a character. *)
Fixpoint count_char (c : ascii) (s : string) : nat :=
  match s with
  | EmptyString => 0
  | String c' s' => (if Ascii.eqb c' c then 1 else 0) + count_char c s'
  end.

(** [sub in s] *)
Fixpoint contains (sub s : string) : bool :=
  String.prefix sub s
  || match s with
     | EmptyString => false
     | String _ s' => contains sub s'
     end.

(** No character of the text is whitespace. *)
Fixpoint no_space (s : string) : bool :=
  match s with
  | EmptyString => true
  | String c s' => negb (PyStr.isspace c) && no_space s'
  end.

(** The constructs that consume exactly one character. *)
Definition is_class (r : regex) : bool :=
  match r with
  | Lit _ | Dot | Space | OneOf _ | NoneOf _ => true
  | _ => false
  end.

(** Every character of [w] is accepted by the class [a]. *)
Fixpoint all_accept (a : regex) (w : string) : bool :=
  match w with
  | EmptyString => true
  | String t w' => accepts a t && all_accept a w'
  end.

Definition is_quote (c : ascii) : bool := mem c quotes.

(** No character of the text is a quote. *)
Definition no_quote (s : string) : bool := all_accept (NoneOf quotes) s.

Definition eq_sign : string := "=".
Definition open_paren : string := "(".
Definition plus_sign : string := "+".

(** What one file can add to the prompt at most: its name, the budget and
    the 59 characters of the markers and the separator. *)
Definition prompt_bound (files : FileSet) : nat :=
  list_sum (map (fun item => String.length (fst item) + (max_chars + 59)) files).

(** The fields of [Issue] that have no default. *)
Definition required_fields : list string :=
  ["id"; "file"; "line_start"; "line_end"; "severity"; "category";
   "message"; "suggestion"].

(* ================================================================== *)
(** ** The dashboard helpers of [frontend/app.py] *)
(* ================================================================== *)

(** Truth value of a decoded value, as [if v], [v or d] and [not v] take it. *)
Definition truthy (v : pyval) : bool :=
  match v with
  | PNone => false
  | PBool b => b
  | PInt z => negb (z =? 0)%Z
  | PFloat q => negb (Qeq_bool q 0)
  | PStr s => nonempty s
  | PList l => match l with [] => false | _ => true end
  | PDict d => match d with [] => false | _ => true end
  end.

(** [x in l] for strings. *)
Fixpoint mem_str (x : string) (l : list string) : bool :=
  match l with
  | [] => false
  | y :: l' => String.eqb x y || mem_str x l'
  end.

(** [c in s] for a character. *)
Fixpoint has_char (c : ascii) (s : string) : bool :=
  match s with
  | EmptyString => false
  | String c' s' => Ascii.eqb c' c || has_char c s'
  end.

(** [s.rsplit(sep, 1)[-1]]: the text after the last [sep], all of [s] when
    there is none. *)
Fixpoint after_last (sep : ascii) (s : string) : string :=
  match s with
  | EmptyString => EmptyString
  | String c s' =>
      if has_char sep s' then after_last sep s'
      else if Ascii.eqb c sep then s' else s
  end.

Definition EXTENSION_LANG_MAP : PyDict.dict string :=
  [ ("py", "Python"); ("js", "JavaScript"); ("java", "Java"); ("cpp", "C++");
    ("c", "C"); ("go", "Go"); ("php", "PHP"); ("sql", "SQL"); ("html", "HTML");
    ("css", "CSS"); ("sh", "Bash"); ("txt", "Plain text / Other") ].

Definition dot : ascii := ".".

(** app.py, lines 33-37. *)
Definition detect_language_from_filename (filename : string) : string :=
  if negb (has_char dot filename) then "Unknown"
  else
    let ext := PyStr.lower (after_last dot filename) in
    match PyDict.get ext EXTENSION_LANG_MAP with
    | Some lang => lang
    | None => ("Unknown (" ++ ext ++ ")")%string
    end.

Definition SEVERITY_ORDER : list string :=
  ["critical"; "high"; "medium"; "low"; "info"].

(** [grouped[sev].append(issue)] on a [defaultdict(list)]: a new key goes
    last with a one-element list. *)
Fixpoint group_add (sev : string) (issue : pyval) (grouped : PyDict.dict (list pyval))
  : PyDict.dict (list pyval) :=
  match grouped with
  | [] => [(sev, [issue])]
  | (k, l) :: rest =>
      if String.eqb sev k then (k, l ++ [issue]) :: rest
      else (k, l) :: group_add sev issue rest
  end.

(** The group key of one issue (app.py, lines 47-49); an issue without
    [get], or a severity without [lower], raises. *)
Definition severity_key (issue : pyval) : lib_exn + string :=
  match issue with
  | PDict d =>
      let v := match PyDict.get "severity" d with
               | Some x => if truthy x then x else PStr EmptyString
               | None => PStr EmptyString
               end in
      match v with
      | PStr s =>
          let sev := PyStr.lower s in
          inr (if mem_str sev SEVERITY_ORDER then sev else "info")
      | _ => inl AttributeError
      end
  | _ => inl AttributeError
  end.

(** app.py, lines 44-51. *)
Definition group_issues_by_severity (issues : list pyval)
  : lib_exn + PyDict.dict (list pyval) :=
  fold_left
    (fun acc issue =>
       match acc with
       | inl e => inl e
       | inr grouped =>
           match severity_key issue with
           | inl e => inl e
           | inr sev => inr (group_add sev issue grouped)
           end
       end)
    issues (inr []).

(** The comprehension of the two pages (app.py, lines 240-245, 372-377). *)
Definition valid_issues (issues : list pyval) : list pyval :=
  filter (fun i =>
            match i with
            | PDict d =>
                truthy (get_default "severity" PNone d)
                && truthy (get_default "message" PNone d)
            | _ => false
            end)
         issues.

(** The issues of [issues] whose group key is [sev]. *)
Definition with_severity (sev : string) (issues : list pyval) : list pyval :=
  filter (fun i => match severity_key i with
                   | inr s => String.eqb s sev
                   | inl _ => false
                   end)
         issues.

(** The group of [sev], empty when the key is absent. *)
Definition group_of (sev : string) (grouped : PyDict.dict (list pyval)) : list pyval :=
  match PyDict.get sev grouped with Some l => l | None => [] end.

(** The calls a page makes to Streamlit, in order. *)
Inductive st_call : Type :=
| st_markdown (text : string)
| st_error (text : string)
| st_warning (text : string)
| st_info (text : string)
| st_write (value : pyval)
| st_code (code language : string).

(** [v or d] *)
Definition or_else (v : option pyval) (d : pyval) : pyval :=
  match v with
  | Some x => if truthy x then x else d
  | None => d
  end.

Section Page.

(** The text of a value in an f-string, and [str.upper]. *)
Variable format_value : pyval -> string.
Variable upper : string -> string.

(** app.py, lines 54-86.  The calls made, and the exception that ends the
    function early, if any: [lower] and [strip] are called on what may be no
    text. *)
Definition render_issue (issue : pyval) : list st_call * option lib_exn :=
  match issue with
  | PDict d =>
      match or_else (PyDict.get "severity" d) (PStr EmptyString) with
      | PStr s =>
          let severity := PyStr.lower s in
          let category := get_default "category" (PStr "unknown") d in
          let message := get_default "message" (PStr EmptyString) d in
          let suggestion := get_default "suggestion" (PStr EmptyString) d in
          let file := get_default "file" (PStr "unknown") d in
          let line_start := get_default "line_start" (PInt 0) d in
          let line_end := get_default "line_end" (PInt 0) d in
          let code_patch := or_else (PyDict.get "code_patch" d) (PStr EmptyString) in
          let header :=
            ("[" ++ upper severity ++ "] [" ++ format_value category ++ "] "
             ++ format_value message)%string in
          let location :=
            ("File: " ++ format_value file ++ ", Lines: "
             ++ format_value line_start ++ "-" ++ format_value line_end)%string in
          let show :=
            if String.eqb severity "critical" || String.eqb severity "high"
            then st_error
            else if String.eqb severity "medium" then st_warning
            else st_info in
          let shown :=
            [show ("**" ++ header ++ "**" ++ nl ++ nl ++ "*" ++ location ++ "*")%string] in
          let suggested :=
            if truthy suggestion
            then [st_markdown "**Suggestion:**"; st_write suggestion]
            else [] in
          match code_patch with
          | PStr patch =>
              (shown ++ suggested
               ++ (if nonempty (PyStr.strip patch)
                   then [st_markdown "**Auto-fix suggestion (patch):**";
                         st_code patch "python"]
                   else []),
               None)
          | _ => (shown ++ suggested, Some AttributeError)
          end
      | _ => ([], Some AttributeError)
      end
  | _ => ([], Some AttributeError)
  end.

(** [for issue in issues: render_issue(issue)]: an exception ends the
    loop. *)
Fixpoint render_issues (issues : list pyval) : list st_call * option lib_exn :=
  match issues with
  | [] => ([], None)
  | issue :: rest =>
      match render_issue issue with
      | (calls, Some e) => (calls, Some e)
      | (calls, None) =>
          let '(calls', r) := render_issues rest in (calls ++ calls', r)
      end
  end.

(** The loop of the page over the severities (app.py, lines 290-294): a
    heading and the issues of each group that is present and not empty. *)
Fixpoint render_groups (order : list string) (grouped : PyDict.dict (list pyval))
  : list st_call * option lib_exn :=
  match order with
  | [] => ([], None)
  | sev :: rest =>
      match PyDict.get sev grouped with
      | Some (issue :: issues) =>
          match render_issues (issue :: issues) with
          | (calls, Some e) => (st_markdown ("### " ++ upper sev) :: calls, Some e)
          | (calls, None) =>
              let '(calls', r) := render_groups rest grouped in
              (st_markdown ("### " ++ upper sev) :: calls ++ calls', r)
          end
      | _ => render_groups rest grouped
      end
  end.

Definition render_page (grouped : PyDict.dict (list pyval))
  : list st_call * option lib_exn :=
  render_groups SEVERITY_ORDER grouped.

(** What the page calls for a list of issues when no call of
    [render_issue] fails: for each severity that some issue has, the heading
    and the calls of its issues. *)
Definition page_calls (issues : list pyval) : list st_call :=
  flat_map
    (fun sev =>
       match with_severity sev issues with
       | [] => []
       | group =>
           st_markdown ("### " ++ upper sev)
           :: flat_map (fun issue => fst (render_issue issue)) group
       end)
    SEVERITY_ORDER.

End Page.

(** The issues in the order the page goes through them: severity by
    severity, in the order of [SEVERITY_ORDER]. *)
Definition render_order (issues : list pyval) : list pyval :=
  flat_map (fun sev => with_severity sev issues) SEVERITY_ORDER.

(** The [code_patch] of an issue is text, or counts as false. *)
Definition patch_is_text (issue : pyval) : bool :=
  match issue with
  | PDict d =>
      match or_else (PyDict.get "code_patch" d) (PStr EmptyString) with
      | PStr _ => true
      | _ => false
      end
  | _ => true
  end.

(** The issues up to the first whose patch is no text, that one
    included. *)
Fixpoint until_bad_patch (issues : list pyval) : list pyval :=
  match issues with
  | [] => []
  | issue :: rest =>
      if patch_is_text issue then issue :: until_bad_patch rest else [issue]
  end.

(** The headlines among the calls: one per issue shown. *)
Definition is_headline (c : st_call) : bool :=
  match c with
  | st_error _ | st_warning _ | st_info _ => true
  | _ => false
  end.

Definition headline_count (calls : list st_call) : nat :=
  List.length (filter is_headline calls).

(* ================================================================== *)
(** ** The database layer of [backend/db.py] *)
(* ================================================================== *)

(** The calls the layer makes to the MySQL connector.  A statement run
    without parameters has the empty list. *)
Inductive db_call : Type :=
| Connect (with_db : bool)
| SetAutocommit
| OpenCursor (dictionary : bool)
| Execute (sql : string) (params : list pyval)
| Commit
| FetchAll
| FetchOne
| CloseCursor
| CloseConnection.

(** What a function of the layer did, in order: a call with its outcome
    ([None] when it returned, the text of the [Error] when it raised), or a
    line printed. *)
Inductive db_event : Type :=
| Called (c : db_call) (error : option string)
| Printed (line : string).

(** The calls made so far, and whether the local variables [conn] and
    [cursor] of the running function hold an object or [None]. *)
Record DbState := mkDbState {
  db_log : list db_event;
  conn : bool;
  cursor : bool
}.

(** Computations of the layer: they may call the connector and may raise
    its [Error], kept as its text. *)
Definition DB (A : Type) : Type := DbState -> DbState * (string + A).

Definition db_ret {A : Type} (a : A) : DB A := fun s => (s, inr a).

Definition db_raise {A : Type} (e : string) : DB A := fun s => (s, inl e).

Definition db_bind {A B : Type} (c : DB A) (f : A -> DB B) : DB B :=
  fun s =>
    match c s with
    | (s', inr a) => f a s'
    | (s', inl e) => (s', inl e)
    end.

Declare Scope db_scope.
Delimit Scope db_scope with db.
Notation "x <- c ;; k" := (db_bind c (fun x => k))
  (at level 61, c at next level, right associativity) : db_scope.
Notation "c ;;; k" := (db_bind c (fun _ => k))
  (at level 61, right associativity) : db_scope.

(** [try: body except Error as e: handler e] *)
Definition try_except {A : Type} (body : DB A) (handler : string -> DB A) : DB A :=
  fun s =>
    match body s with
    | (s', inl e) => handler e s'
    | (s', inr a) => (s', inr a)
    end.

(** [try: body finally: cleanup]: the cleanup runs on both exits, and what
    it raises replaces the outcome of the body. *)
Definition try_finally {A : Type} (body : DB A) (cleanup : DB unit) : DB A :=
  fun s =>
    match body s with
    | (s', r) =>
        match cleanup s' with
        | (s'', inl e) => (s'', inl e)
        | (s'', inr _) => (s'', r)
        end
    end.

Definition print (line : string) : DB unit :=
  fun s => (mkDbState (db_log s ++ [Printed line]) (conn s) (cursor s), inr tt).

Definition assign_conn (v : bool) : DB unit :=
  fun s => (mkDbState (db_log s) v (cursor s), inr tt).

Definition assign_cursor (v : bool) : DB unit :=
  fun s => (mkDbState (db_log s) (conn s) v, inr tt).

Definition sql_insert_review : string :=
  String.concat nl
    [ "";
      "            INSERT INTO reviews (filenames, summary, details, raw_response, issues_json, ";
      "                               quality_score, metrics_json, strengths_json)";
      "            VALUES (%s, %s, %s, %s, %s, %s, %s, %s)";
      "        " ].

Definition sql_recent_reviews : string :=
  String.concat nl
    [ "";
      "            SELECT id, created_at, filenames, summary, quality_score";
      "            FROM reviews";
      "            ORDER BY created_at DESC";
      "            LIMIT %s";
      "        " ].

Definition sql_review_by_id : string :=
  String.concat nl
    [ "";
      "            SELECT id, created_at, filenames, summary, details, raw_response, ";
      "                   issues_json, quality_score, metrics_json, strengths_json";
      "            FROM reviews";
      "            WHERE id = %s";
      "        " ].

Definition sql_create_table : string :=
  String.concat nl
    [ "";
      "            CREATE TABLE IF NOT EXISTS reviews (";
      "                id INT AUTO_INCREMENT PRIMARY KEY,";
      "                created_at TIMESTAMP DEFAULT CURRENT_TIMESTAMP,";
      "                filenames TEXT NOT NULL,";
      "                summary TEXT NOT NULL,";
      "                details LONGTEXT NOT NULL,";
      "                raw_response LONGTEXT";
      "            )";
      "            " ].

Definition new_columns : list (string * string) :=
  [ ("quality_score", "FLOAT DEFAULT 0");
    ("metrics_json", "LONGTEXT");
    ("strengths_json", "LONGTEXT") ].

(** An optional text argument as the value handed to the connector. *)
Definition opt_text (o : option string) : pyval :=
  match o with Some s => PStr s | None => PNone end.

(** A row of a dictionary cursor: column name to value. *)
Definition DbRow := PyDict.dict pyval.

Section Database.

(** Module-level configuration, read from the environment at import. *)
Variable DB_NAME : string.

(** The connector and the server behind it: whether a call raises [Error],
    and with which text, given what happened before; the key of the row an
    [INSERT] made; the rows a [SELECT] left to fetch. *)
Variable mysql : list db_event -> db_call -> option string.
Variable lastrowid : list db_event -> Z.
Variable fetchall : list db_event -> list DbRow.
Variable fetchone : list db_event -> option DbRow.

Local Open Scope db_scope.

Definition call (c : db_call) : DB unit :=
  fun s =>
    (mkDbState (db_log s ++ [Called c (mysql (db_log s) c)]) (conn s) (cursor s),
     match mysql (db_log s) c with
     | Some e => inl e
     | None => inr tt
     end).

(** db.py, lines 16-33. *)
Definition get_connection (with_db : bool) : DB unit := call (Connect with_db).

(** [if v: c], for a local variable [v]. *)
Definition when (v : DbState -> bool) (c : DB unit) : DB unit :=
  fun s => if v s then c s else (s, inr tt).

(** The [finally] block of the three functions below. *)
Definition close_handles : DB unit :=
  when cursor (call CloseCursor) ;;;
  when conn (call CloseConnection).

(** One [ALTER TABLE] of [init_db] with its handler: an [Error] is dropped. *)
Definition add_column (sql confirmation : string) : DB unit :=
  try_except
    (call (Execute sql []) ;;;
     call Commit ;;;
     print confirmation)
    (fun _ => db_ret tt).

Fixpoint add_columns (columns : list (string * string)) : DB unit :=
  match columns with
  | [] => db_ret tt
  | (col_name, col_def) :: rest =>
      add_column ("ALTER TABLE reviews ADD COLUMN " ++ col_name ++ " " ++ col_def)
                 ("[DB] Added " ++ col_name ++ " column to reviews table.") ;;;
      add_columns rest
  end.

(** db.py, lines 36-98. *)
Definition init_db : DB unit :=
  try_except
    (get_connection false ;;; assign_conn true ;;;
     call SetAutocommit ;;;
     call (OpenCursor false) ;;; assign_cursor true ;;;
     call (Execute ("CREATE DATABASE IF NOT EXISTS " ++ DB_NAME) []) ;;;
     call CloseCursor ;;;
     call CloseConnection ;;;
     get_connection true ;;; assign_conn true ;;;
     call (OpenCursor false) ;;; assign_cursor true ;;;
     call (Execute sql_create_table []) ;;;
     call Commit ;;;
     add_column "ALTER TABLE reviews ADD COLUMN issues_json LONGTEXT"
                "[DB] Added issues_json column to reviews table." ;;;
     add_columns new_columns ;;;
     call CloseCursor ;;;
     call CloseConnection ;;;
     print "[DB] Database and 'reviews' table are ready.")
    (fun e => print ("[DB] Error during init_db: " ++ e)).

(** db.py, lines 101-140. *)
Definition insert_review (filenames : list string) (summary details : string)
  (raw_response issues_json : option string) (quality_score : pyval)
  (metrics_json strengths_json : option string) : DB Z :=
  assign_conn false ;;;
  assign_cursor false ;;;
  try_finally
    (try_except
       (get_connection true ;;; assign_conn true ;;;
        call (OpenCursor false) ;;; assign_cursor true ;;;
        let filenames_str := PyStr.join ", " filenames in
        call (Execute sql_insert_review
                [PStr filenames_str; PStr summary; PStr details;
                 opt_text raw_response; opt_text issues_json; quality_score;
                 opt_text metrics_json; opt_text strengths_json]) ;;;
        call Commit ;;;
        fun s => (s, inr (lastrowid (db_log s))))
       (fun e => print ("[DB] Error in insert_review: " ++ e) ;;; db_raise e))
    close_handles.

(** db.py, lines 143-170. *)
Definition fetch_recent_reviews (limit : Z) : DB (list DbRow) :=
  assign_conn false ;;;
  assign_cursor false ;;;
  try_finally
    (try_except
       (get_connection true ;;; assign_conn true ;;;
        call (OpenCursor true) ;;; assign_cursor true ;;;
        call (Execute sql_recent_reviews [PInt limit]) ;;;
        call FetchAll ;;;
        fun s => (s, inr (fetchall (db_log s))))
       (fun e => print ("[DB] Error in fetch_recent_reviews: " ++ e) ;;; db_raise e))
    close_handles.

(** db.py, lines 173-199. *)
Definition fetch_review_by_id (review_id : Z) : DB (option DbRow) :=
  assign_conn false ;;;
  assign_cursor false ;;;
  try_finally
    (try_except
       (get_connection true ;;; assign_conn true ;;;
        call (OpenCursor true) ;;; assign_cursor true ;;;
        call (Execute sql_review_by_id [PInt review_id]) ;;;
        call FetchOne ;;;
        fun s => (s, inr (fetchone (db_log s))))
       (fun e => print ("[DB] Error in fetch_review_by_id: " ++ e) ;;; db_raise e))
    close_handles.

(** A function of the layer called with fresh local variables, on the log
    of the calls made before. *)
Definition run_db {A : Type} (c : DB A) (log : list db_event)
  : list db_event * (string + A) :=
  let '(s, r) := c (mkDbState log false false) in (db_log s, r).

End Database.

(** The connections, and the cursors, that a log leaves open: one more for
    each that was opened, one less for each that was closed. *)
Fixpoint open_connections (log : list db_event) : Z :=
  match log with
  | [] => 0%Z
  | Called (Connect _) None :: rest => (open_connections rest + 1)%Z
  | Called CloseConnection None :: rest => (open_connections rest - 1)%Z
  | _ :: rest => open_connections rest
  end.

Fixpoint open_cursors (log : list db_event) : Z :=
  match log with
  | [] => 0%Z
  | Called (OpenCursor _) None :: rest => (open_cursors rest + 1)%Z
  | Called CloseCursor None :: rest => (open_cursors rest - 1)%Z
  | _ :: rest => open_cursors rest
  end.

(** The calls of a log that raised, with their texts, in order. *)
Fixpoint errors_of (log : list db_event) : list string :=
  match log with
  | [] => []
  | Called _ (Some e) :: rest => e :: errors_of rest
  | _ :: rest => errors_of rest
  end.

(** The statements a log ran, with or without success. *)
Fixpoint statements_of (log : list db_event) : list string :=
  match log with
  | [] => []
  | Called (Execute sql _) _ :: rest => sql :: statements_of rest
  | _ :: rest => statements_of rest
  end.

(** A function of the layer that started on [log] ended on [out]: it
    added [added] to the log, left no connection and no cursor open, and
    raised exactly when one of its calls did, with the text of that call. *)
Definition closes_what_it_opens {A : Type} (log : list db_event)
  (out : list db_event * (string + A)) (added : list db_event) : Prop :=
  fst out = log ++ added
  /\ open_connections added = 0%Z
  /\ open_cursors added = 0%Z
  /\ errors_of added = match snd out with inl e => [e] | inr _ => [] end.

(** The statements [init_db] runs to add a column. *)
Definition is_alter (c : db_call) : bool :=
  match c with
  | Execute sql _ => String.prefix "ALTER TABLE" sql
  | _ => false
  end.

(** A connector on which adding a column that exists fails, and nothing
    else does. *)
Definition columns_exist (log : list db_event) (c : db_call) : option string :=
  if is_alter c then Some "Duplicate column name" else None.

(** A connector whose server refuses every statement. *)
Definition statements_refused (log : list db_event) (c : db_call) : option string :=
  match c with
  | Execute _ _ => Some "Access denied"
  | _ => None
  end.
(* ================================================================== *)
(** ** The endpoints of [backend/main.py] *)
(* ================================================================== *)

(** An uploaded file: its name and the bytes [read] returns. *)
Record Upload := mkUpload {
  filename : string;
  content_bytes : list Byte.byte
}.

(** How a request ends when it does not return: the HTTP error the
    endpoint raises, or an exception it does not catch. *)
Inductive failure : Type :=
| HTTPException (status : Z) (detail : string)
| Uncaught (e : lib_exn).

Record ReviewResponse := mkReviewResponse {
  response_id : Z;
  response_summary : string;
  response_details : string;
  response_issues : list Issue;
  response_raw_response : option string;
  response_quality_score : Q;
  response_strengths : list string;
  response_metrics : PyDict.dict FileMetrics
}.

Record ReviewListItem := mkReviewListItem {
  item_id : Z;
  item_created_at : string;
  item_filenames : string;
  item_summary : string;
  item_quality_score : Q
}.

(** What a request did and how it ended: the uploads closed, the requests
    sent to the model, the log of the database, and the result. *)
Record Outcome (A : Type) := mkOutcome {
  closed : list string;
  sent : list Request;
  database : list db_event;
  result : failure + A
}.

Arguments mkOutcome {A} closed sent database result.
Arguments closed {A} o.
Arguments sent {A} o.
Arguments database {A} o.
Arguments result {A} o.

Definition max_files : nat := 10.

Definition max_upload_bytes : Z := 1000000.

Definition too_large (upload : Upload) : bool :=
  (max_upload_bytes <? Z.of_nat (List.length (content_bytes upload)))%Z.

(** [v.strip()] on a value of the result of the model. *)
Definition strip_value (v : pyval) : lib_exn + string :=
  match v with
  | PStr s => inr (PyStr.strip s)
  | _ => inl AttributeError
  end.

(** [v or []] *)
Definition or_empty_list (v : pyval) : pyval :=
  if truthy v then v else PList [].

(** The items [for issue in issues] goes through: the elements of a list,
    the keys of a mapping, the characters of a text; other values cannot be
    iterated. *)
Definition iterate (v : pyval) : lib_exn + list pyval :=
  match v with
  | PList l => inr l
  | PDict d => inr (map (fun item => PStr (fst item)) d)
  | PStr s => inr (map (fun c => PStr (String c EmptyString)) (list_ascii_of_string s))
  | _ => inl TypeError
  end.

(** The metrics as the value handed to [json.dumps]. *)
Definition metrics_value (metrics : PyDict.dict FileMetrics) : pyval :=
  PDict
    (map (fun '(fname, m) =>
            (fname,
             PDict [ ("total_lines", PInt (Z.of_nat (total_lines m)));
                     ("code_lines", PInt (Z.of_nat (code_lines m)));
                     ("comment_lines", PInt (Z.of_nat (comment_lines m)));
                     ("complexity_score", PInt (Z.of_nat (complexity_score m)));
                     ("comment_ratio", PFloat (comment_ratio m)) ]))
         metrics).

Section Endpoints.

(** The configuration and the outside world of the pipeline. *)
Variable GROQ_API_KEY : option string.
Variable AI_MODEL : string.
Variable requests_post : Request -> lib_exn + Response.
Variable json_loads : string -> option pyval.
Variable str_nat : nat -> string.
Variable str_float : Q -> string.
Variable warning_sign : string.

(** The field validators of the model classes. *)
Variable validate_str : pyval -> option string.
Variable validate_int : pyval -> option Z.
Variable validate_float : pyval -> option Q.

(** [bytes.decode] with errors ignored, [json.dumps] ([None] when it
    raises), and the text of an exception in an f-string. *)
Variable decode : list Byte.byte -> string.
Variable json_dumps : pyval -> option string.
Variable exn_text : lib_exn -> string.

(** The connector of the database layer. *)
Variable mysql : list db_event -> db_call -> option string.
Variable lastrowid : list db_event -> Z.

(** The loop over the uploads (main.py, lines 61-75): each upload that is
    read is closed, also the one that is too large. *)
Fixpoint read_uploads (files : list Upload) (file_contents : FileSet)
  (filenames closed : list string)
  : list string * (failure + (FileSet * list string)) :=
  match files with
  | [] => (closed, inr (file_contents, filenames))
  | upload :: rest =>
      if too_large upload
      then (closed ++ [filename upload],
            inl (HTTPException 400
                   ("File " ++ filename upload
                    ++ " is too large (max 1MB for demo).")))
      else read_uploads rest
             (PyDict.dict_set (filename upload) (decode (content_bytes upload))
                              file_contents)
             (filenames ++ [filename upload])
             (closed ++ [filename upload])
  end.

(** A field [List[str]]: a list whose items are all valid. *)
Fixpoint validate_strs (l : list pyval) : option (list string) :=
  match l with
  | [] => Some []
  | v :: rest =>
      match validate_str v, validate_strs rest with
      | Some s, Some r => Some (s :: r)
      | _, _ => None
      end
  end.

Definition validate_str_list (v : pyval) : option (list string) :=
  match v with
  | PList l => validate_strs l
  | _ => None
  end.

(** main.py, lines 85-132: what follows the call of the model. *)
Definition store_review (filenames : list string) (llm_result : ReviewResult)
  (closed : list string) (sent : list Request) (log : list db_event)
  : Outcome ReviewResponse :=
  match strip_value (summary llm_result) with
  | inl e => mkOutcome closed sent log (inl (Uncaught e))
  | inr summary =>
  match strip_value (details llm_result) with
  | inl e => mkOutcome closed sent log (inl (Uncaught e))
  | inr details =>
      let raw_response := PyStr.strip (raw_response llm_result) in
      let issues := or_empty_list (issues llm_result) in
      let quality_score := quality_score llm_result in
      let strengths := strengths llm_result in
      let metrics := metrics llm_result in
      let '(issues_json_str, metrics_json_str, strengths_json_str,
            issues, metrics, strengths) :=
        match json_dumps issues, json_dumps (metrics_value metrics),
              json_dumps strengths with
        | Some i, Some m, Some s => (i, m, s, issues, metrics, strengths)
        | _, _, _ => ("[]", "{}", "[]", PList [], [], PList [])
        end in
      match run_db (insert_review mysql lastrowid filenames summary details
                      (Some raw_response) (Some issues_json_str) quality_score
                      (Some metrics_json_str) (Some strengths_json_str)) log with
      | (log', inl e) =>
          mkOutcome closed sent log'
            (inl (HTTPException 500 ("Database error: " ++ e)))
      | (log', inr review_id) =>
          match lbind (iterate issues) (issue_models validate_str validate_int) with
          | inl e => mkOutcome closed sent log' (inl (Uncaught e))
          | inr issue_models =>
              match validate_float quality_score, validate_str_list strengths with
              | Some score, Some strengths' =>
                  mkOutcome closed sent log'
                    (inr (mkReviewResponse review_id summary details issue_models
                            (Some raw_response) score strengths' metrics))
              | _, _ => mkOutcome closed sent log' (inl (Uncaught ValidationError))
              end
          end
      end
  end
  end.

(** main.py, lines 41-132. *)
Definition review_code (files : list Upload) (log : list db_event)
  : Outcome ReviewResponse :=
  match files with
  | [] => mkOutcome [] [] log (inl (HTTPException 400 "No files uploaded."))
  | _ =>
      if max_files <? List.length files
      then mkOutcome [] [] log
             (inl (HTTPException 400
                     ("Too many files uploaded. Maximum allowed is "
                      ++ str_nat max_files ++ ".")))
      else
        match read_uploads files [] [] [] with
        | (closed, inl f) => mkOutcome closed [] log (inl f)
        | (closed, inr (file_contents, filenames)) =>
            match run_review GROQ_API_KEY AI_MODEL requests_post json_loads
                    str_nat str_float warning_sign file_contents with
            | (sent, inl (LLMConfigError msg)) =>
                mkOutcome closed sent log (inl (HTTPException 500 msg))
            | (sent, inl (Lib e)) =>
                mkOutcome closed sent log
                  (inl (HTTPException 500 ("LLM error: " ++ exn_text e)))
            | (sent, inr llm_result) =>
                store_review filenames llm_result closed sent log
            end
        end
  end.

End Endpoints.

Record ReviewDetail := mkReviewDetail {
  detail_id : Z;
  detail_created_at : string;
  detail_filenames : string;
  detail_summary : string;
  detail_details : string;
  detail_issues : list Issue;
  detail_raw_response : option string;
  detail_quality_score : Q;
  detail_strengths : list string;
  detail_metrics : PyDict.dict pyval
}.

(** [row[k]] on a row of the table. *)
Definition column (row : DbRow) (k : string) : lib_exn + pyval :=
  match PyDict.get k row with
  | Some v => inr v
  | None => inl KeyError
  end.

(** The failure of a model class on an invalid field. *)
Definition valid {A : Type} (o : option A) : lib_exn + A :=
  match o with
  | Some a => inr a
  | None => inl ValidationError
  end.

Section Reports.

Variable json_loads : string -> option pyval.
Variable validate_str : pyval -> option string.
Variable validate_int : pyval -> option Z.
Variable validate_float : pyval -> option Q.

(** [str] of a column value: the text of a timestamp. *)
Variable py_str : pyval -> string.

Variable mysql : list db_event -> db_call -> option string.
Variable fetchall : list db_event -> list DbRow.
Variable fetchone : list db_event -> option DbRow.

(** One item of the list (main.py, lines 153-159): the arguments are
    evaluated first, then the fields are validated. *)
Definition list_item (row : DbRow) : lib_exn + ReviewListItem :=
  lbind (column row "id") (fun id =>
  lbind (column row "created_at") (fun created_at =>
  lbind (column row "filenames") (fun filenames =>
  lbind (column row "summary") (fun summary =>
  let quality_score := get_default "quality_score" (PFloat 0) row in
  valid
    (obind (validate_int id) (fun id' =>
     obind (validate_str filenames) (fun filenames' =>
     obind (validate_str summary) (fun summary' =>
     obind (validate_float quality_score) (fun score =>
     Some (mkReviewListItem id' (py_str created_at) filenames' summary'
                            score)))))))))).

Fixpoint list_items (rows : list DbRow) : lib_exn + list ReviewListItem :=
  match rows with
  | [] => inr []
  | row :: rest =>
      lbind (list_item row) (fun item =>
      lbind (list_items rest) (fun items => inr (item :: items)))
  end.

(** main.py, lines 135-161. *)
Definition list_recent_reports (limit : Z) (log : list db_event)
  : Outcome (list ReviewListItem) :=
  if ((limit <? 1) || (100 <? limit))%Z
  then mkOutcome [] [] log
         (inl (HTTPException 400 "limit must be between 1 and 100"))
  else
    match run_db (fetch_recent_reviews mysql fetchall limit) log with
    | (log', inl e) =>
        mkOutcome [] [] log' (inl (HTTPException 500 ("Database error: " ++ e)))
    | (log', inr rows) =>
        match list_items rows with
        | inl e => mkOutcome [] [] log' (inl (Uncaught e))
        | inr items => mkOutcome [] [] log' (inr items)
        end
    end.

(** A JSON column of a row, decoded (main.py, lines 181-206): nothing when
    the column is absent, holds a value that counts as false, or cannot be
    decoded. *)
Definition decoded_column (row : DbRow) (k : string) : option pyval :=
  match PyDict.get k row with
  | Some (PStr s) => if nonempty s then json_loads s else None
  | _ => None
  end.

Definition report_issues (row : DbRow) : list Issue :=
  match decoded_column row "issues_json" with
  | Some raw_issues => get_report_issues validate_str validate_int raw_issues
  | None => []
  end.

Definition report_strengths (row : DbRow) : pyval :=
  match decoded_column row "strengths_json" with
  | Some (PList l) => PList l
  | _ => PList []
  end.

Definition report_metrics (row : DbRow) : PyDict.dict pyval :=
  match decoded_column row "metrics_json" with
  | Some (PDict d) => d
  | _ => []
  end.

(** [raw_response: Optional[str]] *)
Definition validate_optional_str (v : pyval) : option (option string) :=
  match v with
  | PNone => Some None
  | _ => option_map Some (validate_str v)
  end.

(** The construction of the detail (main.py, lines 208-219). *)
Definition report_detail (row : DbRow) : lib_exn + ReviewDetail :=
  lbind (column row "id") (fun id =>
  lbind (column row "created_at") (fun created_at =>
  lbind (column row "filenames") (fun filenames =>
  lbind (column row "summary") (fun summary =>
  lbind (column row "details") (fun details =>
  let raw_response := get_default "raw_response" PNone row in
  let quality_score := get_default "quality_score" (PFloat 0) row in
  valid
    (obind (validate_int id) (fun id' =>
     obind (validate_str filenames) (fun filenames' =>
     obind (validate_str summary) (fun summary' =>
     obind (validate_str details) (fun details' =>
     obind (validate_optional_str raw_response) (fun raw_response' =>
     obind (validate_float quality_score) (fun score =>
     obind (validate_str_list validate_str (report_strengths row)) (fun strengths' =>
     Some (mkReviewDetail id' (py_str created_at) filenames' summary' details'
                          (report_issues row) raw_response' score strengths'
                          (report_metrics row))))))))))))))).

(** main.py, lines 164-219. *)
Definition get_report (report_id : Z) (log : list db_event) : Outcome ReviewDetail :=
  match run_db (fetch_review_by_id mysql fetchone report_id) log with
  | (log', inl e) =>
      mkOutcome [] [] log' (inl (HTTPException 500 ("Database error: " ++ e)))
  | (log', inr (Some (item :: items))) =>
      match report_detail (item :: items) with
      | inl e => mkOutcome [] [] log' (inl (Uncaught e))
      | inr detail => mkOutcome [] [] log' (inr detail)
      end
  | (log', inr _) =>
      (* [not row]: no row, or an empty one *)
      mkOutcome [] [] log' (inl (HTTPException 404 "Report not found"))
  end.

End Reports.

(** The uploads the loop reads: up to the first one that is too large,
    that one included. *)
Fixpoint read_until_large (files : list Upload) : list Upload :=
  match files with
  | [] => []
  | upload :: rest =>
      if too_large upload then [upload] else upload :: read_until_large rest
  end.

(** The last upload of a name. *)
Definition last_upload (name : string) (files : list Upload) : option Upload :=
  find (fun upload => String.eqb (filename upload) name) (rev files).

(** The uploads are accepted: between one and [max_files] of them, none
    too large. *)
Definition accepted (files : list Upload) : Prop :=
  files <> [] /\ List.length files <= max_files
  /\ Forall (fun upload => too_large upload = false) files.

(** The log [database] extends [log] by one review stored: the insertion
    ran and was committed, no call failed and the connection was closed. *)
Definition stored (log database : list db_event) : Prop :=
  exists added,
    database = log ++ added
    /\ statements_of added = [sql_insert_review]
    /\ In (Called Commit None) added
    /\ errors_of added = []
    /\ open_connections added = 0%Z
    /\ open_cursors added = 0%Z.

(** An upload of [n] zero bytes. *)
Definition upload_of_size (name : string) (n : nat) : Upload :=
  mkUpload name (repeat Byte.x00 n).

(** A connector that never fails. *)
Definition mysql_up (log : list db_event) (c : db_call) : option string := None.


(** ASCII text: every character has a code below 128.  On such text the
    embedding of the scanner is exact: beyond it the text of a file can hold
    code points that a string here cannot, and [re.IGNORECASE] also matches
    some of them with an ASCII letter of a pattern (U+017F with s, U+212A
    with k, U+0130 and U+0131 with i). *)
Fixpoint is_ascii_text (s : string) : bool :=
  match s with
  | EmptyString => true
  | String c s' => (PyStr.code c <? 128) && is_ascii_text s'
  end.

(** A decoder of bytes that takes each byte as one character. *)
Definition text_of_bytes (b : list Byte.byte) : string := string_of_list_byte b.

(** A validator of a field [float]: a number, also an integer. *)
Definition exact_float (v : pyval) : option Q :=
  match v with
  | PFloat q => Some q
  | PInt z => Some (inject_Z z)
  | _ => None
  end.

(** A decoder for which every reply is a review with one issue that lacks
    most of its fields. *)
Definition partial_json_loads (s : string) : option pyval :=
  Some (PDict [("summary", PStr "ok"); ("details", PStr "d");
               ("issues", PList [partial_entry])]).

(** The columns the detail of a report reads with a subscript. *)
Definition detail_columns : list string :=
  ["id"; "created_at"; "filenames"; "summary"; "details"].

(* ================================================================== *)
(** * Properties *)
(* ================================================================== *)

(** ** Dictionaries *)

Lemma keys_dict_set_fresh (V : Type) (k : string) (v : V) (d : PyDict.dict V) :
  ~ In k (PyDict.keys d) -> PyDict.dict_set k v d = d ++ [(k, v)].
Proof.
  induction d as [|[k' v'] d IH]; simpl; intros Hk.
  - reflexivity.
  - destruct (String.eqb_spec k k') as [->|Hne].
    + exfalso. apply Hk. now left.
    + rewrite IH; [reflexivity|]. intros Hin. apply Hk. now right.
Qed.

Lemma get_In_NoDup (V : Type) (k : string) (v : V) (d : PyDict.dict V) :
  NoDup (PyDict.keys d) -> In (k, v) d -> PyDict.get k d = Some v.
Proof.
  induction d as [|[k' v'] d IH]; simpl; intros Hnd Hin.
  - contradiction.
  - inversion Hnd as [|? ? Hnotin Hnd']; subst.
    destruct Hin as [Heq|Hin].
    + inversion Heq; subst. now rewrite String.eqb_refl.
    + destruct (String.eqb_spec k k') as [->|Hne].
      * exfalso. apply Hnotin. change k' with (fst (k', v)).
        now apply in_map.
      * now apply IH.
Qed.

(** ** The metrics loop *)

Lemma metrics_loop_map (files : FileSet) (acc : PyDict.dict FileMetrics) :
  NoDup (PyDict.keys acc ++ PyDict.keys files) ->
  fold_left (fun metrics '(filename, content) =>
               PyDict.dict_set filename (file_metrics content) metrics)
            files acc
  = acc ++ map metrics_entry files.
Proof.
  revert acc. induction files as [|[fn c] files IH]; simpl; intros acc Hnd.
  - now rewrite app_nil_r.
  - rewrite keys_dict_set_fresh.
    + rewrite IH.
      * now rewrite <- app_assoc.
      * unfold PyDict.keys in *. rewrite map_app, <- app_assoc. exact Hnd.
    + apply NoDup_remove_2 in Hnd. intros Hin. apply Hnd.
      apply in_or_app. now left.
Qed.

Lemma calculate_code_metrics_map (files : FileSet) :
  NoDup (PyDict.keys files) ->
  calculate_code_metrics files = map metrics_entry files.
Proof.
  intros Hnd. unfold calculate_code_metrics.
  now rewrite metrics_loop_map.
Qed.

Lemma calculate_code_metrics_keys (files : FileSet) :
  NoDup (PyDict.keys files) ->
  PyDict.keys (calculate_code_metrics files) = PyDict.keys files.
Proof.
  intros Hnd. rewrite calculate_code_metrics_map by exact Hnd.
  unfold PyDict.keys. rewrite map_map. now apply map_ext; intros [? ?].
Qed.

Lemma calculate_code_metrics_get (files : FileSet) (filename content : string) :
  NoDup (PyDict.keys files) -> In (filename, content) files ->
  PyDict.get filename (calculate_code_metrics files) = Some (file_metrics content).
Proof.
  intros Hnd Hin. apply get_In_NoDup.
  - now rewrite calculate_code_metrics_keys.
  - rewrite calculate_code_metrics_map by exact Hnd.
    change (filename, file_metrics content) with (metrics_entry (filename, content)).
    now apply in_map.
Qed.

(** ** Line classes *)

Lemma line_class_exclusive (l : string) :
  (if is_code_line l then 1 else 0) + (if is_comment_line l then 1 else 0)
  + (if is_blank_line l then 1 else 0) = 1.
Proof.
  unfold is_code_line, is_comment_line, is_blank_line, PyStr.startswith.
  destruct (PyStr.strip l) as [|c s].
  - reflexivity.
  - cbn [nonempty]. destruct (String.prefix "#" (String c s)); reflexivity.
Qed.

Lemma length_filter_count (A : Type) (p : A -> bool) (l : list A) :
  List.length (filter p l) = fold_right (fun x n => (if p x then 1 else 0) + n) 0 l.
Proof.
  induction l as [|x l IH]; simpl; [reflexivity|].
  destruct (p x); simpl; now rewrite IH.
Qed.

Lemma lines_partition (lines : list string) :
  List.length lines
  = List.length (filter is_code_line lines)
    + List.length (filter is_comment_line lines)
    + List.length (filter is_blank_line lines).
Proof.
  rewrite !length_filter_count.
  induction lines as [|l lines IH]; simpl; [reflexivity|].
  pose proof (line_class_exclusive l). lia.
Qed.

Lemma split_not_nil (sep : ascii) (s : string) : PyStr.split sep s <> [].
Proof.
  destruct s as [|c s]; simpl; [discriminate|].
  destruct (Ascii.eqb c sep); [discriminate|].
  destruct (PyStr.split sep s); discriminate.
Qed.

Lemma total_lines_pos (content : string) : 1 <= total_lines (file_metrics content).
Proof.
  simpl. unfold metric_lines.
  pose proof (split_not_nil PyStr.LF (PyStr.strip content)) as H.
  destruct (PyStr.split PyStr.LF (PyStr.strip content)); [contradiction|simpl; lia].
Qed.

(** ** Rounding *)

Lemma round_half_even_bounds (q : Q) (lo hi : Z) :
  (inject_Z lo <= q)%Q -> (q <= inject_Z hi)%Q ->
  (lo <= round_half_even q <= hi)%Z.
Proof.
  intros Hlo Hhi.
  assert (Hf1 : (lo <= Qfloor q)%Z).
  { rewrite <- (Qfloor_Z lo). now apply Qfloor_resp_le. }
  assert (Hf2 : (Qfloor q <= hi)%Z).
  { rewrite <- (Qfloor_Z hi). now apply Qfloor_resp_le. }
  assert (Hup : (inject_Z (Qfloor q) < q)%Q -> (Qfloor q + 1 <= hi)%Z).
  { intros Hlt.
    assert (Hlt' : (inject_Z (Qfloor q) < inject_Z hi)%Q)
      by (eapply Qlt_le_trans; eauto).
    rewrite <- Zlt_Qlt in Hlt'. lia. }
  assert (Hfrac : ~ (q - inject_Z (Qfloor q) < 1 # 2)%Q ->
                  (inject_Z (Qfloor q) < q)%Q).
  { intros Hnlt. apply Qnot_lt_le in Hnlt.
    apply (Qplus_lt_l _ _ (- inject_Z (Qfloor q))).
    rewrite Qplus_opp_r.
    eapply Qlt_le_trans; [|exact Hnlt]. reflexivity. }
  unfold round_half_even.
  destruct (Qcompare (q - inject_Z (Qfloor q)) (1 # 2)) eqn:Hc.
  - destruct (Z.even (Qfloor q)); [lia|].
    split; [lia|]. apply Hup, Hfrac. intros Hlt.
    rewrite Qlt_alt in Hlt. rewrite Hc in Hlt. discriminate.
  - lia.
  - split; [lia|]. apply Hup, Hfrac. intros Hlt.
    rewrite Qlt_alt in Hlt. rewrite Hc in Hlt. discriminate.
Qed.

Lemma round2_bounds (q : Q) :
  (0 <= q)%Q -> (q <= 100)%Q -> (0 <= round2 q)%Q /\ (round2 q <= 100)%Q.
Proof.
  intros H0 H100.
  assert (Hb : (0 <= round_half_even (q * 100) <= 10000)%Z).
  { apply round_half_even_bounds.
    - change (inject_Z 0) with (0 * 100)%Q. apply Qmult_le_compat_r; [exact H0|discriminate].
    - change (inject_Z 10000) with (100 * 100)%Q.
      apply Qmult_le_compat_r; [exact H100|discriminate]. }
  unfold round2. rewrite Qred_correct.
  unfold Qle; simpl. lia.
Qed.

Lemma round2_zero : (round2 0 == 0)%Q.
Proof. reflexivity. Qed.

Lemma two_pos (e : Z) : (0 < 2 ^ e)%Q.
Proof. apply Qpower_0_lt. reflexivity. Qed.

Lemma ilog2_le (q : Q) : (0 < q)%Q -> (2 ^ ilog2 q <= q)%Q.
Proof.
  intros Hq. unfold ilog2.
  destruct (Qle_bool (2 ^ (Z.log2 (Qnum q) - Z.log2 (Z.pos (Qden q)))) q) eqn:Hb.
  - now apply Qle_bool_iff.
  - clear Hb. destruct q as [n d]. cbn [Qnum Qden].
    assert (Hn : (0 < n)%Z).
    { unfold Qlt in Hq. cbn in Hq. lia. }
    pose proof (Z.log2_spec n Hn) as [Hn1 _].
    pose proof (Z.log2_spec (Z.pos d) (Pos2Z.is_pos d)) as [_ Hd2].
    pose proof (Z.log2_nonneg n) as Ha.
    pose proof (Z.log2_nonneg (Z.pos d)) as Hb.
    set (a := Z.log2 n) in *. set (b := Z.log2 (Z.pos d)) in *.
    replace (a - b - 1)%Z with (a + - (b + 1))%Z by ring.
    rewrite Qpower_plus by discriminate. rewrite Qpower_opp.
    rewrite <- (Zpower_Qpower 2 a) by exact Ha.
    rewrite <- (Zpower_Qpower 2 (b + 1)) by lia.
    assert (Hp : (0 < 2 ^ (b + 1))%Z) by (apply Z.pow_pos_nonneg; lia).
    change (inject_Z (2 ^ a) / inject_Z (2 ^ (b + 1)) <= n # d)%Q.
    apply Qle_shift_div_r; [rewrite <- (Zlt_Qlt 0); exact Hp|].
    unfold Qle, Qmult, inject_Z. cbn [Qnum Qden].
    rewrite Z.mul_1_r, Pos.mul_1_r.
    replace (b + 1)%Z with (Z.succ b) by lia.
    apply Z.le_trans with (n * Z.pos d)%Z; [nia|nia].
Qed.

Lemma binary64_nonneg (q : Q) : (0 <= binary64 q)%Q.
Proof.
  unfold binary64. destruct (Qcompare q 0) eqn:Hc; try apply Qle_refl.
  rewrite <- Qgt_alt in Hc.
  set (e := Z.max (ilog2 q - 52) (-1074)).
  apply Qmult_le_0_compat; [|apply Qlt_le_weak, two_pos].
  rewrite <- (Zle_Qle 0).
  apply (@round_half_even_bounds (q / 2 ^ e) 0 (Qceiling (q / 2 ^ e))).
  - apply Qle_shift_div_l; [apply two_pos|].
    rewrite Qmult_0_l. now apply Qlt_le_weak.
  - apply Qle_ceiling.
Qed.

(** Rounding to binary64 does not pass a binary64 number: a number that is
    at most [m * 2 ^ k], for [m] of at most 53 bits, rounds to at most that. *)
Lemma binary64_le (q : Q) (m k : Z) :
  (0 < m < 2 ^ 53)%Z -> (-1074 <= k)%Z ->
  (q <= inject_Z m * 2 ^ k)%Q ->
  (binary64 q <= inject_Z m * 2 ^ k)%Q.
Proof.
  intros [Hm0 Hm] Hk Hq.
  assert (Hbound : (0 <= inject_Z m * 2 ^ k)%Q).
  { apply Qmult_le_0_compat; [rewrite <- (Zle_Qle 0); lia|].
    apply Qlt_le_weak, two_pos. }
  unfold binary64. destruct (Qcompare q 0) eqn:Hc; try exact Hbound.
  rewrite <- Qgt_alt in Hc.
  set (e := Z.max (ilog2 q - 52) (-1074)).
  assert (He : (e <= k)%Z).
  { assert (Hlt : (2 ^ ilog2 q < 2 ^ (53 + k))%Q).
    { eapply Qle_lt_trans; [apply ilog2_le, Hc|].
      eapply Qle_lt_trans; [exact Hq|].
      rewrite Qpower_plus by discriminate.
      apply Qmult_lt_compat_r; [apply two_pos|].
      rewrite <- (Zpower_Qpower 2 53) by lia. now rewrite <- Zlt_Qlt. }
    apply Qpower_lt_compat_l_inv in Hlt; [|reflexivity]. lia. }
  assert (Hsplit : (2 ^ k == inject_Z (2 ^ (k - e)) * 2 ^ e)%Q).
  { rewrite (Zpower_Qpower 2 (k - e)) by lia.
    rewrite <- Qpower_plus by discriminate.
    now replace (k - e + e)%Z with k by ring. }
  assert (Hround : (round_half_even (q / 2 ^ e) <= m * 2 ^ (k - e))%Z).
  { apply (@round_half_even_bounds (q / 2 ^ e) (Qfloor (q / 2 ^ e)) (m * 2 ^ (k - e))).
    - apply Qfloor_le.
    - apply Qle_shift_div_r; [apply two_pos|].
      rewrite inject_Z_mult, <- Qmult_assoc, <- Hsplit. exact Hq. }
  rewrite Hsplit, Qmult_assoc, <- inject_Z_mult.
  apply Qmult_le_compat_r; [|apply Qlt_le_weak, two_pos].
  now rewrite <- Zle_Qle.
Qed.

Lemma raw_ratio_bounds (comment total : nat) :
  comment <= total -> 0 < total ->
  (0 <= raw_ratio comment total)%Q /\ (raw_ratio comment total <= 100)%Q.
Proof.
  intros Hle Hpos. unfold raw_ratio, float_mul, int_truediv.
  split; [apply binary64_nonneg|].
  assert (Ht : (0 < nat_Q total)%Q).
  { unfold nat_Q. rewrite <- (Zlt_Qlt 0). lia. }
  assert (Hct : (nat_Q comment <= nat_Q total)%Q).
  { unfold nat_Q. rewrite <- Zle_Qle. lia. }
  assert (Hquot : (binary64 (nat_Q comment / nat_Q total) <= 1)%Q).
  { change 1%Q with (inject_Z 1 * 2 ^ 0)%Q. apply binary64_le; try lia.
    change (inject_Z 1 * 2 ^ 0)%Q with 1%Q.
    apply Qle_shift_div_r; [exact Ht|]. now rewrite Qmult_1_l. }
  change 100%Q with (inject_Z 100 * 2 ^ 0)%Q at 2. apply binary64_le; try lia.
  change (inject_Z 100 * 2 ^ 0)%Q with (1 * 100)%Q.
  apply Qmult_le_compat_r; [exact Hquot|discriminate].
Qed.

Lemma raw_ratio_zero (total : nat) : raw_ratio 0 total = 0%Q.
Proof.
  unfold raw_ratio, float_mul, int_truediv, nat_Q.
  change (inject_Z (Z.of_nat 0)) with 0%Q.
  assert (Hq : binary64 (0 / inject_Z (Z.of_nat total)) = 0%Q).
  { unfold binary64.
    destruct (Qcompare (0 / inject_Z (Z.of_nat total)) 0) eqn:Hc; try reflexivity.
    rewrite <- Qgt_alt in Hc. exfalso.
    apply (Qlt_irrefl 0). eapply Qlt_le_trans; [exact Hc|].
    unfold Qdiv. rewrite Qmult_0_l. apply Qle_refl. }
  rewrite Hq. reflexivity.
Qed.

Lemma round2_proper (p q : Q) : (p == q)%Q -> round2 p = round2 q.
Proof.
  intros Heq. unfold round2, round_half_even.
  assert (H100 : (p * 100 == q * 100)%Q) by now rewrite Heq.
  assert (Hfl : Qfloor (p * 100) = Qfloor (q * 100)) by now apply Qfloor_comp.
  rewrite Hfl.
  assert (Hcmp : Qcompare (p * 100 - inject_Z (Qfloor (q * 100))) (1 # 2)
                 = Qcompare (q * 100 - inject_Z (Qfloor (q * 100))) (1 # 2)).
  { apply Qcompare_comp; [now rewrite H100|reflexivity]. }
  now rewrite Hcmp.
Qed.

Lemma comment_ratio_unguarded (content : string) :
  comment_ratio (file_metrics content)
  = round2 (raw_ratio (comment_lines (file_metrics content))
                      (total_lines (file_metrics content))).
Proof.
  pose proof (total_lines_pos content) as Hpos.
  simpl in *.
  destruct (List.length (metric_lines content)) as [|n] eqn:Hlen; [lia|].
  reflexivity.
Qed.

Lemma comment_le_total (content : string) :
  comment_lines (file_metrics content) <= total_lines (file_metrics content).
Proof. simpl. apply filter_length_le. Qed.

(** ** MetricsCalculator: the claims *)

Lemma sample_files_NoDup : NoDup (PyDict.keys sample_files).
Proof. repeat constructor; simpl; intuition discriminate. Qed.

(** C6, as the code has it.  Every file of the FileSet has its metrics, and
    in them [total_lines] is the sum of [code_lines], [comment_lines] and the
    number of lines that are blank once trimmed, among the lines the
    calculator counts: the newline-separated pieces of the content stripped
    of the whitespace at its two ends.  Blank lines before the first and
    after the last line that is not blank are not among them. *)
Theorem total_lines_is_code_comment_blank (files : FileSet) (filename content : string) :
  NoDup (PyDict.keys files) -> In (filename, content) files ->
  exists m,
    PyDict.get filename (calculate_code_metrics files) = Some m
    /\ total_lines m
       = code_lines m + comment_lines m
         + List.length (filter is_blank_line (metric_lines content)).
Proof.
  intros Hnd Hin. exists (file_metrics content). split.
  - now apply calculate_code_metrics_get.
  - simpl. apply lines_partition.
Qed.

Lemma total_lines_is_code_comment_blank_witness :
  exists m,
    PyDict.get "a.py" (calculate_code_metrics sample_files) = Some m
    /\ total_lines m
       = code_lines m + comment_lines m
         + List.length (filter is_blank_line (metric_lines sample_py)).
Proof.
  apply (@total_lines_is_code_comment_blank sample_files "a.py" sample_py).
  - exact sample_files_NoDup.
  - simpl. now left.
Defined.

(** C6 as stated fails: in a file of one code line followed by two
    newlines, two of the file's lines are blank, and [total_lines] is 1. *)
Lemma trailing_blank_lines_not_counted :
  exists m,
    PyDict.get "a.py" (calculate_code_metrics [("a.py", trailing_blank_py)]) = Some m
    /\ List.length (filter is_blank_line (spec_lines trailing_blank_py)) = 2
    /\ total_lines m
       <> code_lines m + comment_lines m
          + List.length (filter is_blank_line (spec_lines trailing_blank_py)).
Proof.
  eexists. split; [reflexivity|]. split; [reflexivity|]. vm_compute. discriminate.
Qed.

(** C7, as the code has it.  For every file of the FileSet the ratio lies
    in [0, 100]; [total_lines] is never 0, and the ratio is 0 whenever there
    is no comment line. *)
Theorem comment_ratio_range (files : FileSet) (filename content : string) :
  NoDup (PyDict.keys files) -> In (filename, content) files ->
  exists m,
    PyDict.get filename (calculate_code_metrics files) = Some m
    /\ (0 <= comment_ratio m)%Q /\ (comment_ratio m <= 100)%Q
    /\ total_lines m <> 0
    /\ (comment_lines m = 0 -> (comment_ratio m == 0)%Q).
Proof.
  intros Hnd Hin. exists (file_metrics content).
  pose proof (total_lines_pos content) as Hpos.
  pose proof (comment_le_total content) as Hle.
  pose proof (comment_ratio_unguarded content) as Hr.
  destruct (raw_ratio_bounds Hle) as [Hlo Hhi]; [lia|].
  split; [now apply calculate_code_metrics_get|].
  rewrite Hr.
  destruct (round2_bounds Hlo Hhi) as [H0 H100].
  repeat split; try assumption.
  - lia.
  - intros Hc. rewrite Hc, raw_ratio_zero. apply round2_zero.
Qed.

Lemma comment_ratio_range_witness :
  exists m,
    PyDict.get "a.py" (calculate_code_metrics sample_files) = Some m
    /\ (0 <= comment_ratio m)%Q /\ (comment_ratio m <= 100)%Q
    /\ total_lines m <> 0
    /\ (comment_lines m = 0 -> (comment_ratio m == 0)%Q).
Proof.
  apply (@comment_ratio_range sample_files "a.py" sample_py).
  - exact sample_files_NoDup.
  - simpl. now left.
Defined.

(** C7 as stated fails: a file of one code line has ratio 0 and one line. *)
Lemma comment_ratio_zero_with_lines :
  exists m,
    PyDict.get "a.py" (calculate_code_metrics [("a.py", "x = 1")]) = Some m
    /\ (comment_ratio m == 0)%Q /\ total_lines m = 1.
Proof.
  eexists. split; [reflexivity|]. split; reflexivity.
Qed.

(** C10.  For every file of the FileSet, whatever its content,
    [total_lines] is at least 1, and the ratio is the rounded quotient: the
    alternative for [total_lines = 0] is never chosen. *)
Theorem total_lines_at_least_one (files : FileSet) (filename content : string) :
  NoDup (PyDict.keys files) -> In (filename, content) files ->
  exists m,
    PyDict.get filename (calculate_code_metrics files) = Some m
    /\ 1 <= total_lines m
    /\ (0 <? total_lines m) = true
    /\ comment_ratio m = round2 (raw_ratio (comment_lines m) (total_lines m)).
Proof.
  intros Hnd Hin. exists (file_metrics content).
  pose proof (total_lines_pos content) as Hpos.
  split; [now apply calculate_code_metrics_get|].
  split; [exact Hpos|]. split.
  - apply Nat.ltb_lt. lia.
  - apply comment_ratio_unguarded.
Qed.

Lemma total_lines_at_least_one_witness :
  exists m,
    PyDict.get "b.py" (calculate_code_metrics sample_files) = Some m
    /\ 1 <= total_lines m
    /\ (0 <? total_lines m) = true
    /\ comment_ratio m = round2 (raw_ratio (comment_lines m) (total_lines m)).
Proof.
  apply (@total_lines_at_least_one sample_files "b.py" EmptyString).
  - exact sample_files_NoDup.
  - simpl. right. now left.
Defined.

(** ** PromptBuilder *)

Lemma take_drop (n : nat) (s : string) : (PyStr.take n s ++ PyStr.drop n s)%string = s.
Proof.
  revert s. induction n as [|n IH]; intros [|c s]; simpl; try reflexivity.
  now rewrite IH.
Qed.

Lemma take_length (n : nat) (s : string) :
  n <= String.length s -> String.length (PyStr.take n s) = n.
Proof.
  revert s. induction n as [|n IH]; intros [|c s]; simpl; intros H; try lia.
  rewrite IH; lia.
Qed.

Lemma take_all (n : nat) (s : string) : String.length s <= n -> PyStr.take n s = s.
Proof.
  revert s. induction n as [|n IH]; intros [|c s]; simpl; intros H;
    try reflexivity; try lia.
  rewrite IH; [reflexivity|lia].
Qed.

Lemma take_app (n : nat) (s t : string) :
  n <= String.length s -> PyStr.take n (s ++ t)%string = PyStr.take n s.
Proof.
  revert s. induction n as [|n IH]; intros [|c s]; simpl; intros H;
    try reflexivity; try lia.
  rewrite IH; [reflexivity|lia].
Qed.

Lemma length_append (s t : string) :
  String.length (s ++ t)%string = String.length s + String.length t.
Proof. induction s as [|c s IH]; simpl; [reflexivity|now rewrite IH]. Qed.

Lemma append_assoc (s t u : string) : ((s ++ t) ++ u = s ++ (t ++ u))%string.
Proof. induction s as [|c s IH]; simpl; [reflexivity|now rewrite IH]. Qed.

Lemma append_nil_r (s : string) : (s ++ EmptyString)%string = s.
Proof. induction s as [|c s IH]; simpl; [reflexivity|now rewrite IH]. Qed.

Lemma prompt_parts_loop (files : FileSet) (parts : list string) :
  fold_left (fun parts '(filename, content) =>
               parts ++ [file_section filename content])
            files parts
  = parts ++ map (fun item => file_section (fst item) (snd item)) files.
Proof.
  revert parts. induction files as [|[fn c] files IH]; simpl; intros parts.
  - now rewrite app_nil_r.
  - rewrite IH. now rewrite <- app_assoc.
Qed.

Lemma file_section_shape (filename content : string) :
  file_section filename content
  = (section_header filename ++ truncate_content content ++ section_footer)%string.
Proof.
  unfold file_section, section_header, section_footer.
  now rewrite !append_assoc.
Qed.

Lemma truncate_long (content : string) :
  max_chars < String.length content ->
  truncate_content content = (PyStr.take max_chars content ++ truncation_marker)%string.
Proof.
  intros H. unfold truncate_content.
  apply Nat.ltb_lt in H. now rewrite H.
Qed.

Lemma truncate_short (content : string) :
  String.length content <= max_chars -> truncate_content content = content.
Proof.
  intros H. unfold truncate_content.
  apply Nat.ltb_ge in H. now rewrite H.
Qed.

(** C4.  The prompt is the sections of the files in order, and the section
    of a file holds, between its begin and end markers, the first
    [max_chars] characters of a longer content followed by the truncation
    marker, whatever comes after those characters, and a content of at most
    [max_chars] characters unchanged. *)
Theorem prompt_section_truncates (files : FileSet) (filename content : string) :
  In (filename, content) files ->
  _build_prompt_from_files files
  = PyStr.join nl (map (fun item => file_section (fst item) (snd item)) files)
  /\ In (file_section filename content) (prompt_parts files)
  /\ (max_chars < String.length content ->
      file_section filename content
      = (section_header filename
         ++ (PyStr.take max_chars content ++ truncation_marker)
         ++ section_footer)%string
      /\ String.length (PyStr.take max_chars content) = max_chars
      /\ content = (PyStr.take max_chars content ++ PyStr.drop max_chars content)%string
      /\ forall tail : string,
           file_section filename (PyStr.take max_chars content ++ String "x" tail)
           = file_section filename content)
  /\ (String.length content <= max_chars ->
      file_section filename content
      = (section_header filename ++ content ++ section_footer)%string).
Proof.
  intros Hin.
  assert (Hparts : prompt_parts files
                   = map (fun item => file_section (fst item) (snd item)) files).
  { unfold prompt_parts. now rewrite prompt_parts_loop. }
  split; [unfold _build_prompt_from_files; now rewrite Hparts|].
  split.
  { rewrite Hparts.
    change (file_section filename content)
      with ((fun item => file_section (fst item) (snd item)) (filename, content)).
    now apply in_map. }
  split.
  - intros Hlong.
    assert (Hlen : String.length (PyStr.take max_chars content) = max_chars)
      by (apply take_length; lia).
    split; [rewrite file_section_shape; now rewrite truncate_long|].
    split; [exact Hlen|].
    split; [now rewrite take_drop|].
    intros tail. rewrite !file_section_shape.
    rewrite (truncate_long content Hlong), truncate_long.
    + rewrite take_app; [|rewrite Hlen; apply Nat.le_refl]. rewrite take_all; [reflexivity|]. rewrite Hlen. apply Nat.le_refl.
    + rewrite length_append, Hlen. cbn [String.length]. apply Nat.lt_add_pos_r, Nat.lt_0_succ.
  - intros Hshort. rewrite file_section_shape. now rewrite truncate_short.
Qed.

Lemma long_content_length : max_chars < String.length long_content.
Proof. apply Nat.ltb_lt. vm_compute. reflexivity. Qed.

Lemma prompt_section_truncates_witness :
  file_section "big.py" long_content
  = (section_header "big.py"
     ++ (PyStr.take max_chars long_content ++ truncation_marker)
     ++ section_footer)%string
  /\ file_section "a.py" sample_py
     = (section_header "a.py" ++ sample_py ++ section_footer)%string.
Proof.
  pose proof (@prompt_section_truncates [("big.py", long_content)] "big.py"
                long_content (or_introl eq_refl)) as Hbig.
  pose proof (@prompt_section_truncates sample_files "a.py" sample_py
                (or_introl eq_refl)) as Hsmall.
  destruct Hbig as (_ & _ & Hlong & _).
  destruct Hsmall as (_ & _ & _ & Hshort).
  split.
  - exact (proj1 (Hlong long_content_length)).
  - apply Hshort. apply Nat.leb_le. vm_compute. reflexivity.
Defined.

(** ** Stripping *)

Lemma lstrip_spec (s : string) :
  exists pre, s = (pre ++ PyStr.lstrip s)%string /\ all_space pre = true
              /\ starts_with_space (PyStr.lstrip s) = false.
Proof.
  induction s as [|c s (pre & Heq & Hsp & Hst)]; simpl.
  - exists EmptyString. auto.
  - destruct (PyStr.isspace c) eqn:Hc.
    + exists (String c pre). simpl. rewrite Hc, Hsp. split; [congruence|auto].
    + exists EmptyString. simpl. auto.
Qed.

Lemma rstrip_spec (s : string) :
  exists suf, s = (PyStr.rstrip s ++ suf)%string /\ all_space suf = true
              /\ ends_with_space (PyStr.rstrip s) = false.
Proof.
  induction s as [|c s (suf & Heq & Hsp & Hend)]; simpl.
  - exists EmptyString. auto.
  - destruct (PyStr.rstrip s) as [|c' r] eqn:Hr.
    + destruct (PyStr.isspace c) eqn:Hc.
      * exists (String c suf). simpl in *. rewrite Hc, Hsp. split; [congruence|auto].
      * exists suf. simpl in *. rewrite Hc. split; [congruence|auto].
    + exists suf. split; [simpl in *; congruence|]. split; [exact Hsp|].
      exact Hend.
Qed.

Lemma rstrip_starts (s : string) :
  starts_with_space s = false -> starts_with_space (PyStr.rstrip s) = false.
Proof.
  destruct s as [|c s]; simpl; [auto|]. intros Hc.
  destruct (PyStr.rstrip s); [rewrite Hc|]; simpl; auto.
Qed.

Lemma strip_spec (text : string) :
  exists pre suf,
    text = (pre ++ PyStr.strip text ++ suf)%string
    /\ all_space pre = true /\ all_space suf = true
    /\ starts_with_space (PyStr.strip text) = false
    /\ ends_with_space (PyStr.strip text) = false.
Proof.
  destruct (lstrip_spec text) as (pre & Hpre & Hsp & Hst).
  destruct (rstrip_spec (PyStr.lstrip text)) as (suf & Hsuf & Hsp' & Hend).
  exists pre, suf. unfold PyStr.strip.
  split; [now rewrite <- Hsuf|].
  repeat split; auto. now apply rstrip_starts.
Qed.

Lemma lstrip_id (s : string) : starts_with_space s = false -> PyStr.lstrip s = s.
Proof. destruct s as [|c s]; simpl; [auto|]. now intros ->. Qed.

Lemma rstrip_id (s : string) : ends_with_space s = false -> PyStr.rstrip s = s.
Proof.
  induction s as [|c s IH]; simpl; [auto|].
  destruct s as [|c' s'].
  - simpl. now intros ->.
  - intros H. rewrite IH by exact H. reflexivity.
Qed.

Lemma strip_id (text : string) :
  starts_with_space text = false -> ends_with_space text = false ->
  PyStr.strip text = text.
Proof.
  intros Hs He. unfold PyStr.strip. rewrite lstrip_id by exact Hs.
  now apply rstrip_id.
Qed.

(** ** Lines *)

Lemma splitlines_line (l rest : string) :
  no_linebreak l = true ->
  PyStr.splitlines (l ++ String PyStr.LF rest)%string = l :: PyStr.splitlines rest.
Proof.
  induction l as [|c l IH]; intros Hl.
  - cbn [append PyStr.splitlines].
    change (PyStr.is_linebreak PyStr.LF) with true. cbv iota.
    destruct rest; reflexivity.
  - simpl in Hl. apply andb_prop in Hl as [Hc Hl].
    apply negb_true_iff in Hc.
    cbn [append PyStr.splitlines]. rewrite Hc. now rewrite (IH Hl).
Qed.

Lemma splitlines_single (l : string) :
  no_linebreak l = true -> l <> EmptyString -> PyStr.splitlines l = [l].
Proof.
  induction l as [|c l IH]; intros Hl Hne; [contradiction|].
  simpl in Hl. apply andb_prop in Hl as [Hc Hl].
  apply negb_true_iff in Hc.
  cbn [PyStr.splitlines]. rewrite Hc.
  destruct l as [|c' l']; [reflexivity|].
  rewrite IH; [reflexivity|exact Hl|discriminate].
Qed.

Lemma join_cons2 (sep l l2 : string) (rest : list string) :
  PyStr.join sep (l :: l2 :: rest) = (l ++ sep ++ PyStr.join sep (l2 :: rest))%string.
Proof. reflexivity. Qed.

Lemma ends_with_space_app (s t : string) :
  t <> EmptyString -> ends_with_space (s ++ t)%string = ends_with_space t.
Proof.
  intros Ht. induction s as [|c s IH]; [reflexivity|].
  cbn [append]. destruct (s ++ t)%string eqn:Hst.
  - destruct s; simpl in Hst; [contradiction|discriminate].
  - cbn [ends_with_space]. exact IH.
Qed.

Lemma splitlines_join (lines : list string) :
  Forall (fun l => no_linebreak l = true) lines ->
  ends_with_space (PyStr.join nl lines) = false ->
  PyStr.join nl lines <> EmptyString ->
  PyStr.splitlines (PyStr.join nl lines) = lines.
Proof.
  induction lines as [|l lines IH]; intros Hall Hend Hne.
  - now contradiction Hne.
  - inversion Hall as [|? ? Hl Hall']; subst.
    destruct lines as [|l2 rest].
    + simpl in *. now apply splitlines_single.
    + rewrite join_cons2 in *. unfold nl in *. cbn [append] in *.
      rewrite splitlines_line by exact Hl.
      assert (Hrest : PyStr.join (String PyStr.LF EmptyString) (l2 :: rest) <> EmptyString).
      { intros Hempty. rewrite Hempty in Hend.
        rewrite ends_with_space_app in Hend by discriminate.
        discriminate Hend. }
      f_equal. apply IH; [exact Hall'| |exact Hrest].
      rewrite ends_with_space_app in Hend by discriminate.
      destruct (PyStr.join (String PyStr.LF EmptyString) (l2 :: rest));
        [contradiction|exact Hend].
Qed.

Lemma summary_of_lines (text : string) (lines : list string) :
  Forall (fun l => no_linebreak l = true) lines ->
  PyStr.strip text = PyStr.join nl lines ->
  PyStr.join nl (firstn 5 (PyStr.splitlines (PyStr.strip text)))
  = PyStr.join nl (firstn 5 lines).
Proof.
  intros Hall Heq.
  destruct (strip_spec text) as (_ & _ & _ & _ & _ & Hend).
  rewrite Heq in *.
  destruct (PyStr.join nl lines) as [|c s] eqn:Hj.
  - destruct lines as [|l [|l2 rest]]; [reflexivity| |].
    + simpl in Hj. subst l. reflexivity.
    + rewrite join_cons2 in Hj. destruct l; discriminate.
  - rewrite <- Hj. rewrite splitlines_join; [reflexivity|exact Hall| |].
    + now rewrite Hj.
    + rewrite Hj. discriminate.
Qed.

(** ** The monad of the pipeline *)

Lemma bind_returns (A B : Type) (c : Net A) (f : A -> Net B)
  (log log' : list Request) (b : B) :
  bind c f log = (log', inr b) ->
  exists a log1, c log = (log1, inr a) /\ f a log1 = (log', inr b).
Proof.
  unfold bind. destruct (c log) as [log1 [e|a]]; intros H.
  - discriminate.
  - now exists a, log1.
Qed.

Lemma quiet_ret (A : Type) (a : A) : quiet (ret a).
Proof. intros log. exists (inr a). split; [reflexivity|discriminate]. Qed.

Lemma quiet_raise_lib (A : Type) (e : lib_exn) : quiet (@raise A (Lib e)).
Proof. intros log. exists (inl (Lib e)). split; [reflexivity|discriminate]. Qed.

Lemma quiet_lift (A : Type) (r : lib_exn + A) : quiet (lift r).
Proof. destruct r; [apply quiet_raise_lib|apply quiet_ret]. Qed.

Lemma quiet_bind (A B : Type) (c : Net A) (f : A -> Net B) :
  quiet c -> (forall a, quiet (f a)) -> quiet (bind c f).
Proof.
  intros Hc Hf log. destruct (Hc log) as (out & Hout & Hne).
  unfold bind. rewrite Hout. destruct out as [e|a].
  - exists (inl e). split; [reflexivity|].
    intros msg Heq. apply (Hne msg). congruence.
  - apply Hf.
Qed.

Create HintDb quiet.

#[local] Hint Resolve quiet_ret quiet_raise_lib quiet_lift quiet_bind : quiet.

Lemma quiet_raise_for_status (r : Response) : quiet (raise_for_status r).
Proof. unfold raise_for_status. destruct (_ && _)%bool; auto with quiet. Qed.

Lemma quiet_response_json (r : Response) : quiet (response_json r).
Proof. unfold response_json. destruct (body r); auto with quiet. Qed.

Lemma quiet_normalize (json_loads : string -> option pyval) (content : pyval)
  (metrics : PyDict.dict FileMetrics) :
  quiet (normalize json_loads content metrics).
Proof.
  unfold normalize. destruct content; auto with quiet.
  destruct (json_loads s) as [[]|]; auto with quiet.
Qed.

#[local] Hint Resolve quiet_raise_for_status quiet_response_json quiet_normalize : quiet.

(** ** ResponseNormalizer *)

Lemma normalize_metrics (json_loads : string -> option pyval) (content : pyval)
  (metrics0 : PyDict.dict FileMetrics) (log log' : list Request) (r : ReviewResult) :
  normalize json_loads content metrics0 log = (log', inr r) -> metrics r = metrics0.
Proof.
  unfold normalize. destruct content; try discriminate.
  destruct (json_loads s) as [[]|]; unfold ret; intros H; inversion H; reflexivity.
Qed.

Lemma normalize_text_returns (json_loads : string -> option pyval) (text : string)
  (metrics0 : PyDict.dict FileMetrics) (log : list Request) :
  exists r, normalize json_loads (PStr text) metrics0 log = (log, inr r).
Proof.
  unfold normalize. destruct (json_loads text) as [[]|]; eexists; reflexivity.
Qed.

Lemma normalize_fallback (json_loads : string -> option pyval) (text : string)
  (metrics0 : PyDict.dict FileMetrics) (log : list Request) :
  (forall parsed, json_loads text <> Some (PDict parsed)) ->
  normalize json_loads (PStr text) metrics0 log
  = (log, inr (set_metrics metrics0 (_fallback_parse text))).
Proof.
  intros Hno. unfold normalize.
  destruct (json_loads text) as [[]|] eqn:Hj; try reflexivity.
  now contradiction (Hno d).
Qed.

(** C2, as the code has it.  When the reply does not decode to a JSON
    object (the decoder fails, or gives a value that is no object), the
    normalizer returns the fallback: [details] is the reply without the
    whitespace at its two ends, [summary] the first 5 lines of that stripped
    text joined by newlines, [quality_score] 5.0, [issues] and [strengths]
    empty, [raw_response] the reply as it came, [metrics] the computed map.
    For a reply that neither begins nor ends with whitespace [details] is the
    reply itself. *)
Theorem fallback_on_undecodable_reply (json_loads : string -> option pyval)
  (text : string) (metrics0 : PyDict.dict FileMetrics) (log : list Request) :
  (forall parsed, json_loads text <> Some (PDict parsed)) ->
  exists r,
    normalize json_loads (PStr text) metrics0 log = (log, inr r)
    /\ details r = PStr (PyStr.strip text)
    /\ summary r = PStr (PyStr.join nl (firstn 5 (PyStr.splitlines (PyStr.strip text))))
    /\ quality_score r = PFloat 5
    /\ issues r = PList [] /\ strengths r = PList []
    /\ raw_response r = text
    /\ metrics r = metrics0
    /\ (exists pre suf,
          text = (pre ++ PyStr.strip text ++ suf)%string
          /\ all_space pre = true /\ all_space suf = true
          /\ starts_with_space (PyStr.strip text) = false
          /\ ends_with_space (PyStr.strip text) = false)
    /\ (forall lines,
          Forall (fun l => no_linebreak l = true) lines ->
          PyStr.strip text = PyStr.join nl lines ->
          summary r = PStr (PyStr.join nl (firstn 5 lines)))
    /\ (starts_with_space text = false -> ends_with_space text = false ->
        details r = PStr text).
Proof.
  intros Hno. exists (set_metrics metrics0 (_fallback_parse text)).
  split; [now apply normalize_fallback|].
  cbn [set_metrics _fallback_parse details summary quality_score issues strengths
       raw_response metrics].
  repeat (split; [reflexivity|]).
  split; [apply strip_spec|]. split.
  - intros lines Hall Heq. f_equal. now apply summary_of_lines.
  - intros Hs He. now rewrite strip_id.
Qed.

Lemma fallback_on_undecodable_reply_witness :
  exists r,
    normalize sample_json_loads (PStr prose_reply_text) [] [] = ([], inr r)
    /\ details r = PStr ("Overall fine." ++ nl ++ "One nit.")%string
    /\ summary r = PStr ("Overall fine." ++ nl ++ "One nit.")%string
    /\ quality_score r = PFloat 5
    /\ issues r = PList [] /\ strengths r = PList []
    /\ raw_response r = prose_reply_text.
Proof.
  destruct (@fallback_on_undecodable_reply sample_json_loads prose_reply_text [] [])
    as (r & Hrun & Hd & Hs & Hq & Hi & Hst & Hraw & _).
  - intros parsed. vm_compute. discriminate.
  - exists r. repeat split; assumption.
Defined.

(** C2 as stated fails: with whitespace at the ends of the reply, [details]
    is not the full raw text, and the blank first line of the raw text is no
    line of the summary. *)
Lemma fallback_details_not_raw_text :
  details (_fallback_parse prose_reply_text) <> PStr prose_reply_text
  /\ summary (_fallback_parse prose_reply_text)
     <> PStr (PyStr.join nl (firstn 5 (PyStr.splitlines prose_reply_text)))
  /\ details (_fallback_parse prose_reply_text)
     = PStr ("Overall fine." ++ nl ++ "One nit.")%string
  /\ summary (_fallback_parse prose_reply_text)
     = PStr ("Overall fine." ++ nl ++ "One nit.")%string.
Proof.
  split; [vm_compute; discriminate|].
  split; [vm_compute; discriminate|].
  split; reflexivity.
Qed.

(** ** ReviewOrchestrator *)

Section PipelineProperties.

Variable GROQ_API_KEY : option string.
Variable AI_MODEL : string.
Variable requests_post : Request -> lib_exn + Response.
Variable json_loads : string -> option pyval.
Variable str_nat : nat -> string.
Variable str_float : Q -> string.
Variable warning_sign : string.

Local Abbreviation run :=
  (run_review GROQ_API_KEY AI_MODEL requests_post json_loads
              str_nat str_float warning_sign).

Local Abbreviation request_of files :=
  (build_request GROQ_API_KEY AI_MODEL str_nat str_float warning_sign
     (calculate_code_metrics files) (scan_security_issues files)
     (_build_prompt_from_files files)).

Lemma run_without_key (files : FileSet) :
  key_missing GROQ_API_KEY = true ->
  run files = ([], inl (LLMConfigError config_error_message)).
Proof.
  intros Hk. unfold run_review, review_code_with_llm. now rewrite Hk.
Qed.

Lemma run_with_key (files : FileSet) :
  key_missing GROQ_API_KEY = false ->
  exists outcome,
    run files = ([request_of files], outcome)
    /\ forall msg, outcome <> inl (LLMConfigError msg).
Proof.
  intros Hk. unfold run_review, review_code_with_llm. rewrite Hk.
  cbv zeta.
  unfold bind at 1. unfold post at 1. cbn [app].
  destruct (requests_post (request_of files)) as [e|response].
  - exists (inl (Lib e)). split; [reflexivity|discriminate].
  - match goal with |- exists o, ?c ?l = _ /\ _ =>
      assert (Hq : quiet c) by (repeat (apply quiet_bind; [|intros ?]); auto with quiet)
    end.
    apply Hq.
Qed.

Lemma run_returns_metrics (files : FileSet) (log : list Request) (r : ReviewResult) :
  run files = (log, inr r) -> metrics r = calculate_code_metrics files.
Proof.
  unfold run_review, review_code_with_llm.
  destruct (key_missing GROQ_API_KEY); [discriminate|]. cbv zeta.
  intros H.
  repeat (apply bind_returns in H; destruct H as (? & ? & _ & H)).
  now apply normalize_metrics in H.
Qed.

Lemma run_on_text_reply (files : FileSet) (status : Z) (data : pyval) (text : string) :
  key_missing GROQ_API_KEY = false ->
  requests_post (request_of files) = inr (mkResponse status (Some data)) ->
  (status < 400 \/ 600 <= status)%Z ->
  completion_content data = inr (PStr text) ->
  exists r,
    run files = ([request_of files], inr r)
    /\ normalize json_loads (PStr text) (calculate_code_metrics files) [request_of files]
       = ([request_of files], inr r).
Proof.
  intros Hk Hpost Hstatus Hcontent.
  destruct (normalize_text_returns json_loads text (calculate_code_metrics files)
              [request_of files]) as (r & Hr).
  exists r. split; [|exact Hr].
  unfold run_review, review_code_with_llm. rewrite Hk.
  cbv zeta.
  unfold bind at 1. unfold post at 1. cbn [app]. rewrite Hpost.
  unfold bind at 1. unfold raise_for_status. cbn [status_code].
  replace ((400 <=? status)%Z && (status <? 600)%Z)%bool with false
    by (symmetry; apply andb_false_iff; lia).
  unfold ret at 1.
  unfold bind at 1. unfold response_json. cbn [body]. unfold ret at 1.
  unfold bind at 1. rewrite Hcontent. cbn [lift]. unfold ret at 1.
  exact Hr.
Qed.

(** C1.  A result of the pipeline carries the map of the metrics calculator,
    whose keys are the filenames of the FileSet in their order, whatever the
    decoded reply holds; and the pipeline does give a result whenever the
    endpoint answers with a completion text, be it a JSON object or not. *)
Theorem result_metrics_from_calculator (files : FileSet) :
  NoDup (PyDict.keys files) ->
  (forall log r,
      run files = (log, inr r) ->
      metrics r = calculate_code_metrics files
      /\ PyDict.keys (metrics r) = PyDict.keys files)
  /\ (forall text meta log,
        exists r,
          normalize json_loads (PStr text) meta log = (log, inr r)
          /\ metrics r = meta)
  /\ (forall status data text,
        key_missing GROQ_API_KEY = false ->
        requests_post (request_of files) = inr (mkResponse status (Some data)) ->
        (status < 400 \/ 600 <= status)%Z ->
        completion_content data = inr (PStr text) ->
        exists r,
          run files = ([request_of files], inr r)
          /\ metrics r = calculate_code_metrics files
          /\ PyDict.keys (metrics r) = PyDict.keys files).
Proof.
  intros Hnd.
  assert (Hkeys : forall log r, run files = (log, inr r) ->
                  metrics r = calculate_code_metrics files
                  /\ PyDict.keys (metrics r) = PyDict.keys files).
  { intros log r Hrun. apply run_returns_metrics in Hrun.
    split; [exact Hrun|]. rewrite Hrun. now apply calculate_code_metrics_keys. }
  split; [exact Hkeys|]. split.
  - intros text meta log.
    destruct (normalize_text_returns json_loads text meta log) as (r & Hr).
    exists r. split; [exact Hr|]. now apply normalize_metrics in Hr.
  - intros status data text Hk Hpost Hstatus Hcontent.
    destruct (@run_on_text_reply files status data text Hk Hpost Hstatus Hcontent)
      as (r & Hrun & _).
    exists r. split; [exact Hrun|]. now apply (Hkeys _ _ Hrun).
Qed.

(** C8.  Without a credential the call raises the configuration error and
    nothing has been sent; with a credential exactly one request is sent and
    the outcome, whatever it is, is no configuration error. *)
Theorem config_error_iff_no_credential (files : FileSet) :
  (key_missing GROQ_API_KEY = true ->
   run files = ([], inl (LLMConfigError config_error_message)))
  /\ (key_missing GROQ_API_KEY = false ->
      exists outcome,
        run files = ([request_of files], outcome)
        /\ forall msg, outcome <> inl (LLMConfigError msg)).
Proof.
  split; [apply run_without_key|apply run_with_key].
Qed.

End PipelineProperties.

Lemma result_metrics_from_calculator_witness :
  exists req r,
    run_review sample_key "llama" (sample_post (PStr json_reply_text))
               sample_json_loads sample_str_nat sample_str_float "!" sample_files
    = ([req], inr r)
    /\ metrics r = calculate_code_metrics sample_files
    /\ PyDict.keys (metrics r) = ["a.py"; "b.py"].
Proof.
  destruct (@result_metrics_from_calculator sample_key "llama"
              (sample_post (PStr json_reply_text)) sample_json_loads
              sample_str_nat sample_str_float "!" sample_files sample_files_NoDup)
    as (_ & _ & Hrun).
  destruct (Hrun 200%Z
              (PDict [("choices",
                       PList [PDict [("message",
                                      PDict [("content", PStr json_reply_text)])]])])
              json_reply_text eq_refl eq_refl (or_introl eq_refl) eq_refl)
    as (r & Hr & Hm & Hk).
  eexists. exists r. split; [exact Hr|]. split; [exact Hm|exact Hk].
Defined.

Lemma config_error_iff_no_credential_witness :
  run_review None "llama" (sample_post (PStr json_reply_text))
             sample_json_loads sample_str_nat sample_str_float "!" sample_files
  = ([], inl (LLMConfigError config_error_message))
  /\ exists req outcome,
       run_review sample_key "llama" (sample_post (PStr json_reply_text))
                  sample_json_loads sample_str_nat sample_str_float "!" sample_files
       = ([req], outcome)
       /\ forall msg, outcome <> inl (LLMConfigError msg).
Proof.
  split.
  - apply (@config_error_iff_no_credential None "llama"
             (sample_post (PStr json_reply_text)) sample_json_loads
             sample_str_nat sample_str_float "!" sample_files).
    reflexivity.
  - destruct (@config_error_iff_no_credential sample_key "llama"
                (sample_post (PStr json_reply_text)) sample_json_loads
                sample_str_nat sample_str_float "!" sample_files) as (_ & Hkey).
    destruct (Hkey eq_refl) as (outcome & Hrun & Hne).
    eexists. exists outcome. split; [exact Hrun|exact Hne].
Defined.

(** ** Typed issues *)

Section IssueProperties.

Variable validate_str : pyval -> option string.
Variable validate_int : pyval -> option Z.

Local Abbreviation init := (Issue_init validate_str validate_int).
Local Abbreviation models := (issue_models validate_str validate_int).

Lemma issue_models_skip (entry : pyval) (rest : list pyval) :
  is_dict entry = false -> models (entry :: rest) = models rest.
Proof. destruct entry; simpl; intros H; try reflexivity. discriminate. Qed.

Lemma issue_models_filter (issues : list pyval) :
  models issues = models (filter is_dict issues).
Proof.
  induction issues as [|v issues IH]; [reflexivity|].
  destruct v; simpl; try exact IH.
  destruct (init d); [|reflexivity]. now rewrite IH.
Qed.

Lemma issue_models_drop (before after : list pyval) (entry : pyval) :
  is_dict entry = false ->
  models (before ++ entry :: after) = models (before ++ after).
Proof.
  intros Hnd. rewrite (issue_models_filter (before ++ entry :: after)).
  rewrite (issue_models_filter (before ++ after)).
  rewrite !filter_app. cbn [filter]. now rewrite Hnd.
Qed.

Lemma issue_models_valid (issues : list pyval) :
  (forall d, In (PDict d) issues -> init d <> None) ->
  exists l, models issues = inr l
            /\ Forall2 (converts validate_str validate_int) (filter is_dict issues) l.
Proof.
  induction issues as [|v issues IH]; intros Hvalid.
  - exists []. split; [reflexivity|constructor].
  - destruct IH as (l & Hl & Hall).
    { intros d Hin. apply Hvalid. now right. }
    destruct v; try (exists l; split; [exact Hl|exact Hall]).
    simpl. destruct (init d) as [i|] eqn:Hi.
    + exists (i :: l). rewrite Hl. split; [reflexivity|].
      constructor; [|exact Hall]. now exists d.
    + exfalso. apply (Hvalid d); [now left|exact Hi].
Qed.

Lemma issue_models_invalid (before after : list pyval) (d : PyDict.dict pyval) :
  init d = None ->
  (forall d', In (PDict d') before -> init d' <> None) ->
  models (before ++ PDict d :: after) = inl ValidationError.
Proof.
  intros Hbad. induction before as [|v before IH]; intros Hvalid.
  - simpl. now rewrite Hbad.
  - assert (Hrest : models (before ++ PDict d :: after) = inl ValidationError).
    { apply IH. intros d' Hin. apply Hvalid. now right. }
    destruct v; simpl; try exact Hrest.
    destruct (init d0) eqn:Hd0.
    + now rewrite Hrest.
    + reflexivity.
Qed.

Lemma Issue_init_requires (k : string) (d : PyDict.dict pyval) :
  In k ["id"; "file"; "line_start"; "line_end"; "severity"; "category";
        "message"; "suggestion"] ->
  PyDict.get k d = None -> init d = None.
Proof.
  intros Hin Hget. unfold Issue_init, required, obind. cbn [In] in Hin.
  repeat (destruct Hin as [<-|Hin]; [rewrite ?Hget; init_none|]).
  contradiction.
Qed.

(** What the guard of the comprehension does skip: entries of the parsed
    list that are no mappings are dropped without an error and without
    effect on the other entries, and when every mapping of the list
    validates the conversion returns, in order, the issue of each mapping, in
    [review_code] and in [get_report] alike. *)
Lemma non_mapping_entries_dropped (issues : list pyval) :
  models issues = models (filter is_dict issues)
  /\ (forall before entry after,
        issues = before ++ entry :: after -> is_dict entry = false ->
        models issues = models (before ++ after))
  /\ ((forall d, In (PDict d) issues -> init d <> None) ->
      exists l,
        models issues = inr l
        /\ get_report_issues validate_str validate_int (PList issues) = l
        /\ Forall2 (converts validate_str validate_int) (filter is_dict issues) l).
Proof.
  split; [apply issue_models_filter|]. split.
  - intros before entry after -> Hnd. now apply issue_models_drop.
  - intros Hvalid. destruct (issue_models_valid issues Hvalid) as (l & Hl & Hall).
    exists l. split; [exact Hl|]. split; [|exact Hall].
    unfold get_report_issues. now rewrite Hl.
Qed.

End IssueProperties.

(** C3.  The code at the failing input, a list of a mapping that lacks
    required fields and a complete one: the guard lets the incomplete
    mapping through to the constructor, which raises.  In [review_code] the
    error escapes and no entry is converted; in [get_report], which catches
    it, the complete entry is lost as well.  The claim has the incomplete
    entry dropped and the complete one converted, as happens for the list
    without the incomplete entry. *)
Theorem incomplete_mapping_not_dropped :
  issue_models exact_str exact_int [partial_entry; complete_entry]
  = inl ValidationError
  /\ get_report_issues exact_str exact_int (PList [partial_entry; complete_entry]) = []
  /\ issue_models exact_str exact_int [complete_entry] = inr [complete_issue].
Proof. repeat split. Qed.

(** ** SecurityScanner: the order of the findings *)

Lemma fold_left_appends (A B : Type) (g : list B -> A -> list B) (f : A -> list B)
  (l : list A) (acc : list B) :
  (forall acc x, g acc x = acc ++ f x) ->
  fold_left g l acc = acc ++ flat_map f l.
Proof.
  intros Hg. revert acc. induction l as [|x l IH]; intros acc; simpl.
  - now rewrite app_nil_r.
  - rewrite IH, Hg. now rewrite app_assoc.
Qed.

Lemma scan_line_appends (filename : string) (line_num : nat) (line : string)
  (acc : list SecurityFinding) :
  scan_line filename line_num line acc = acc ++ line_findings filename line_num line.
Proof.
  unfold scan_line, line_findings.
  apply fold_left_appends. intros acc' [vuln_type regexes].
  unfold regex_findings. cbn [fst snd].
  apply fold_left_appends. intros acc'' regex.
  destruct (search regex line); [reflexivity|now rewrite app_nil_r].
Qed.

Lemma scan_file_appends (acc : list SecurityFinding) (item : string * string) :
  scan_file acc item = acc ++ file_findings item.
Proof.
  destruct item as [filename content]. unfold scan_file, file_findings.
  apply fold_left_appends. intros acc' [line_num line].
  apply scan_line_appends.
Qed.

Lemma scan_security_issues_flat_map (files : FileSet) :
  scan_security_issues files = flat_map file_findings files.
Proof.
  unfold scan_security_issues.
  rewrite (fold_left_appends scan_file file_findings files [] scan_file_appends).
  reflexivity.
Qed.

Lemma regex_findings_repeat (filename : string) (line_num : nat) (line : string)
  (vuln_type : string) (regexes : list regex) :
  regex_findings filename line_num line vuln_type regexes
  = repeat (mkFinding filename line_num (display_type vuln_type) (PyStr.strip line))
           (List.length (filter (fun regex => search regex line) regexes)).
Proof.
  unfold regex_findings. induction regexes as [|r regexes IH]; [reflexivity|].
  simpl. destruct (search r line); simpl; now rewrite IH.
Qed.

Lemma StronglySorted_app (A : Type) (R : A -> A -> Prop) (l1 l2 : list A) :
  StronglySorted R l1 -> StronglySorted R l2 ->
  (forall a b, In a l1 -> In b l2 -> R a b) ->
  StronglySorted R (l1 ++ l2).
Proof.
  intros H1 H2 Hcross. induction H1 as [|a l1 Hs IH Hall]; [exact H2|].
  simpl. constructor.
  - apply IH. intros x y Hx Hy. apply Hcross; [now right|exact Hy].
  - apply Forall_app. split; [exact Hall|].
    apply Forall_forall. intros y Hy. apply Hcross; [now left|exact Hy].
Qed.

Lemma StronglySorted_repeat (A : Type) (R : A -> A -> Prop) (a : A) (n : nat) :
  R a a -> StronglySorted R (repeat a n).
Proof.
  intros Haa. induction n as [|n IH]; simpl; constructor; [exact IH|].
  apply Forall_forall. intros y Hy. apply repeat_spec in Hy. now subst.
Qed.

Lemma line_findings_line (filename : string) (line_num : nat) (line : string)
  (f : SecurityFinding) :
  In f (line_findings filename line_num line) ->
  finding_line f = line_num /\ finding_file f = filename.
Proof.
  unfold line_findings. rewrite in_flat_map. intros ([vuln_type regexes] & _ & Hin).
  cbn [fst snd] in Hin. rewrite regex_findings_repeat in Hin.
  apply repeat_spec in Hin. now subst.
Qed.

Lemma line_findings_sorted (filename : string) (line_num : nat) (line : string) :
  StronglySorted finding_le (line_findings filename line_num line).
Proof.
  unfold line_findings, patterns. cbn [flat_map fst snd].
  rewrite !regex_findings_repeat. rewrite app_nil_r.
  repeat apply StronglySorted_app;
    try (apply StronglySorted_repeat; right; split; reflexivity);
    intros a b Ha Hb;
    repeat (apply in_app_or in Hb; destruct Hb as [Hb|Hb]);
    apply repeat_spec in Ha; apply repeat_spec in Hb; subst;
    right; split; try reflexivity; vm_compute; lia.
Qed.

Lemma numbered_findings_sorted (filename : string) (lines : list string) (start : nat) :
  StronglySorted finding_le
    (flat_map (fun numbered => line_findings filename (fst numbered) (snd numbered))
              (combine (seq start (List.length lines)) lines))
  /\ Forall (fun f => start <= finding_line f /\ finding_file f = filename)
       (flat_map (fun numbered => line_findings filename (fst numbered) (snd numbered))
                 (combine (seq start (List.length lines)) lines)).
Proof.
  revert start. induction lines as [|line lines IH]; intros start.
  - simpl. split; constructor.
  - destruct (IH (S start)) as [Hsorted Hall].
    cbn [List.length seq combine flat_map fst snd]. split.
    + apply StronglySorted_app; [apply line_findings_sorted|exact Hsorted|].
      intros a b Ha Hb. apply line_findings_line in Ha as [Ha _].
      rewrite Forall_forall in Hall. apply Hall in Hb as [Hb _].
      left. lia.
    + apply Forall_app. split.
      * apply Forall_forall. intros f Hf.
        apply line_findings_line in Hf as [Hl Hf]. split; [lia|exact Hf].
      * eapply Forall_impl; [|exact Hall]. intros f [Hl Hf]. split; [lia|exact Hf].
Qed.

(** C9.  The scanner returns the findings of the files in FileSet order;
    within a file they come by ascending line number and, on one line, by
    the declaration order of the categories; every matching regex adds its
    finding, equal findings included. *)
Theorem findings_in_scan_order (files : FileSet) :
  scan_security_issues files = flat_map file_findings files
  /\ (forall files', scan_security_issues (files ++ files')
                     = scan_security_issues files ++ scan_security_issues files')
  /\ (forall item,
        StronglySorted finding_le (file_findings item)
        /\ Forall (fun f => 1 <= finding_line f /\ finding_file f = fst item)
                  (file_findings item))
  /\ (forall filename line_num line vuln_type regexes,
        regex_findings filename line_num line vuln_type regexes
        = repeat (mkFinding filename line_num (display_type vuln_type)
                            (PyStr.strip line))
                 (List.length (filter (fun regex => search regex line) regexes))).
Proof.
  split; [apply scan_security_issues_flat_map|]. split.
  - intros files'. rewrite !scan_security_issues_flat_map. apply flat_map_app.
  - split.
    + intros [filename content]. apply numbered_findings_sorted.
    + apply regex_findings_repeat.
Qed.

(** Two regexes of one category matching one line give the same finding
    twice. *)
Lemma findings_not_deduplicated :
  scan_security_issues [("b.py", "x = 1"); ("a.py", "eval(exec(src))")]
  = [mkFinding "a.py" 1 "Unsafe Eval" "eval(exec(src))";
     mkFinding "a.py" 1 "Unsafe Eval" "eval(exec(src))"].
Proof. reflexivity. Qed.

(** ** The matcher finds what the patterns mean *)

Lemma last_char_app (prev : option ascii) (w1 w2 : string) :
  last_char prev (w1 ++ w2)%string = last_char (last_char prev w1) w2.
Proof. revert prev. induction w1 as [|c w1 IH]; intros prev; simpl; auto. Qed.

Lemma star_loop_skip (step : option ascii -> string -> cont -> bool) (k : cont)
  (n : nat) (prev : option ascii) (s : string) :
  k prev s = true -> star_loop step k n prev s = true.
Proof. intros Hk. destruct n; simpl; [exact Hk|]. rewrite Hk. apply orb_true_r. Qed.

Lemma star_loop_round (step : option ascii -> string -> cont -> bool) (k : cont)
  (n : nat) (prev : option ascii) (s : string) :
  step prev s (fun p' s' =>
                 (String.length s' <? String.length s) && star_loop step k n p' s')
  = true ->
  star_loop step k (S n) prev s = true.
Proof.
  intros H.
  change (star_loop step k (S n) prev s)
    with (step prev s (fun p' s' =>
                         (String.length s' <? String.length s)
                         && star_loop step k n p' s')
          || k prev s).
  now rewrite H.
Qed.

Lemma m_complete (r : regex) (prev : option ascii) (w rest : string) :
  Matches r prev w rest ->
  forall k : cont,
    k (last_char prev w) rest = true ->
    m r prev (w ++ rest)%string k = true
    /\ forall a, r = Star a ->
         forall n, String.length (w ++ rest)%string <= n ->
                   star_loop (m a) k n prev (w ++ rest)%string = true.
Proof.
  induction 1 as [prev rest | r t prev rest Hacc | prev rest Hb
                 | a b prev w1 w2 rest Ha IHa Hb IHb
                 | a prev rest
                 | a prev w1 w2 rest Ha IHa Hs IHs
                 | a prev w1 w2 rest Ha IHa Hs IHs]; intros k Hk.
  - split; [exact Hk|discriminate].
  - split.
    + destruct r; try discriminate Hacc; simpl in *; now rewrite Hacc.
    + intros a ->. discriminate Hacc.
  - split; [|discriminate]. simpl in *. now rewrite Hb.
  - split; [|discriminate]. rewrite append_assoc. cbn [m].
    apply IHa. apply IHb. now rewrite <- last_char_app.
  - split.
    + cbn [m]. now apply star_loop_skip.
    + intros a' _ n _. now apply star_loop_skip.
  - assert (Hloop : forall n, String.length ((w1 ++ w2) ++ rest)%string <= n ->
                    star_loop (m a) k n prev ((w1 ++ w2) ++ rest)%string = true).
    { intros n Hn. rewrite last_char_app in Hk.
      destruct (IHs k Hk) as [_ Hstar].
      destruct w1 as [|c w1].
      - apply (Hstar a eq_refl). exact Hn.
      - destruct n as [|n]; [simpl in Hn; lia|].
        apply star_loop_round. rewrite append_assoc. apply IHa.
        apply andb_true_intro. split.
        + apply Nat.ltb_lt. rewrite (length_append (String c w1)). simpl. lia.
        + apply (Hstar a eq_refl). rewrite append_assoc in Hn.
          rewrite (length_append (String c w1)) in Hn. simpl in Hn. lia. }
    split.
    + cbn [m]. apply Hloop. apply Nat.le_refl.
    + intros a' Heq. inversion Heq; subst. exact Hloop.
  - split; [|discriminate]. rewrite append_assoc. cbn [m].
    apply IHa. rewrite last_char_app in Hk.
    destruct (IHs k Hk) as [_ Hstar]. apply (Hstar a eq_refl). apply Nat.le_refl.
Qed.

Lemma search_from_unfold (r : regex) (prev : option ascii) (s : string) :
  search_from r prev s
  = m r prev s (fun _ _ => true)
    || match s with
       | String c s' => search_from r (Some c) s'
       | EmptyString => false
       end.
Proof. destruct s; reflexivity. Qed.

Lemma search_from_complete (r : regex) (pre w rest : string) (prev : option ascii) :
  Matches r (last_char prev pre) w rest ->
  search_from r prev (pre ++ w ++ rest)%string = true.
Proof.
  revert prev. induction pre as [|c pre IH]; intros prev HM.
  - cbn [append last_char] in *. rewrite search_from_unfold.
    now rewrite (proj1 (m_complete HM (fun _ _ => true) eq_refl)).
  - cbn [append]. rewrite search_from_unfold.
    rewrite (IH (Some c) HM). apply orb_true_r.
Qed.

Lemma search_complete (r : regex) (pre w rest : string) :
  Matches r (last_char None pre) w rest ->
  search r (pre ++ w ++ rest)%string = true.
Proof. apply search_from_complete. Qed.
(** ** The matcher finds nothing else *)

Lemma star_loop_sound (a : regex) :
  (forall prev s (k : cont),
      m a prev s k = true ->
      exists w rest, s = (w ++ rest)%string /\ Matches a prev w rest
                     /\ k (last_char prev w) rest = true) ->
  forall n prev s (k : cont),
    star_loop (m a) k n prev s = true ->
    exists w rest, s = (w ++ rest)%string /\ Matches (Star a) prev w rest
                   /\ k (last_char prev w) rest = true.
Proof.
  intros IHa. induction n as [|n IHn]; intros prev s k H.
  - exists EmptyString, s. repeat split; [apply M_Star0|exact H].
  - change (star_loop (m a) k (S n) prev s)
      with (m a prev s (fun p' s' =>
                          (String.length s' <? String.length s)
                          && star_loop (m a) k n p' s')
            || k prev s) in H.
    apply orb_true_iff in H as [H|H].
    + apply IHa in H as (w1 & rest1 & -> & Ha & Hk).
      apply andb_prop in Hk as [_ Hk].
      apply IHn in Hk as (w2 & rest & -> & Hs & Hk).
      exists (w1 ++ w2)%string, rest. split; [now rewrite append_assoc|].
      split; [now apply M_StarS|]. now rewrite last_char_app.
    + exists EmptyString, s. repeat split; [apply M_Star0|exact H].
Qed.

Lemma m_sound (r : regex) :
  forall prev s (k : cont),
    m r prev s k = true ->
    exists w rest, s = (w ++ rest)%string /\ Matches r prev w rest
                   /\ k (last_char prev w) rest = true.
Proof.
  induction r as [| c | | | cs | cs | | a IHa b IHb | a IHa | a IHa];
    intros prev s k H;
    try (destruct s as [|t s']; [discriminate H|];
         cbn [m] in H; apply andb_prop in H as [Hacc Hk];
         exists (String t EmptyString), s';
         repeat split; [now apply M_Char|exact Hk]).
  - exists EmptyString, s. repeat split; [apply M_Eps|exact H].
  - cbn [m] in H. apply andb_prop in H as [Hb Hk].
    exists EmptyString, s. repeat split; [now apply M_WordB|exact Hk].
  - cbn [m] in H. apply IHa in H as (w1 & rest1 & -> & Ha & H).
    apply IHb in H as (w2 & rest & -> & Hb & Hk).
    exists (w1 ++ w2)%string, rest. split; [now rewrite append_assoc|].
    split; [now apply M_Seq|]. now rewrite last_char_app.
  - cbn [m] in H. now apply (star_loop_sound IHa) in H.
  - cbn [m] in H. apply IHa in H as (w1 & rest1 & -> & Ha & H).
    apply (star_loop_sound IHa) in H as (w2 & rest & -> & Hs & Hk).
    exists (w1 ++ w2)%string, rest. split; [now rewrite append_assoc|].
    split; [now apply M_Plus|]. now rewrite last_char_app.
Qed.

Lemma search_from_sound (r : regex) (s : string) (prev : option ascii) :
  search_from r prev s = true ->
  exists pre w rest, s = (pre ++ w ++ rest)%string
                     /\ Matches r (last_char prev pre) w rest.
Proof.
  revert prev. induction s as [|c s IH]; intros prev H;
    rewrite search_from_unfold in H; apply orb_true_iff in H as [H|H].
  - apply m_sound in H as (w & rest & Hs & HM & _).
    exists EmptyString, w, rest. now split.
  - discriminate.
  - apply m_sound in H as (w & rest & Hs & HM & _).
    exists EmptyString, w, rest. now split.
  - apply IH in H as (pre & w & rest & -> & HM).
    exists (String c pre), w, rest. now split.
Qed.

(** [search] decides whether some part of the text matches the pattern. *)
Lemma search_spec (r : regex) (s : string) :
  search r s = true
  <-> exists pre w rest, s = (pre ++ w ++ rest)%string
                         /\ Matches r (last_char None pre) w rest.
Proof.
  split.
  - apply search_from_sound.
  - intros (pre & w & rest & -> & HM). now apply search_complete.
Qed.

(** ** Derivations for the patterns *)

Lemma lower_char_fixed (t : ascii) :
  is_lowered (PyStr.lower_char t) = false -> PyStr.lower_char t = t.
Proof.
  destruct t as [[] [] [] [] [] [] [] []]; vm_compute; intros H;
    first [reflexivity | discriminate H].
Qed.

Lemma lower_char_eq (t c : ascii) :
  PyStr.lower_char t = c -> is_lowered c = false -> t = c.
Proof. intros <- H. symmetry. now apply lower_char_fixed. Qed.

Lemma lower_cons_inv (w : string) (c : ascii) (s : string) :
  PyStr.lower w = String c s ->
  exists t w', w = String t w' /\ PyStr.lower_char t = c /\ PyStr.lower w' = s.
Proof.
  destruct w as [|t w']; simpl; intros H; [discriminate|].
  inversion H. now exists t, w'.
Qed.

Lemma lower_nil_inv (w : string) : PyStr.lower w = EmptyString -> w = EmptyString.
Proof. destruct w; simpl; [reflexivity|discriminate]. Qed.

Lemma not_quote_lower (t : ascii) :
  mem (PyStr.lower_char t) quotes = false -> mem t quotes = false.
Proof.
  intros H. destruct (mem t quotes) eqn:Hm; [|reflexivity].
  unfold quotes in Hm. cbn [mem] in Hm.
  destruct (Ascii.eqb_spec t dquote) as [->|_]; [discriminate H|].
  destruct (Ascii.eqb_spec t squote) as [->|_]; [discriminate H|].
  discriminate Hm.
Qed.

Lemma Matches_char_seq (a b : regex) (t : ascii) (prev : option ascii) (w rest : string) :
  accepts a t = true ->
  Matches b (Some t) w rest ->
  Matches (Seq a b) prev (String t w) rest.
Proof.
  intros Ha Hb. change (String t w) with (String t EmptyString ++ w)%string.
  apply M_Seq; [now apply M_Char|exact Hb].
Qed.

Lemma Matches_star_skip (a b : regex) (prev : option ascii) (w rest : string) :
  Matches b prev w rest -> Matches (Seq (Star a) b) prev w rest.
Proof.
  intros Hb. change w with (EmptyString ++ w)%string.
  apply M_Seq; [apply M_Star0|exact Hb].
Qed.

Lemma Matches_seq_inv (a b : regex) (prev : option ascii) (w rest : string) :
  Matches (Seq a b) prev w rest ->
  exists w1 w2, w = (w1 ++ w2)%string
                /\ Matches a prev w1 (w2 ++ rest)
                /\ Matches b (last_char prev w1) w2 rest.
Proof.
  intros H. inversion H; subst.
  - discriminate.
  - now exists w1, w2.
Qed.

Lemma Matches_star_char (a b : regex) (t : ascii) (prev : option ascii) (w rest : string) :
  accepts a t = true ->
  Matches (Seq (Star a) b) (Some t) w rest ->
  Matches (Seq (Star a) b) prev (String t w) rest.
Proof.
  intros Ha H. apply Matches_seq_inv in H as (w1 & w2 & -> & Hs & Hb).
  change (String t (w1 ++ w2)) with (String t w1 ++ w2)%string.
  apply M_Seq; [|exact Hb].
  change (String t w1) with (String t EmptyString ++ w1)%string.
  apply M_StarS; [now apply M_Char|exact Hs].
Qed.

Lemma Matches_plus_char (a b : regex) (t : ascii) (prev : option ascii) (w rest : string) :
  accepts a t = true ->
  Matches (Seq (Star a) b) (Some t) w rest ->
  Matches (Seq (Plus a) b) prev (String t w) rest.
Proof.
  intros Ha H. apply Matches_seq_inv in H as (w1 & w2 & -> & Hs & Hb).
  change (String t (w1 ++ w2)) with (String t w1 ++ w2)%string.
  apply M_Seq; [|exact Hb].
  change (String t w1) with (String t EmptyString ++ w1)%string.
  apply M_Plus; [now apply M_Char|exact Hs].
Qed.

Lemma Matches_lits (s : string) (r : regex) (w w2 rest : string) (prev : option ascii) :
  PyStr.lower w = PyStr.lower s ->
  Matches r (last_char prev w) w2 rest ->
  Matches (lits s r) prev (w ++ w2)%string rest.
Proof.
  revert w prev. induction s as [|c s IH]; intros w prev Hw Hr.
  - apply lower_nil_inv in Hw. subst w. exact Hr.
  - cbn [PyStr.lower] in Hw.
    apply lower_cons_inv in Hw as (t & w' & -> & Ht & Hw').
    cbn [lits append]. apply Matches_char_seq.
    + cbn [accepts]. rewrite Ht. apply Ascii.eqb_refl.
    + apply IH; [exact Hw'|exact Hr].
Qed.

Lemma Matches_lits_end (s w rest : string) (prev : option ascii) :
  PyStr.lower w = PyStr.lower s -> Matches (lits s Eps) prev w rest.
Proof.
  intros Hw. rewrite <- (append_nil_r w).
  apply Matches_lits; [exact Hw|apply M_Eps].
Qed.

(** Every text that is the password assignment up to case is matched by
    the password pattern, wherever it stands. *)
Lemma password_matches (mid rest : string) (prev : option ascii) :
  PyStr.lower mid = password_line -> Matches re_password prev mid rest.
Proof.
  intros H. unfold password_line, dq in H. cbn [append] in H.
  repeat (apply lower_cons_inv in H as (? & ? & -> & ? & H)).
  apply lower_nil_inv in H. subst.
  repeat match goal with
         | E : PyStr.lower_char ?t = ?c |- _ =>
             apply lower_char_eq in E; [subst t|reflexivity]
         end.
  unfold re_password, re_assigned_literal.
  match goal with
  | |- Matches _ _ (String ?a (String ?b (String ?c (String ?d (String ?e
         (String ?f (String ?g (String ?h ?tl)))))))) _ =>
      change (String a (String b (String c (String d (String e
                (String f (String g (String h tl))))))))
        with ((String a (String b (String c (String d (String e
                (String f (String g (String h EmptyString)))))))) ++ tl)%string
  end.
  apply Matches_lits.
  { cbn [PyStr.lower].
    repeat match goal with
           | E : PyStr.lower_char ?t = _ |- context [PyStr.lower_char ?t] =>
               rewrite E
           end.
    reflexivity. }
  apply Matches_star_char; [reflexivity|]. apply Matches_star_skip.
  apply Matches_char_seq; [reflexivity|].
  apply Matches_star_char; [reflexivity|]. apply Matches_star_skip.
  apply Matches_char_seq; [reflexivity|].
  apply Matches_plus_char.
  { cbn [accepts]. apply negb_true_iff, not_quote_lower.
    match goal with E : PyStr.lower_char _ = _ |- _ => rewrite E end. reflexivity. }
  repeat (apply Matches_star_char;
          [first [ reflexivity
                 | cbn [accepts]; apply negb_true_iff, not_quote_lower;
                   match goal with
                   | E : PyStr.lower_char ?t = _ |- context [PyStr.lower_char ?t] =>
                       rewrite E
                   end; reflexivity ]|]).
  apply Matches_star_skip.
  apply Matches_char_seq; [reflexivity|]. apply M_Eps.
Qed.

Lemma is_word_char_lower (t : ascii) :
  is_word_char (PyStr.lower_char t) = is_word_char t.
Proof. destruct t as [[] [] [] [] [] [] [] []]; reflexivity. Qed.

(** Every text that is [eval(] up to case is matched by the eval pattern
    when no word character stands before it. *)
Lemma eval_matches (w rest : string) (prev : option ascii) :
  PyStr.lower w = "eval(" -> is_word prev = false -> Matches re_eval prev w rest.
Proof.
  intros Hw Hprev. unfold re_eval.
  change w with (EmptyString ++ w)%string. apply M_Seq.
  - apply M_WordB. rewrite Hprev. cbn [append].
    apply lower_cons_inv in Hw as (t & w' & -> & Ht & _).
    cbn [append first_char is_word]. rewrite <- is_word_char_lower, Ht. reflexivity.
  - cbn [last_char]. now apply Matches_lits_end.
Qed.

Lemma lower_app (s t : string) :
  PyStr.lower (s ++ t)%string = (PyStr.lower s ++ PyStr.lower t)%string.
Proof. induction s as [|c s IH]; simpl; [reflexivity|now rewrite IH]. Qed.

Lemma take_lower (n : nat) (s : string) :
  PyStr.lower (PyStr.take n s) = PyStr.take n (PyStr.lower s).
Proof.
  revert s. induction n as [|n IH]; intros [|c s]; simpl; try reflexivity.
  now rewrite IH.
Qed.

(** ** SecurityScanner: what a line yields *)

Lemma enumerate_nth (A : Type) (l : list A) (start n : nat) (x : A) :
  nth_error l n = Some x -> In (start + n, x) (combine (seq start (List.length l)) l).
Proof.
  revert start n. induction l as [|y l IH]; intros start [|n] H; simpl in *;
    try discriminate.
  - inversion H; subst. left. now rewrite Nat.add_0_r.
  - right. rewrite <- Nat.add_succ_comm. now apply IH.
Qed.

Lemma finding_of_match (files : FileSet) (filename content line vuln_type : string)
  (n : nat) (regexes : list regex) (regex : regex) :
  In (filename, content) files ->
  nth_error (PyStr.split PyStr.LF content) n = Some line ->
  In (vuln_type, regexes) patterns -> In regex regexes ->
  search regex line = true ->
  In (mkFinding filename (S n) (display_type vuln_type) (PyStr.strip line))
     (scan_security_issues files).
Proof.
  intros Hfile Hline Hcat Hre Hsearch.
  rewrite scan_security_issues_flat_map. apply in_flat_map.
  exists (filename, content). split; [exact Hfile|].
  unfold file_findings. apply in_flat_map.
  exists (S n, line). split; [apply (enumerate_nth _ 1 _ Hline)|].
  cbn [fst snd]. unfold line_findings. apply in_flat_map.
  exists (vuln_type, regexes). split; [exact Hcat|].
  cbn [fst snd]. unfold regex_findings. apply in_flat_map.
  exists regex. split; [exact Hre|]. rewrite Hsearch. now left.
Qed.

(** C5, as the code has it.  When line [n] of a file of the FileSet holds,
    up to case, the password assignment, the scan has the finding
    Hardcoded Secrets for that file and line; when it holds [eval(x)] up to
    case, with no word character just before it, the scan has the finding
    Unsafe Eval. *)
Theorem scan_finds_secret_and_eval (files : FileSet)
  (filename content line pre mid post : string) (n : nat) :
  In (filename, content) files ->
  nth_error (PyStr.split PyStr.LF content) n = Some line ->
  line = (pre ++ mid ++ post)%string ->
  (PyStr.lower mid = password_line ->
   In (mkFinding filename (S n) "Hardcoded Secrets" (PyStr.strip line))
      (scan_security_issues files))
  /\ (PyStr.lower mid = "eval(x)" -> is_word (last_char None pre) = false ->
      In (mkFinding filename (S n) "Unsafe Eval" (PyStr.strip line))
         (scan_security_issues files)).
Proof.
  intros Hfile Hline Hsplit. split.
  - intros Hmid.
    apply (@finding_of_match files filename content line "hardcoded_secrets" n
             [re_password; re_api_key] re_password Hfile Hline);
      [right; left; reflexivity|left; reflexivity|].
    rewrite Hsplit. apply search_complete. now apply password_matches.
  - intros Hmid Hprev.
    apply (@finding_of_match files filename content line "unsafe_eval" n
             [re_eval; re_exec] re_eval Hfile Hline);
      [right; right; left; reflexivity|left; reflexivity|].
    rewrite Hsplit.
    rewrite <- (take_drop 5 mid), append_assoc.
    apply search_complete. apply eval_matches; [|exact Hprev].
    rewrite take_lower, Hmid. reflexivity.
Qed.

Lemma scan_finds_secret_and_eval_witness :
  In (mkFinding "s.py" 2 "Hardcoded Secrets"
                ("PASSWORD = " ++ dq ++ "Admin123" ++ dq ++ "  # secret")%string)
     (scan_security_issues [("a.py", sample_py); ("s.py", secrets_py)])
  /\ In (mkFinding "s.py" 3 "Unsafe Eval" "return EVAL(x)")
        (scan_security_issues [("a.py", sample_py); ("s.py", secrets_py)]).
Proof.
  split.
  - apply (proj1 (@scan_finds_secret_and_eval
                    [("a.py", sample_py); ("s.py", secrets_py)] "s.py" secrets_py
                    ("    PASSWORD = " ++ dq ++ "Admin123" ++ dq ++ "  # secret")%string
                    "    " ("PASSWORD = " ++ dq ++ "Admin123" ++ dq)%string
                    "  # secret" 1
                    (or_intror (or_introl eq_refl)) eq_refl eq_refl)).
    reflexivity.
  - apply (proj2 (@scan_finds_secret_and_eval
                    [("a.py", sample_py); ("s.py", secrets_py)] "s.py" secrets_py
                    "    return EVAL(x)" "    return " "EVAL(x)" EmptyString 2
                    (or_intror (or_introl eq_refl)) eq_refl eq_refl));
      reflexivity.
Defined.

(** C5 as stated fails for the eval part: a line may contain [eval(x)]
    inside a longer word, and then there is no finding. *)
Lemma eval_inside_word_not_found :
  nth_error (PyStr.split PyStr.LF "medieval(x)") 0 = Some ("medi" ++ "eval(x)" ++ "")%string
  /\ scan_security_issues [("a.py", "medieval(x)")] = [].
Proof. split; reflexivity. Qed.

(** ** The orchestrator on a stub endpoint *)

(** A file with a password literal and a stub that replies with a JSON
    object: the result has the score of the reply and the metrics of the
    calculator. *)
Example orchestrator_end_to_end :
  exists req r,
    run_review sample_key "llama" (sample_post (PStr json_reply_text))
               sample_json_loads sample_str_nat sample_str_float "!"
               [("a.py", ("password = " ++ dq ++ "x" ++ dq ++ nl)%string)]
    = ([req], inr r)
    /\ summary r = PStr "ok"
    /\ quality_score r = PInt 8
    /\ option_map code_lines (PyDict.get "a.py" (metrics r)) = Some 1
    /\ raw_response r = json_reply_text.
Proof.
  eexists. eexists. split; [lazy; reflexivity|]. repeat split.
Qed.

(** * Further properties of the code *)

(** ** MetricsCalculator *)

Lemma split_length (sep : ascii) (s : string) :
  List.length (PyStr.split sep s) = S (count_char sep s).
Proof.
  induction s as [|c s IH]; [reflexivity|].
  cbn [PyStr.split count_char]. destruct (Ascii.eqb c sep).
  - cbn [List.length]. now rewrite IH.
  - destruct (PyStr.split sep s) as [|l ls] eqn:Hs; simpl in *; lia.
Qed.

(** X1.  For every file of the FileSet, [total_lines] is one more than the
    number of newline characters of the content stripped of the whitespace
    at its ends. *)
Theorem total_lines_counts_newlines (files : FileSet) (filename content : string) :
  NoDup (PyDict.keys files) -> In (filename, content) files ->
  exists m,
    PyDict.get filename (calculate_code_metrics files) = Some m
    /\ total_lines m = S (count_char PyStr.LF (PyStr.strip content)).
Proof.
  intros Hnd Hin. exists (file_metrics content).
  split; [now apply calculate_code_metrics_get|].
  apply split_length.
Qed.

Lemma total_lines_counts_newlines_witness :
  exists m,
    PyDict.get "a.py" (calculate_code_metrics sample_files) = Some m
    /\ total_lines m = 4.
Proof.
  exact (@total_lines_counts_newlines sample_files "a.py" sample_py
           sample_files_NoDup (or_introl eq_refl)).
Defined.
Lemma lstrip_all_space (s : string) : all_space s = true -> PyStr.lstrip s = EmptyString.
Proof.
  induction s as [|c s IH]; simpl; [reflexivity|].
  intros H. apply andb_prop in H as [Hc Hs]. rewrite Hc. now apply IH.
Qed.

Lemma rstrip_all_space (s : string) : all_space s = true -> PyStr.rstrip s = EmptyString.
Proof.
  induction s as [|c s IH]; simpl; [reflexivity|].
  intros H. apply andb_prop in H as [Hc Hs]. rewrite (IH Hs). now rewrite Hc.
Qed.

Lemma lstrip_app_space (pre s : string) :
  all_space pre = true -> PyStr.lstrip (pre ++ s)%string = PyStr.lstrip s.
Proof.
  induction pre as [|c pre IH]; simpl; [reflexivity|].
  intros H. apply andb_prop in H as [Hc Hs]. rewrite Hc. now apply IH.
Qed.

Lemma rstrip_app_space (s suf : string) :
  all_space suf = true -> PyStr.rstrip (s ++ suf)%string = PyStr.rstrip s.
Proof.
  intros Hsuf. induction s as [|c s IH]; cbn [append PyStr.rstrip].
  - now apply rstrip_all_space.
  - now rewrite IH.
Qed.

Lemma strip_app_space (s suf : string) :
  all_space suf = true -> PyStr.strip (s ++ suf)%string = PyStr.strip s.
Proof.
  intros Hsuf. unfold PyStr.strip. induction s as [|c s IH]; cbn [append PyStr.lstrip].
  - rewrite (@lstrip_all_space suf Hsuf). reflexivity.
  - destruct (PyStr.isspace c); [exact IH|].
    change (String c (s ++ suf)) with (String c s ++ suf)%string.
    now apply rstrip_app_space.
Qed.

Lemma strip_padding (pre s suf : string) :
  all_space pre = true -> all_space suf = true ->
  PyStr.strip (pre ++ s ++ suf)%string = PyStr.strip s.
Proof.
  intros Hpre Hsuf. unfold PyStr.strip. rewrite lstrip_app_space by exact Hpre.
  now apply strip_app_space.
Qed.

Lemma isspace_lower (c : ascii) : PyStr.isspace c = true -> PyStr.lower_char c = c.
Proof.
  destruct c as [[] [] [] [] [] [] [] []]; vm_compute; intros H;
    first [reflexivity | discriminate H].
Qed.

Lemma all_space_lower (s : string) : all_space s = true -> PyStr.lower s = s.
Proof.
  induction s as [|c s IH]; simpl; [reflexivity|].
  intros H. apply andb_prop in H as [Hc Hs].
  now rewrite (@isspace_lower c Hc), (IH Hs).
Qed.

Lemma prefix_cons (a b : ascii) (s t : string) :
  String.prefix (String a s) (String b t)
  = if Ascii.eqb a b then String.prefix s t else false.
Proof.
  cbn [String.prefix]. destruct (Ascii.ascii_dec a b) as [->|Hne].
  - now rewrite Ascii.eqb_refl.
  - apply Ascii.eqb_neq in Hne. now rewrite Hne.
Qed.

Lemma prefix_nil_r (sub : string) :
  sub <> EmptyString -> String.prefix sub EmptyString = false.
Proof. destruct sub; [contradiction|reflexivity]. Qed.

Lemma prefix_space_false (a : ascii) (kw s : string) :
  PyStr.isspace a = false -> all_space s = true ->
  String.prefix (String a kw) s = false.
Proof.
  intros Ha Hs. destruct s as [|b s]; [reflexivity|].
  rewrite prefix_cons. simpl in Hs. apply andb_prop in Hs as [Hb _].
  destruct (Ascii.eqb_spec a b) as [->|_]; [congruence|reflexivity].
Qed.

Lemma count_from_all_space (a : ascii) (kw s : string) (k : nat) :
  PyStr.isspace a = false -> all_space s = true ->
  PyStr.count_from (String a kw) k s = 0.
Proof.
  intros Ha. revert k. induction s as [|b s IH]; intros k Hs; [reflexivity|].
  cbn [PyStr.count_from]. pose proof Hs as Hs'.
  simpl in Hs'. apply andb_prop in Hs' as [_ Hs'].
  destruct k as [|k]; [|now apply IH].
  rewrite (@prefix_space_false a kw (String b s) Ha Hs). now apply IH.
Qed.

Lemma count_from_space_before (a : ascii) (kw pre s : string) :
  PyStr.isspace a = false -> all_space pre = true ->
  PyStr.count_from (String a kw) 0 (pre ++ s)%string
  = PyStr.count_from (String a kw) 0 s.
Proof.
  intros Ha. induction pre as [|b pre IH]; intros Hpre; [reflexivity|].
  simpl in Hpre. apply andb_prop in Hpre as [Hb Hpre].
  cbn [append PyStr.count_from]. rewrite prefix_cons.
  destruct (Ascii.eqb_spec a b) as [->|_]; [congruence|]. now apply IH.
Qed.

Lemma prefix_app_space (kw s suf : string) :
  no_space kw = true -> all_space suf = true ->
  String.prefix kw (s ++ suf)%string = String.prefix kw s.
Proof.
  revert s. induction kw as [|a kw IH]; intros s Hkw Hsuf.
  - now destruct s, suf.
  - simpl in Hkw. apply andb_prop in Hkw as [Ha Hkw]. apply negb_true_iff in Ha.
    destruct s as [|b s].
    + cbn [append]. rewrite (@prefix_space_false a kw suf Ha Hsuf). reflexivity.
    + cbn [append]. rewrite !prefix_cons. destruct (Ascii.eqb a b); [|reflexivity].
      now apply IH.
Qed.

Lemma count_from_space_after (a : ascii) (kw s suf : string) (k : nat) :
  no_space (String a kw) = true -> all_space suf = true ->
  PyStr.count_from (String a kw) k (s ++ suf)%string
  = PyStr.count_from (String a kw) k s.
Proof.
  intros Hkw Hsuf. revert k. induction s as [|b s IH]; intros k.
  - cbn [append]. simpl in Hkw. apply andb_prop in Hkw as [Ha _].
    apply negb_true_iff in Ha. now apply count_from_all_space.
  - change (String b s ++ suf)%string with (String b (s ++ suf)).
    cbn [PyStr.count_from]. destruct k as [|k]; [|apply IH].
    change (String b (s ++ suf)) with (String b s ++ suf)%string.
    rewrite (@prefix_app_space (String a kw) (String b s) suf Hkw Hsuf).
    destruct (String.prefix (String a kw) (String b s)); now rewrite IH.
Qed.

Lemma count_padding (kw pre s suf : string) :
  kw <> EmptyString -> no_space kw = true ->
  all_space pre = true -> all_space suf = true ->
  PyStr.count kw (pre ++ s ++ suf)%string = PyStr.count kw s.
Proof.
  intros Hne Hkw Hpre Hsuf. destruct kw as [|a kw]; [contradiction|].
  unfold PyStr.count. pose proof Hkw as Hkw'.
  simpl in Hkw'. apply andb_prop in Hkw' as [Ha _]. apply negb_true_iff in Ha.
  rewrite count_from_space_before by assumption.
  now apply count_from_space_after.
Qed.

Lemma complexity_keywords_plain (kw : string) :
  In kw complexity_keywords -> kw <> EmptyString /\ no_space kw = true.
Proof.
  unfold complexity_keywords. cbn [In].
  intros H. repeat (destruct H as [<-|H]; [split; [discriminate|reflexivity]|]).
  contradiction.
Qed.

Lemma file_metrics_padding (pre content suf : string) :
  all_space pre = true -> all_space suf = true ->
  file_metrics (pre ++ content ++ suf)%string = file_metrics content.
Proof.
  intros Hpre Hsuf. unfold file_metrics, metric_lines.
  rewrite (@strip_padding pre content suf Hpre Hsuf).
  replace (map (fun kw => PyStr.count kw (PyStr.lower (pre ++ content ++ suf)))
               complexity_keywords)
    with (map (fun kw => PyStr.count kw (PyStr.lower content)) complexity_keywords);
    [reflexivity|].
  apply map_ext_in. intros kw Hkw.
  destruct (@complexity_keywords_plain kw Hkw) as [Hne Hplain].
  rewrite !lower_app, (@all_space_lower pre Hpre), (@all_space_lower suf Hsuf).
  symmetry. now apply count_padding.
Qed.

(** X2.  Whitespace before and after the content of a file changes none of
    its metrics: a file and the same file padded with blank lines, spaces or
    tabs at its two ends get the same entry. *)
Theorem metrics_ignore_surrounding_whitespace (files : FileSet)
  (filename content pre suf : string) :
  NoDup (PyDict.keys files) ->
  In (filename, (pre ++ content ++ suf)%string) files ->
  all_space pre = true -> all_space suf = true ->
  PyDict.get filename (calculate_code_metrics files) = Some (file_metrics content).
Proof.
  intros Hnd Hin Hpre Hsuf.
  rewrite (@calculate_code_metrics_get files filename (pre ++ content ++ suf)%string Hnd Hin).
  now rewrite file_metrics_padding.
Qed.

Lemma metrics_ignore_surrounding_whitespace_witness :
  PyDict.get "p.py"
    (calculate_code_metrics
       [("p.py", (nl ++ "  " ++ ("# c" ++ nl ++ "x = 1") ++ (nl ++ nl))%string)])
  = Some (file_metrics ("# c" ++ nl ++ "x = 1")%string).
Proof.
  apply (@metrics_ignore_surrounding_whitespace
           [("p.py", (nl ++ "  " ++ ("# c" ++ nl ++ "x = 1") ++ (nl ++ nl))%string)]
           "p.py" ("# c" ++ nl ++ "x = 1")%string (nl ++ "  ")%string (nl ++ nl)%string).
  - repeat constructor. simpl. intuition.
  - left. reflexivity.
  - reflexivity.
  - reflexivity.
Defined.

(** X3.  A file that holds nothing but whitespace, the empty file included,
    counts as one line that is neither code nor comment, with complexity 0
    and ratio 0. *)
Theorem metrics_of_blank_file (files : FileSet) (filename content : string) :
  NoDup (PyDict.keys files) -> In (filename, content) files ->
  all_space content = true ->
  PyDict.get filename (calculate_code_metrics files)
  = Some (mkFileMetrics 1 0 0 0 0%Q).
Proof.
  intros Hnd Hin Hblank.
  rewrite (@calculate_code_metrics_get files filename content Hnd Hin). f_equal.
  rewrite <- (append_nil_r content).
  change (content ++ EmptyString)%string
    with (content ++ EmptyString ++ EmptyString)%string.
  rewrite (@file_metrics_padding content EmptyString EmptyString Hblank eq_refl).
  reflexivity.
Qed.

Lemma metrics_of_blank_file_witness :
  PyDict.get "b.py" (calculate_code_metrics sample_files)
  = Some (mkFileMetrics 1 0 0 0 0%Q)
  /\ PyDict.get "w.py" (calculate_code_metrics [("w.py", (nl ++ "   " ++ nl)%string)])
     = Some (mkFileMetrics 1 0 0 0 0%Q).
Proof.
  split.
  - exact (@metrics_of_blank_file sample_files "b.py" EmptyString
             sample_files_NoDup (or_intror (or_introl eq_refl)) eq_refl).
  - apply (@metrics_of_blank_file [("w.py", (nl ++ "   " ++ nl)%string)] "w.py"
             (nl ++ "   " ++ nl)%string).
    + repeat constructor. simpl. intuition.
    + left. reflexivity.
    + reflexivity.
Defined.
Lemma count_from_zero_iff (sub s : string) :
  sub <> EmptyString ->
  PyStr.count_from sub 0 s = 0 <-> contains sub s = false.
Proof.
  intros Hne. induction s as [|c s IH].
  - cbn [PyStr.count_from contains]. rewrite (prefix_nil_r Hne). tauto.
  - cbn [PyStr.count_from contains].
    destruct (String.prefix sub (String c s)); cbn [orb].
    + split; [intros H; discriminate H|intros H; discriminate H].
    + exact IH.
Qed.

Lemma sum_nine (a b c d e f g h i : nat) :
  sum [a; b; c; d; e; f; g; h; i] = a + b + c + d + e + f + g + h + i.
Proof. unfold sum. cbn [fold_left]. lia. Qed.

(** X4.  The complexity score of a file is 0 exactly when none of the nine
    keywords occurs anywhere in the lower-cased content, inside a longer
    word or not. *)
Theorem complexity_zero_iff_no_keyword (files : FileSet) (filename content : string) :
  NoDup (PyDict.keys files) -> In (filename, content) files ->
  exists m,
    PyDict.get filename (calculate_code_metrics files) = Some m
    /\ (complexity_score m = 0
        <-> forall kw, In kw complexity_keywords ->
                       contains kw (PyStr.lower content) = false).
Proof.
  intros Hnd Hin. exists (file_metrics content).
  split; [now apply calculate_code_metrics_get|].
  cbn [file_metrics complexity_score]. unfold complexity_keywords.
  cbn [map]. rewrite sum_nine. unfold PyStr.count. split.
  - intros Hsum kw Hkw. cbn [In] in Hkw.
    repeat (destruct Hkw as [<-|Hkw];
            [apply count_from_zero_iff; [discriminate|lia]|]).
    contradiction.
  - intros Hnone.
    assert (Hz : forall kw, In kw complexity_keywords ->
                            PyStr.count_from kw 0 (PyStr.lower content) = 0).
    { intros kw Hkw. apply count_from_zero_iff; [|now apply Hnone].
      now apply complexity_keywords_plain. }
    unfold complexity_keywords in Hz.
    rewrite !Hz by (cbn [In]; tauto). reflexivity.
Qed.

Lemma complexity_zero_iff_no_keyword_witness :
  exists m,
    PyDict.get "n.py" (calculate_code_metrics [("n.py", "Notify(x)")]) = Some m
    /\ (complexity_score m = 0
        <-> forall kw, In kw complexity_keywords ->
                       contains kw (PyStr.lower "Notify(x)") = false).
Proof.
  apply (@complexity_zero_iff_no_keyword [("n.py", "Notify(x)")] "n.py" "Notify(x)").
  - repeat constructor. simpl. intuition.
  - left. reflexivity.
Defined.
(** ** SecurityScanner *)

Lemma enumerate_In_inv (A : Type) (l : list A) (start k : nat) (x : A) :
  In (k, x) (combine (seq start (List.length l)) l) ->
  exists n, k = start + n /\ nth_error l n = Some x.
Proof.
  revert start. induction l as [|y l IH]; intros start H; simpl in H.
  - contradiction.
  - destruct H as [H|H].
    + inversion H; subst. exists 0. split; [lia|reflexivity].
    + apply IH in H as (n & -> & Hn). exists (S n). split; [lia|exact Hn].
Qed.

Lemma finding_match_inv (files : FileSet) (f : SecurityFinding) :
  In f (scan_security_issues files) ->
  exists filename content n line vuln_type regexes regex,
    In (filename, content) files
    /\ nth_error (PyStr.split PyStr.LF content) n = Some line
    /\ In (vuln_type, regexes) patterns /\ In regex regexes
    /\ search regex line = true
    /\ f = mkFinding filename (S n) (display_type vuln_type) (PyStr.strip line).
Proof.
  rewrite scan_security_issues_flat_map. rewrite in_flat_map.
  intros ([filename content] & Hfile & Hf).
  unfold file_findings in Hf. rewrite in_flat_map in Hf.
  destruct Hf as ([k line] & Hline & Hf). cbn [fst snd] in *.
  apply enumerate_In_inv in Hline as (n & -> & Hline).
  unfold line_findings in Hf. rewrite in_flat_map in Hf.
  destruct Hf as ([vuln_type regexes] & Hcat & Hf). cbn [fst snd] in Hf.
  unfold regex_findings in Hf. rewrite in_flat_map in Hf.
  destruct Hf as (regex & Hre & Hf).
  destruct (search regex line) eqn:Hs; [|contradiction].
  destruct Hf as [<-|[]].
  now exists filename, content, n, line, vuln_type, regexes, regex.
Qed.

(** X5.  The findings of a scan are exactly these: for a file of the
    FileSet, a line of its content (split at newlines, numbered from 1), a
    category and a regex of that category that matches the line, the finding
    with that file, line number, displayed category and stripped line.  So a
    finding never names a file outside the FileSet or a line the file does
    not have. *)
Theorem finding_iff_match (files : FileSet) (f : SecurityFinding) :
  In f (scan_security_issues files)
  <-> exists filename content n line vuln_type regexes regex,
        In (filename, content) files
        /\ nth_error (PyStr.split PyStr.LF content) n = Some line
        /\ In (vuln_type, regexes) patterns /\ In regex regexes
        /\ search regex line = true
        /\ f = mkFinding filename (S n) (display_type vuln_type) (PyStr.strip line).
Proof.
  split; [apply finding_match_inv|].
  intros (filename & content & n & line & vuln_type & regexes & regex
          & Hfile & Hline & Hcat & Hre & Hs & ->).
  now apply (@finding_of_match files filename content line vuln_type n regexes regex).
Qed.

Lemma Matches_Eps_inv (prev : option ascii) (w rest : string) :
  Matches Eps prev w rest -> w = EmptyString.
Proof. intros H. inversion H; subst; [reflexivity|discriminate]. Qed.

Lemma Matches_Lit_inv (c : ascii) (prev : option ascii) (w rest : string) :
  Matches (Lit c) prev w rest ->
  exists t, w = String t EmptyString /\ PyStr.lower_char t = PyStr.lower_char c.
Proof.
  intros H. inversion H; subst. exists t. split; [reflexivity|].
  cbn [accepts] in *. now apply Ascii.eqb_eq.
Qed.

Lemma Matches_WordB_inv (prev : option ascii) (w rest : string) :
  Matches WordB prev w rest ->
  w = EmptyString /\ xorb (is_word prev) (is_word (first_char rest)) = true.
Proof. intros H. inversion H; subst; [discriminate|now split]. Qed.

Lemma Matches_lits_inv (s : string) (r : regex) (prev : option ascii) (w rest : string) :
  Matches (lits s r) prev w rest ->
  exists w1 w2, w = (w1 ++ w2)%string /\ PyStr.lower w1 = PyStr.lower s
                /\ Matches r (last_char prev w1) w2 rest.
Proof.
  revert prev w. induction s as [|c s IH]; intros prev w H.
  - exists EmptyString, w. now split.
  - cbn [lits] in H. apply Matches_seq_inv in H as (w0 & w' & -> & Hc & Hs).
    apply Matches_Lit_inv in Hc as (t & -> & Ht).
    apply IH in Hs as (w1 & w2 & -> & Hw1 & Hr).
    exists (String t w1), w2. split; [reflexivity|]. split; [|exact Hr].
    cbn [PyStr.lower]. now rewrite Ht, Hw1.
Qed.

Lemma Matches_lits_end_inv (s : string) (prev : option ascii) (w rest : string) :
  Matches (lits s Eps) prev w rest -> PyStr.lower w = PyStr.lower s.
Proof.
  intros H. apply Matches_lits_inv in H as (w1 & w2 & -> & Hw1 & He).
  apply Matches_Eps_inv in He. subst w2. now rewrite append_nil_r.
Qed.

(** A literal that starts with a word character, asked for after a word
    boundary. *)
Lemma Matches_bounded_literal (c : ascii) (s w rest : string) (prev : option ascii) :
  is_word_char c = true ->
  Matches (Seq WordB (lits (String c s) Eps)) prev w rest
  <-> PyStr.lower w = PyStr.lower (String c s) /\ is_word prev = false.
Proof.
  intros Hc. split.
  - intros H. apply Matches_seq_inv in H as (w1 & w2 & -> & Hb & Hl).
    apply Matches_WordB_inv in Hb as [-> Hb]. cbn [append last_char] in *.
    pose proof Hl as Hw. apply Matches_lits_end_inv in Hw. split; [exact Hw|].
    cbn [PyStr.lower] in Hw. apply lower_cons_inv in Hw as (t & w' & -> & Ht & _).
    cbn [append first_char is_word] in Hb.
    rewrite <- is_word_char_lower, Ht, is_word_char_lower, Hc in Hb.
    now destruct (is_word prev).
  - intros [Hw Hprev]. change w with (EmptyString ++ w)%string. apply M_Seq.
    + apply M_WordB. rewrite Hprev. cbn [append PyStr.lower] in *.
      apply lower_cons_inv in Hw as (t & w' & -> & Ht & _).
      cbn [append first_char is_word].
      now rewrite <- is_word_char_lower, Ht, is_word_char_lower, Hc.
    + cbn [last_char]. now apply Matches_lits_end.
Qed.

Lemma search_bounded_literal (c : ascii) (s line : string) :
  is_word_char c = true ->
  search (Seq WordB (lits (String c s) Eps)) line = true
  <-> exists pre w post,
        line = (pre ++ w ++ post)%string
        /\ PyStr.lower w = PyStr.lower (String c s)
        /\ is_word (last_char None pre) = false.
Proof.
  intros Hc. rewrite search_spec. split.
  - intros (pre & w & post & -> & HM).
    apply (@Matches_bounded_literal c s w post (last_char None pre) Hc) in HM.
    now exists pre, w, post.
  - intros (pre & w & post & -> & Hw & Hprev).
    exists pre, w, post. split; [reflexivity|].
    now apply (@Matches_bounded_literal c s w post (last_char None pre) Hc).
Qed.

Lemma content_of_file (files : FileSet) (filename content content' : string) :
  NoDup (PyDict.keys files) ->
  In (filename, content) files -> In (filename, content') files ->
  content' = content.
Proof.
  intros Hnd H1 H2.
  pose proof (@get_In_NoDup _ filename content files Hnd H1) as G1.
  pose proof (@get_In_NoDup _ filename content' files Hnd H2) as G2.
  congruence.
Qed.

(** What a finding of a given file, line and category says about the line:
    some regex of a category with that displayed name matches it. *)
Lemma finding_on_line (files : FileSet) (filename content line type code : string)
  (n : nat) :
  NoDup (PyDict.keys files) -> In (filename, content) files ->
  nth_error (PyStr.split PyStr.LF content) n = Some line ->
  In (mkFinding filename (S n) type code) (scan_security_issues files) ->
  exists vuln_type regexes regex,
    In (vuln_type, regexes) patterns /\ In regex regexes
    /\ search regex line = true /\ type = display_type vuln_type.
Proof.
  intros Hnd Hfile Hline Hf.
  apply finding_match_inv in Hf
    as (filename' & content' & n' & line' & vuln_type & regexes & regex
        & Hfile' & Hline' & Hcat & Hre & Hs & Heq).
  inversion Heq; subst.
  assert (content' = content) by (eapply content_of_file; eauto). subst content'.
  assert (line' = line) by congruence. subst line'.
  now exists vuln_type, regexes, regex.
Qed.

(** X6.  Line [n] of a file has an Unsafe Eval finding exactly when it
    holds, in any case, the text [eval(] or [exec(] with no word character
    (letter, digit, underscore) just before it. *)
Theorem unsafe_eval_iff (files : FileSet) (filename content line : string) (n : nat) :
  NoDup (PyDict.keys files) -> In (filename, content) files ->
  nth_error (PyStr.split PyStr.LF content) n = Some line ->
  In (mkFinding filename (S n) "Unsafe Eval" (PyStr.strip line))
     (scan_security_issues files)
  <-> exists pre w post,
        line = (pre ++ w ++ post)%string
        /\ (PyStr.lower w = "eval(" \/ PyStr.lower w = "exec(")
        /\ is_word (last_char None pre) = false.
Proof.
  intros Hnd Hfile Hline. split.
  - intros Hf.
    apply (@finding_on_line files filename content line _ _ n Hnd Hfile Hline) in Hf
      as (vuln_type & regexes & regex & Hcat & Hre & Hs & Hty).
    unfold patterns in Hcat. cbn [In] in Hcat.
    destruct Hcat as [Hc|[Hc|[Hc|[Hc|[]]]]]; inversion Hc; subst;
      try (vm_compute in Hty; discriminate Hty).
    cbn [In] in Hre. destruct Hre as [<-|[<-|[]]].
    + apply (@search_bounded_literal "e" "val(" line eq_refl) in Hs
        as (pre & w & post & -> & Hw & Hp).
      exists pre, w, post. split; [reflexivity|]. split; [now left|exact Hp].
    + apply (@search_bounded_literal "e" "xec(" line eq_refl) in Hs
        as (pre & w & post & -> & Hw & Hp).
      exists pre, w, post. split; [reflexivity|]. split; [now right|exact Hp].
  - intros (pre & w & post & -> & [Hw|Hw] & Hp).
    + apply (@finding_of_match files filename content (pre ++ w ++ post)%string
               "unsafe_eval" n [re_eval; re_exec] re_eval Hfile Hline);
        [right; right; left; reflexivity|left; reflexivity|].
      apply (@search_bounded_literal "e" "val(" (pre ++ w ++ post)%string eq_refl).
      now exists pre, w, post.
    + apply (@finding_of_match files filename content (pre ++ w ++ post)%string
               "unsafe_eval" n [re_eval; re_exec] re_exec Hfile Hline);
        [right; right; left; reflexivity|right; left; reflexivity|].
      apply (@search_bounded_literal "e" "xec(" (pre ++ w ++ post)%string eq_refl).
      now exists pre, w, post.
Qed.

(** ** The patterns, piece by piece *)

Lemma Matches_class_inv (a : regex) (prev : option ascii) (w rest : string) :
  is_class a = true -> Matches a prev w rest ->
  exists t, w = String t EmptyString /\ accepts a t = true.
Proof.
  intros Ha H. inversion H; subst; try discriminate Ha. now exists t.
Qed.

Lemma Matches_star_class_inv (a : regex) (prev : option ascii) (w rest : string) :
  is_class a = true -> Matches (Star a) prev w rest -> all_accept a w = true.
Proof.
  intros Ha H. remember (Star a) as r eqn:Hr.
  induction H as [ prev rest | r t prev rest Hacc | prev rest Hb
                 | a1 b1 prev w1 w2 rest H1 _ H2 _
                 | a' prev rest
                 | a' prev w1 w2 rest H1 _ H2 IH2
                 | a' prev w1 w2 rest H1 _ H2 _ ];
    try discriminate Hr.
  - subst r. discriminate Hacc.
  - reflexivity.
  - inversion Hr; subst a'.
    apply (Matches_class_inv Ha) in H1 as (t & -> & Ht).
    cbn [append all_accept]. rewrite Ht. now apply IH2.
Qed.

Lemma Matches_star_class_intro (a : regex) (prev : option ascii) (w rest : string) :
  all_accept a w = true -> Matches (Star a) prev w rest.
Proof.
  revert prev. induction w as [|t w IH]; intros prev H.
  - apply M_Star0.
  - cbn [all_accept] in H. apply andb_prop in H as [Ht Hw].
    change (String t w) with (String t EmptyString ++ w)%string.
    apply M_StarS; [now apply M_Char|now apply IH].
Qed.

Lemma Matches_star_seq_iff (a b : regex) (prev : option ascii) (w rest : string) :
  is_class a = true ->
  Matches (Seq (Star a) b) prev w rest
  <-> exists w1 w2, w = (w1 ++ w2)%string /\ all_accept a w1 = true
                    /\ Matches b (last_char prev w1) w2 rest.
Proof.
  intros Ha. split.
  - intros H. apply Matches_seq_inv in H as (w1 & w2 & -> & Hs & Hb).
    exists w1, w2. split; [reflexivity|]. split; [|exact Hb].
    now apply (Matches_star_class_inv Ha) in Hs.
  - intros (w1 & w2 & -> & Hs & Hb). apply M_Seq; [|exact Hb].
    now apply Matches_star_class_intro.
Qed.

Lemma Matches_class_seq_iff (a b : regex) (prev : option ascii) (w rest : string) :
  is_class a = true ->
  Matches (Seq a b) prev w rest
  <-> exists t w2, w = String t w2 /\ accepts a t = true
                   /\ Matches b (Some t) w2 rest.
Proof.
  intros Ha. split.
  - intros H. apply Matches_seq_inv in H as (w1 & w2 & -> & Hc & Hb).
    apply (Matches_class_inv Ha) in Hc as (t & -> & Ht).
    now exists t, w2.
  - intros (t & w2 & -> & Ht & Hb). now apply Matches_char_seq.
Qed.

Lemma Matches_plus_seq_iff (a b : regex) (prev : option ascii) (w rest : string) :
  is_class a = true ->
  Matches (Seq (Plus a) b) prev w rest
  <-> exists t w1 w2, w = String t (w1 ++ w2) /\ accepts a t = true
                      /\ all_accept a w1 = true
                      /\ Matches b (last_char (Some t) w1) w2 rest.
Proof.
  intros Ha. split.
  - intros H. apply Matches_seq_inv in H as (w0 & w2 & -> & Hp & Hb).
    inversion Hp; subst; [discriminate|].
    match goal with
    | H1 : Matches a prev ?u _, H2 : Matches (Star a) _ ?v _ |- _ =>
        apply (Matches_class_inv Ha) in H1 as (t & -> & Ht);
        apply (Matches_star_class_inv Ha) in H2; exists t, v, w2
    end.
    cbn [append last_char] in *. now repeat split.
  - intros (t & w1 & w2 & -> & Ht & Hs & Hb).
    change (String t (w1 ++ w2)) with (String t w1 ++ w2)%string.
    apply M_Seq; [|exact Hb].
    change (String t w1) with (String t EmptyString ++ w1)%string.
    apply M_Plus; [now apply M_Char|now apply Matches_star_class_intro].
Qed.

Lemma Matches_lits_iff (s : string) (r : regex) (prev : option ascii) (w rest : string) :
  Matches (lits s r) prev w rest
  <-> exists w1 w2, w = (w1 ++ w2)%string /\ PyStr.lower w1 = PyStr.lower s
                    /\ Matches r (last_char prev w1) w2 rest.
Proof.
  split; [apply Matches_lits_inv|].
  intros (w1 & w2 & -> & Hw & Hr). now apply Matches_lits.
Qed.

Lemma all_accept_Space (w : string) : all_accept Space w = all_space w.
Proof. induction w as [|t w IH]; simpl; [reflexivity|now rewrite IH]. Qed.

Lemma all_accept_Dot (w : string) :
  all_accept Dot w = true <-> count_char PyStr.LF w = 0.
Proof.
  induction w as [|t w IH]; cbn [all_accept count_char accepts]; [tauto|].
  destruct (Ascii.eqb t PyStr.LF); cbn [negb andb].
  - split; [discriminate|]. intros H. simpl in H. discriminate H.
  - exact IH.
Qed.

Lemma split_pieces_no_sep (sep : ascii) (s l : string) :
  In l (PyStr.split sep s) -> count_char sep l = 0.
Proof.
  revert l. induction s as [|c s IH]; intros l H.
  - destruct H as [<-|[]]. reflexivity.
  - cbn [PyStr.split] in H. destruct (Ascii.eqb c sep) eqn:Hc.
    + destruct H as [<-|H]; [reflexivity|now apply IH].
    + destruct (PyStr.split sep s) as [|l0 ls] eqn:Hs.
      * destruct H as [<-|[]]. simpl. now rewrite Hc.
      * destruct H as [<-|H].
        -- simpl. rewrite Hc. apply IH. now left.
        -- apply IH. now right.
Qed.

Lemma count_char_app (c : ascii) (s t : string) :
  count_char c (s ++ t)%string = count_char c s + count_char c t.
Proof. induction s as [|a s IH]; simpl; [reflexivity|]. rewrite IH. lia. Qed.

Lemma search_literal (s line : string) :
  search (lits s Eps) line = true
  <-> exists pre w post,
        line = (pre ++ w ++ post)%string /\ PyStr.lower w = PyStr.lower s.
Proof.
  rewrite search_spec. split.
  - intros (pre & w & post & -> & HM). apply Matches_lits_end_inv in HM.
    now exists pre, w, post.
  - intros (pre & w & post & -> & Hw). exists pre, w, post.
    split; [reflexivity|]. now apply Matches_lits_end.
Qed.

Lemma search_literal_gap_literal (s1 s2 line : string) :
  search (lits s1 (Seq (Star Dot) (lits s2 Eps))) line = true
  <-> exists pre w1 mid w2 post,
        line = (pre ++ w1 ++ mid ++ w2 ++ post)%string
        /\ PyStr.lower w1 = PyStr.lower s1
        /\ count_char PyStr.LF mid = 0
        /\ PyStr.lower w2 = PyStr.lower s2.
Proof.
  rewrite search_spec. split.
  - intros (pre & w & post & -> & HM).
    apply Matches_lits_inv in HM as (w1 & w' & -> & Hw1 & HM).
    apply (@Matches_star_seq_iff Dot _ _ _ _ eq_refl) in HM
      as (mid & w2 & -> & Hmid & HM).
    apply Matches_lits_end_inv in HM. apply all_accept_Dot in Hmid.
    exists pre, w1, mid, w2, post. rewrite !append_assoc. now repeat split.
  - intros (pre & w1 & mid & w2 & post & -> & Hw1 & Hmid & Hw2).
    exists pre, (w1 ++ mid ++ w2)%string, post.
    split; [now rewrite !append_assoc|].
    apply Matches_lits; [exact Hw1|].
    apply (@Matches_star_seq_iff Dot _ _ _ _ eq_refl).
    exists mid, w2. split; [reflexivity|]. split; [now apply all_accept_Dot|].
    now apply Matches_lits_end.
Qed.

Lemma line_no_newline (content line : string) (n : nat) :
  nth_error (PyStr.split PyStr.LF content) n = Some line ->
  count_char PyStr.LF line = 0.
Proof. intros H. apply nth_error_In in H. now apply split_pieces_no_sep in H. Qed.

(** X7.  In a file whose content is ASCII text, line [n] has a Command
    Injection finding exactly when it holds, in any case, the text
    [os.system(], or the text [subprocess.call(] with the text [shell=True]
    somewhere after it. *)
Theorem command_injection_iff (files : FileSet) (filename content line : string)
  (n : nat) :
  is_ascii_text content = true ->
  NoDup (PyDict.keys files) -> In (filename, content) files ->
  nth_error (PyStr.split PyStr.LF content) n = Some line ->
  In (mkFinding filename (S n) "Command Injection" (PyStr.strip line))
     (scan_security_issues files)
  <-> (exists pre w post,
         line = (pre ++ w ++ post)%string /\ PyStr.lower w = "os.system(")
      \/ (exists pre w1 mid w2 post,
            line = (pre ++ w1 ++ mid ++ w2 ++ post)%string
            /\ PyStr.lower w1 = "subprocess.call("
            /\ PyStr.lower w2 = "shell=true").
Proof.
  intros _.
  intros Hnd Hfile Hline. split.
  - intros Hf.
    apply (@finding_on_line files filename content line _ _ n Hnd Hfile Hline) in Hf
      as (vuln_type & regexes & regex & Hcat & Hre & Hs & Hty).
    unfold patterns in Hcat. cbn [In] in Hcat.
    destruct Hcat as [Hc|[Hc|[Hc|[Hc|[]]]]]; inversion Hc; subst;
      try (vm_compute in Hty; discriminate Hty).
    cbn [In] in Hre. destruct Hre as [<-|[<-|[]]].
    + left. now apply search_literal in Hs.
    + right. apply search_literal_gap_literal in Hs
        as (pre & w1 & mid & w2 & post & -> & Hw1 & _ & Hw2).
      now exists pre, w1, mid, w2, post.
  - intros [(pre & w & post & Heq & Hw)|(pre & w1 & mid & w2 & post & Heq & Hw1 & Hw2)].
    + apply (@finding_of_match files filename content line
               "command_injection" n [re_os_system; re_subprocess_shell]
               re_os_system Hfile Hline);
        [do 3 right; left; reflexivity|left; reflexivity|].
      apply search_literal. now exists pre, w, post.
    + apply (@finding_of_match files filename content line
               "command_injection" n [re_os_system; re_subprocess_shell]
               re_subprocess_shell Hfile Hline);
        [do 3 right; left; reflexivity|right; left; reflexivity|].
      apply search_literal_gap_literal. exists pre, w1, mid, w2, post.
      repeat split; try assumption.
      pose proof (@line_no_newline content line n Hline) as Hno. rewrite Heq in Hno.
      rewrite !count_char_app in Hno. lia.
Qed.

Lemma command_injection_iff_witness :
  In (mkFinding "c.py" 1 "Command Injection" "OS.System(cmd)")
     (scan_security_issues [("c.py", "  OS.System(cmd)")])
  <-> (exists pre w post,
         "  OS.System(cmd)" = (pre ++ w ++ post)%string /\ PyStr.lower w = "os.system(")
      \/ (exists pre w1 mid w2 post,
            "  OS.System(cmd)" = (pre ++ w1 ++ mid ++ w2 ++ post)%string
            /\ PyStr.lower w1 = "subprocess.call("
            /\ PyStr.lower w2 = "shell=true").
Proof.
  apply (@command_injection_iff [("c.py", "  OS.System(cmd)")] "c.py"
           "  OS.System(cmd)" "  OS.System(cmd)" 0).
  - reflexivity.
  - repeat constructor. simpl. intuition.
  - left. reflexivity.
  - reflexivity.
Defined.

Lemma unsafe_eval_iff_witness :
  In (mkFinding "s.py" 3 "Unsafe Eval" "return EVAL(x)")
     (scan_security_issues [("s.py", secrets_py)])
  <-> exists pre w post,
        "    return EVAL(x)" = (pre ++ w ++ post)%string
        /\ (PyStr.lower w = "eval(" \/ PyStr.lower w = "exec(")
        /\ is_word (last_char None pre) = false.
Proof.
  apply (@unsafe_eval_iff [("s.py", secrets_py)] "s.py" secrets_py
           "    return EVAL(x)" 2).
  - repeat constructor. simpl. intuition.
  - left. reflexivity.
  - reflexivity.
Defined.

Lemma accepts_Lit_plain (c t : ascii) :
  is_lowered (PyStr.lower_char c) = false -> PyStr.lower_char c = c ->
  accepts (Lit c) t = true <-> t = c.
Proof.
  intros Hlow Hc. cbn [accepts]. rewrite Ascii.eqb_eq, Hc. split.
  - intros H. apply lower_char_eq; [exact H|now rewrite <- Hc].
  - intros ->. exact Hc.
Qed.

Lemma search_assigned_literal (name line : string) :
  search (re_assigned_literal name) line = true
  <-> exists pre wn sp1 sp2 q1 body q2 post,
        line = (pre ++ wn ++ sp1 ++ eq_sign ++ sp2
                ++ String q1 (body ++ String q2 post))%string
        /\ PyStr.lower wn = PyStr.lower name
        /\ all_space sp1 = true /\ all_space sp2 = true
        /\ is_quote q1 = true /\ is_quote q2 = true
        /\ body <> EmptyString /\ no_quote body = true.
Proof.
  rewrite search_spec. unfold re_assigned_literal. split.
  - intros (pre & w & post & -> & HM).
    apply Matches_lits_inv in HM as (wn & w1 & -> & Hwn & HM).
    apply (@Matches_star_seq_iff Space _ _ _ _ eq_refl) in HM
      as (sp1 & w2 & -> & Hsp1 & HM).
    apply (@Matches_class_seq_iff (Lit "=") _ _ _ _ eq_refl) in HM
      as (e & w3 & -> & He & HM).
    apply (@accepts_Lit_plain "=" e eq_refl eq_refl) in He. subst e.
    apply (@Matches_star_seq_iff Space _ _ _ _ eq_refl) in HM
      as (sp2 & w4 & -> & Hsp2 & HM).
    apply (@Matches_class_seq_iff (OneOf quotes) _ _ _ _ eq_refl) in HM
      as (q1 & w5 & -> & Hq1 & HM).
    apply (@Matches_plus_seq_iff (NoneOf quotes) _ _ _ _ eq_refl) in HM
      as (t & b1 & w6 & -> & Ht & Hb1 & HM).
    apply (@Matches_class_seq_iff (OneOf quotes) _ _ _ _ eq_refl) in HM
      as (q2 & w7 & -> & Hq2 & HM).
    apply Matches_Eps_inv in HM. subst w7.
    rewrite all_accept_Space in Hsp1, Hsp2.
    exists pre, wn, sp1, sp2, q1, (String t b1), q2, post.
    split.
    { unfold eq_sign. repeat (rewrite ?append_assoc; progress cbn [append]).
      now rewrite ?append_assoc. }
    repeat split; try assumption; [discriminate|].
    unfold no_quote. cbn [all_accept]. now rewrite Ht, Hb1.
  - intros (pre & wn & sp1 & sp2 & q1 & body & q2 & post
            & -> & Hwn & Hsp1 & Hsp2 & Hq1 & Hq2 & Hne & Hbody).
    destruct body as [|t b1]; [contradiction|].
    unfold no_quote in Hbody. cbn [all_accept] in Hbody.
    apply andb_prop in Hbody as [Ht Hb1].
    exists pre,
      (wn ++ sp1 ++ String "=" (sp2 ++ String q1 (String t (b1 ++ String q2 EmptyString))))%string,
      post.
    split.
    { unfold eq_sign. repeat (rewrite ?append_assoc; progress cbn [append]).
      now rewrite ?append_assoc. }
    apply Matches_lits; [exact Hwn|].
    apply (@Matches_star_seq_iff Space _ _ _ _ eq_refl).
    eexists sp1, _. split; [reflexivity|].
    split; [now rewrite all_accept_Space|].
    apply Matches_char_seq; [reflexivity|].
    apply (@Matches_star_seq_iff Space _ _ _ _ eq_refl).
    eexists sp2, _. split; [reflexivity|].
    split; [now rewrite all_accept_Space|].
    apply Matches_char_seq; [exact Hq1|].
    apply (@Matches_plus_seq_iff (NoneOf quotes) _ _ _ _ eq_refl).
    exists t, b1, (String q2 EmptyString). split; [reflexivity|].
    split; [exact Ht|]. split; [exact Hb1|].
    apply Matches_char_seq; [exact Hq2|apply M_Eps].
Qed.

(** X8.  In a file whose content is ASCII text, line [n] has a Hardcoded
    Secrets finding exactly when it holds, in any case, the name [password]
    or [api_key], then optional whitespace, an equals sign, optional
    whitespace, a quote, one or more characters that are no quotes, and a
    quote. *)
Theorem hardcoded_secrets_iff (files : FileSet) (filename content line : string)
  (n : nat) :
  is_ascii_text content = true ->
  NoDup (PyDict.keys files) -> In (filename, content) files ->
  nth_error (PyStr.split PyStr.LF content) n = Some line ->
  In (mkFinding filename (S n) "Hardcoded Secrets" (PyStr.strip line))
     (scan_security_issues files)
  <-> exists pre name sp1 sp2 q1 body q2 post,
        line = (pre ++ name ++ sp1 ++ eq_sign ++ sp2
                ++ String q1 (body ++ String q2 post))%string
        /\ (PyStr.lower name = "password" \/ PyStr.lower name = "api_key")
        /\ all_space sp1 = true /\ all_space sp2 = true
        /\ is_quote q1 = true /\ is_quote q2 = true
        /\ body <> EmptyString /\ no_quote body = true.
Proof.
  intros _.
  intros Hnd Hfile Hline. split.
  - intros Hf.
    apply (@finding_on_line files filename content line _ _ n Hnd Hfile Hline) in Hf
      as (vuln_type & regexes & regex & Hcat & Hre & Hs & Hty).
    unfold patterns in Hcat. cbn [In] in Hcat.
    destruct Hcat as [Hc|[Hc|[Hc|[Hc|[]]]]]; inversion Hc; subst;
      try (vm_compute in Hty; discriminate Hty).
    cbn [In] in Hre.
    destruct Hre as [<-|[<-|[]]];
      apply search_assigned_literal in Hs
        as (pre & wn & sp1 & sp2 & q1 & body & q2 & post & -> & Hwn & Hrest);
      exists pre, wn, sp1, sp2, q1, body, q2, post;
      (split; [reflexivity|]); (split; [|exact Hrest]); [left|right]; exact Hwn.
  - intros (pre & name & sp1 & sp2 & q1 & body & q2 & post & Heq & [Hn|Hn] & Hrest).
    + apply (@finding_of_match files filename content line
               "hardcoded_secrets" n [re_password; re_api_key]
               re_password Hfile Hline);
        [right; left; reflexivity|left; reflexivity|].
      apply search_assigned_literal.
      now exists pre, name, sp1, sp2, q1, body, q2, post.
    + apply (@finding_of_match files filename content line
               "hardcoded_secrets" n [re_password; re_api_key]
               re_api_key Hfile Hline);
        [right; left; reflexivity|right; left; reflexivity|].
      apply search_assigned_literal.
      now exists pre, name, sp1, sp2, q1, body, q2, post.
Qed.

Lemma hardcoded_secrets_iff_witness :
  In (mkFinding "k.py" 1 "Hardcoded Secrets" "API_KEY   =  'k'")
     (scan_security_issues [("k.py", "API_KEY   =  'k'")])
  <-> exists pre name sp1 sp2 q1 body q2 post,
        "API_KEY   =  'k'" = (pre ++ name ++ sp1 ++ eq_sign ++ sp2
                               ++ String q1 (body ++ String q2 post))%string
        /\ (PyStr.lower name = "password" \/ PyStr.lower name = "api_key")
        /\ all_space sp1 = true /\ all_space sp2 = true
        /\ is_quote q1 = true /\ is_quote q2 = true
        /\ body <> EmptyString /\ no_quote body = true.
Proof.
  apply (@hardcoded_secrets_iff [("k.py", "API_KEY   =  'k'")] "k.py"
           "API_KEY   =  'k'" "API_KEY   =  'k'" 0).
  - reflexivity.
  - repeat constructor. simpl. intuition.
  - left. reflexivity.
  - reflexivity.
Defined.

Lemma search_sql_format (line : string) :
  search re_sql_format line = true
  <-> exists pre w sp1 sp2 q mid fmt post,
        line = (pre ++ w ++ sp1 ++ open_paren ++ sp2
                ++ String q (mid ++ fmt ++ post))%string
        /\ PyStr.lower w = "execute"
        /\ all_space sp1 = true /\ all_space sp2 = true
        /\ is_quote q = true
        /\ count_char PyStr.LF mid = 0
        /\ PyStr.lower fmt = "%s".
Proof.
  rewrite search_spec. unfold re_sql_format. split.
  - intros (pre & w0 & post & -> & HM).
    apply Matches_lits_inv in HM as (w & w1 & -> & Hw & HM).
    apply (@Matches_star_seq_iff Space _ _ _ _ eq_refl) in HM
      as (sp1 & w2 & -> & Hsp1 & HM).
    apply (@Matches_class_seq_iff (Lit "(") _ _ _ _ eq_refl) in HM
      as (e & w3 & -> & He & HM).
    apply (@accepts_Lit_plain "(" e eq_refl eq_refl) in He. subst e.
    apply (@Matches_star_seq_iff Space _ _ _ _ eq_refl) in HM
      as (sp2 & w4 & -> & Hsp2 & HM).
    apply (@Matches_class_seq_iff (OneOf quotes) _ _ _ _ eq_refl) in HM
      as (q & w5 & -> & Hq & HM).
    apply (@Matches_star_seq_iff Dot _ _ _ _ eq_refl) in HM
      as (mid & fmt & -> & Hmid & HM).
    apply Matches_lits_end_inv in HM. apply all_accept_Dot in Hmid.
    rewrite all_accept_Space in Hsp1, Hsp2.
    exists pre, w, sp1, sp2, q, mid, fmt, post. split.
    { unfold open_paren. repeat (rewrite ?append_assoc; progress cbn [append]).
      now rewrite ?append_assoc. }
    now repeat split.
  - intros (pre & w & sp1 & sp2 & q & mid & fmt & post
            & -> & Hw & Hsp1 & Hsp2 & Hq & Hmid & Hfmt).
    exists pre, (w ++ sp1 ++ String "(" (sp2 ++ String q (mid ++ fmt)))%string, post.
    split.
    { unfold open_paren. repeat (rewrite ?append_assoc; progress cbn [append]).
      now rewrite ?append_assoc. }
    apply Matches_lits; [exact Hw|].
    apply (@Matches_star_seq_iff Space _ _ _ _ eq_refl).
    eexists sp1, _. split; [reflexivity|].
    split; [now rewrite all_accept_Space|].
    apply Matches_char_seq; [reflexivity|].
    apply (@Matches_star_seq_iff Space _ _ _ _ eq_refl).
    eexists sp2, _. split; [reflexivity|].
    split; [now rewrite all_accept_Space|].
    apply Matches_char_seq; [exact Hq|].
    apply (@Matches_star_seq_iff Dot _ _ _ _ eq_refl).
    exists mid, fmt. split; [reflexivity|]. split; [now apply all_accept_Dot|].
    now apply Matches_lits_end.
Qed.

Lemma lower_plus_inv (w : string) : PyStr.lower w = "+" <-> w = "+".
Proof.
  split; [|now intros ->].
  intros H. apply lower_cons_inv in H as (t & w' & -> & Ht & Hw').
  apply lower_nil_inv in Hw'. subst w'.
  apply lower_char_eq in Ht; [now subst t|reflexivity].
Qed.

(** X9.  In a file whose content is ASCII text, line [n] has a Sql Injection
    finding exactly when it holds, in any case, the text [execute], optional
    whitespace, an opening parenthesis, optional whitespace and a quote, with
    the format mark [%s] somewhere after them; or the text [cursor.execute]
    with a plus sign somewhere after it. *)
Theorem sql_injection_iff (files : FileSet) (filename content line : string)
  (n : nat) :
  is_ascii_text content = true ->
  NoDup (PyDict.keys files) -> In (filename, content) files ->
  nth_error (PyStr.split PyStr.LF content) n = Some line ->
  In (mkFinding filename (S n) "Sql Injection" (PyStr.strip line))
     (scan_security_issues files)
  <-> (exists pre w sp1 sp2 q mid fmt post,
         line = (pre ++ w ++ sp1 ++ open_paren ++ sp2
                 ++ String q (mid ++ fmt ++ post))%string
         /\ PyStr.lower w = "execute"
         /\ all_space sp1 = true /\ all_space sp2 = true
         /\ is_quote q = true /\ PyStr.lower fmt = "%s")
      \/ (exists pre w mid post,
            line = (pre ++ w ++ mid ++ plus_sign ++ post)%string
            /\ PyStr.lower w = "cursor.execute").
Proof.
  intros _.
  intros Hnd Hfile Hline.
  pose proof (@line_no_newline content line n Hline) as Hno. split.
  - intros Hf.
    apply (@finding_on_line files filename content line _ _ n Hnd Hfile Hline) in Hf
      as (vuln_type & regexes & regex & Hcat & Hre & Hs & Hty).
    unfold patterns in Hcat. cbn [In] in Hcat.
    destruct Hcat as [Hc|[Hc|[Hc|[Hc|[]]]]]; inversion Hc; subst;
      try (vm_compute in Hty; discriminate Hty).
    cbn [In] in Hre. destruct Hre as [<-|[<-|[]]].
    + left. apply search_sql_format in Hs
        as (pre & w & sp1 & sp2 & q & mid & fmt & post
            & -> & Hw & Hsp1 & Hsp2 & Hq & _ & Hfmt).
      now exists pre, w, sp1, sp2, q, mid, fmt, post.
    + right. apply (search_literal_gap_literal "cursor.execute" "+") in Hs
        as (pre & w1 & mid & w2 & post & -> & Hw1 & _ & Hw2).
      apply (proj1 (lower_plus_inv w2)) in Hw2. subst w2.
      now exists pre, w1, mid, post.
  - intros [(pre & w & sp1 & sp2 & q & mid & fmt & post
             & Heq & Hw & Hsp1 & Hsp2 & Hq & Hfmt)
           |(pre & w & mid & post & Heq & Hw)].
    + apply (@finding_of_match files filename content line
               "sql_injection" n [re_sql_format; re_sql_concat]
               re_sql_format Hfile Hline);
        [left; reflexivity|left; reflexivity|].
      apply search_sql_format. exists pre, w, sp1, sp2, q, mid, fmt, post.
      repeat split; try assumption.
      rewrite Heq in Hno. rewrite !count_char_app in Hno.
      cbn [count_char] in Hno. rewrite !count_char_app in Hno. lia.
    + apply (@finding_of_match files filename content line
               "sql_injection" n [re_sql_format; re_sql_concat]
               re_sql_concat Hfile Hline);
        [left; reflexivity|right; left; reflexivity|].
      apply (search_literal_gap_literal "cursor.execute" "+").
      exists pre, w, mid, plus_sign, post. repeat split; try assumption.
      rewrite Heq in Hno. rewrite !count_char_app in Hno. lia.
Qed.

Lemma sql_injection_iff_witness :
  In (mkFinding "q.py" 1 "Sql Injection" "cursor.execute(q + x)")
     (scan_security_issues [("q.py", "cursor.execute(q + x)")])
  <-> (exists pre w sp1 sp2 q mid fmt post,
         "cursor.execute(q + x)"
         = (pre ++ w ++ sp1 ++ open_paren ++ sp2
            ++ String q (mid ++ fmt ++ post))%string
         /\ PyStr.lower w = "execute"
         /\ all_space sp1 = true /\ all_space sp2 = true
         /\ is_quote q = true /\ PyStr.lower fmt = "%s")
      \/ (exists pre w mid post,
            "cursor.execute(q + x)" = (pre ++ w ++ mid ++ plus_sign ++ post)%string
            /\ PyStr.lower w = "cursor.execute").
Proof.
  apply (@sql_injection_iff [("q.py", "cursor.execute(q + x)")] "q.py"
           "cursor.execute(q + x)" "cursor.execute(q + x)" 0).
  - reflexivity.
  - repeat constructor. simpl. intuition.
  - left. reflexivity.
  - reflexivity.
Defined.


(** ** PromptBuilder: the size of the prompt *)

Lemma truncate_content_length (content : string) :
  String.length (truncate_content content) <= max_chars + 19.
Proof.
  unfold truncate_content.
  destruct (Nat.ltb_spec max_chars (String.length content)) as [Hlong|Hshort].
  - rewrite length_append, take_length by now apply Nat.lt_le_incl.
    apply Nat.le_refl.
  - apply (Nat.le_trans _ max_chars); [exact Hshort|apply Nat.le_add_r].
Qed.

Lemma file_section_length (filename content : string) :
  String.length (file_section filename content)
  = String.length filename + String.length (truncate_content content) + 39.
Proof.
  unfold file_section, nl. rewrite !length_append. cbn [String.length].
  generalize (String.length (truncate_content content)) (String.length filename).
  intros a b. lia.
Qed.

Lemma join_length_le (sep : string) (parts : list string) :
  String.length (PyStr.join sep parts)
  <= list_sum (map (fun p => String.length p + String.length sep) parts).
Proof.
  unfold PyStr.join. induction parts as [|p parts IH]; [apply Nat.le_refl|].
  destruct parts as [|p' parts].
  - simpl. lia.
  - change (String.concat sep (p :: p' :: parts))
      with (p ++ sep ++ String.concat sep (p' :: parts))%string.
    rewrite !length_append. unfold list_sum in *. cbn [map fold_right] in *. lia.
Qed.

(** X10.  The prompt is bounded whatever the sizes of the uploads: the
    section of a file is at most its name, the budget of [max_chars]
    characters and 58 characters of markers long, exactly that long for a
    content over the budget, and the whole prompt is at most the sum over the
    files of name length plus [max_chars] plus 59. *)
Theorem prompt_size_bounded (files : FileSet) :
  String.length (_build_prompt_from_files files) <= prompt_bound files
  /\ forall filename content,
       String.length (file_section filename content)
       <= String.length filename + (max_chars + 58)
       /\ (max_chars < String.length content ->
           String.length (file_section filename content)
           = String.length filename + (max_chars + 58)).
Proof.
  split.
  - unfold _build_prompt_from_files, prompt_parts, prompt_bound.
    rewrite prompt_parts_loop. cbn [app].
    eapply Nat.le_trans; [apply join_length_le|]. rewrite map_map.
    induction files as [|[fn c] files IH]; [apply Nat.le_refl|].
    unfold list_sum in *. cbn [map fold_right fst snd]. rewrite file_section_length.
    pose proof (truncate_content_length c) as Hc. revert Hc IH.
    generalize (String.length (truncate_content c)). generalize max_chars.
    intros m l Hc IH. change (String.length nl) with 1 in *. lia.
  - intros filename content. rewrite file_section_length. split.
    + pose proof (truncate_content_length content) as Hc. revert Hc.
      generalize (String.length (truncate_content content)). generalize max_chars.
      intros m l Hc. lia.
    + intros Hlong. rewrite (truncate_long content Hlong).
      rewrite length_append, take_length by now apply Nat.lt_le_incl.
      generalize max_chars. intros m.
      change (String.length truncation_marker) with 19. lia.
Qed.

(** ** ResponseNormalizer: the summary of the fallback *)





(** ** ReviewOrchestrator: when a review is returned and when it fails *)

Section PipelineOutcomes.

Variable GROQ_API_KEY : option string.
Variable AI_MODEL : string.
Variable requests_post : Request -> lib_exn + Response.
Variable json_loads : string -> option pyval.
Variable str_nat : nat -> string.
Variable str_float : Q -> string.
Variable warning_sign : string.

Local Abbreviation run :=
  (run_review GROQ_API_KEY AI_MODEL requests_post json_loads
              str_nat str_float warning_sign).

Local Abbreviation request_of files :=
  (build_request GROQ_API_KEY AI_MODEL str_nat str_float warning_sign
     (calculate_code_metrics files) (scan_security_issues files)
     (_build_prompt_from_files files)).

Lemma run_after_post (files : FileSet) :
  key_missing GROQ_API_KEY = false ->
  run files
  = match requests_post (request_of files) with
    | inl e => ([request_of files], inl (Lib e))
    | inr response =>
        if ((400 <=? status_code response) && (status_code response <? 600))%Z
        then ([request_of files], inl (Lib (HTTPError (status_code response))))
        else match body response with
             | None => ([request_of files], inl (Lib JSONDecodeError))
             | Some data =>
                 match completion_content data with
                 | inl e => ([request_of files], inl (Lib e))
                 | inr content =>
                     normalize json_loads content (calculate_code_metrics files)
                               [request_of files]
                 end
             end
    end.
Proof.
  intros Hk. unfold run_review, review_code_with_llm. rewrite Hk. cbv zeta.
  unfold bind at 1. unfold post at 1. cbn [app].
  destruct (requests_post (request_of files)) as [e|response]; [reflexivity|].
  unfold bind at 1. unfold raise_for_status.
  destruct ((400 <=? status_code response) && (status_code response <? 600))%Z;
    [reflexivity|].
  unfold ret at 1. unfold bind at 1. unfold response_json.
  destruct (body response) as [data|]; [|reflexivity].
  unfold ret at 1. unfold bind at 1.
  destruct (completion_content data) as [e|content]; reflexivity.
Qed.

(** X12.  The pipeline returns a review exactly when a credential is set,
    the endpoint answers the one request with a status outside 400..599 and
    a body that decodes, and the first choice of the body has a message whose
    content is a string; the review is then what the normalizer makes of
    that string. *)
Theorem review_returned_iff (files : FileSet) (log : list Request) (r : ReviewResult) :
  run files = (log, inr r)
  <-> key_missing GROQ_API_KEY = false
      /\ log = [request_of files]
      /\ exists status data text,
           requests_post (request_of files) = inr (mkResponse status (Some data))
           /\ (status < 400 \/ 600 <= status)%Z
           /\ completion_content data = inr (PStr text)
           /\ normalize json_loads (PStr text) (calculate_code_metrics files) log
              = (log, inr r).
Proof.
  split.
  - intros Hrun.
    destruct (key_missing GROQ_API_KEY) eqn:Hk.
    { unfold run_review, review_code_with_llm in Hrun. rewrite Hk in Hrun.
      discriminate Hrun. }
    rewrite (run_after_post files Hk) in Hrun.
    destruct (requests_post (request_of files)) as [e|[status decoded]];
      [discriminate Hrun|].
    cbn [status_code body] in Hrun.
    destruct ((400 <=? status) && (status <? 600))%Z eqn:Hst; [discriminate Hrun|].
    destruct decoded as [data|]; [|discriminate Hrun].
    destruct (completion_content data) as [e|content] eqn:Hc; [discriminate Hrun|].
    destruct content; try discriminate Hrun.
    assert (Hlog : log = [request_of files]).
    { unfold normalize in Hrun.
      destruct (json_loads s) as [[]|]; unfold ret in Hrun; now inversion Hrun. }
    split; [reflexivity|]. split; [exact Hlog|].
    exists status, data, s. split; [reflexivity|].
    split; [apply andb_false_iff in Hst; lia|]. split; [exact Hc|].
    rewrite Hlog in Hrun |- *. exact Hrun.
  - intros (Hk & -> & status & data & text & Hpost & Hst & Hc & Hn).
    rewrite (run_after_post files Hk), Hpost. cbn [status_code body].
    replace ((400 <=? status)%Z && (status <? 600)%Z)%bool with false
      by (symmetry; apply andb_false_iff; lia).
    now rewrite Hc.
Qed.

(** X13.  With a credential set, a failure of any stage after the request
    is the outcome of the call, and no review or fallback is produced: an
    exception of the transport, an error status, a body that does not decode,
    a body without the expected entries, and a completion that is no string
    (the handler of the parse failure calls [strip] on it). *)
Theorem review_fails_with_first_error (files : FileSet) :
  key_missing GROQ_API_KEY = false ->
  (forall e,
      requests_post (request_of files) = inl e ->
      run files = ([request_of files], inl (Lib e)))
  /\ (forall status decoded,
        requests_post (request_of files) = inr (mkResponse status decoded) ->
        (400 <= status < 600)%Z ->
        run files = ([request_of files], inl (Lib (HTTPError status))))
  /\ (forall status,
        requests_post (request_of files) = inr (mkResponse status None) ->
        (status < 400 \/ 600 <= status)%Z ->
        run files = ([request_of files], inl (Lib JSONDecodeError)))
  /\ (forall status data e,
        requests_post (request_of files) = inr (mkResponse status (Some data)) ->
        (status < 400 \/ 600 <= status)%Z ->
        completion_content data = inl e ->
        run files = ([request_of files], inl (Lib e)))
  /\ (forall status data content,
        requests_post (request_of files) = inr (mkResponse status (Some data)) ->
        (status < 400 \/ 600 <= status)%Z ->
        completion_content data = inr content ->
        (forall text, content <> PStr text) ->
        run files = ([request_of files], inl (Lib AttributeError))).
Proof.
  intros Hk. rewrite (run_after_post files Hk).
  assert (Hok : forall status, (status < 400 \/ 600 <= status)%Z ->
                ((400 <=? status)%Z && (status <? 600)%Z)%bool = false)
    by (intros; apply andb_false_iff; lia).
  repeat split.
  - intros e ->. reflexivity.
  - intros status decoded -> Hst. cbn [status_code].
    replace ((400 <=? status)%Z && (status <? 600)%Z)%bool with true
      by (symmetry; apply andb_true_iff; lia).
    reflexivity.
  - intros status -> Hst. cbn [status_code body]. now rewrite (Hok _ Hst).
  - intros status data e -> Hst Hc. cbn [status_code body].
    now rewrite (Hok _ Hst), Hc.
  - intros status data content -> Hst Hc Hns. cbn [status_code body].
    rewrite (Hok _ Hst), Hc. unfold normalize.
    destruct content; try reflexivity. now contradiction (Hns s).
Qed.

End PipelineOutcomes.

Lemma review_fails_with_first_error_witness :
  run_review sample_key "llama" (sample_post PNone) sample_json_loads
             sample_str_nat sample_str_float "!" sample_files
  = ([build_request sample_key "llama" sample_str_nat sample_str_float "!"
        (calculate_code_metrics sample_files) (scan_security_issues sample_files)
        (_build_prompt_from_files sample_files)],
     inl (Lib AttributeError)).
Proof.
  destruct (@review_fails_with_first_error sample_key "llama" (sample_post PNone)
              sample_json_loads sample_str_nat sample_str_float "!" sample_files
              eq_refl) as (_ & _ & _ & _ & Hcontent).
  apply (Hcontent 200%Z
           (PDict [("choices",
                    PList [PDict [("message", PDict [("content", PNone)])]])])
           PNone eq_refl (or_introl eq_refl) eq_refl).
  intros text. discriminate.
Defined.

(** ** Typed issues: entries that do not validate *)

Section IssueFailures.

Variable validate_str : pyval -> option string.
Variable validate_int : pyval -> option Z.

Local Abbreviation init := (Issue_init validate_str validate_int).
Local Abbreviation models := (issue_models validate_str validate_int).

Lemma issue_models_error_kind (issues : list pyval) (e : lib_exn) :
  models issues = inl e -> e = ValidationError.
Proof.
  induction issues as [|v issues IH]; [discriminate|].
  destruct v; simpl; try exact IH.
  destruct (init d); [|intros H; now inversion H].
  destruct (models issues) as [e'|l]; [|discriminate].
  intros H. inversion H; subst. now apply IH.
Qed.

(** X14.  One mapping that does not validate, wherever it stands in the
    list, makes the conversion of [review_code] raise the validation error,
    and makes [get_report] return no issue at all. *)
Theorem invalid_mapping_fails_conversion (issues : list pyval) (d : PyDict.dict pyval) :
  In (PDict d) issues -> init d = None ->
  models issues = inl ValidationError
  /\ get_report_issues validate_str validate_int (PList issues) = [].
Proof.
  intros Hin Hbad.
  assert (Hm : models issues = inl ValidationError).
  { induction issues as [|v issues IH]; [contradiction|].
    destruct Hin as [->|Hin].
    - simpl. now rewrite Hbad.
    - specialize (IH Hin). destruct v; simpl; try exact IH.
      destruct (init d0); [now rewrite IH|reflexivity]. }
  split; [exact Hm|]. unfold get_report_issues. now rewrite Hm.
Qed.

Lemma required_present (k : string) (d : PyDict.dict pyval) (i : Issue) :
  In k required_fields -> init d = Some i -> PyDict.get k d <> None.
Proof.
  intros Hk Hi Hnone.
  rewrite (@Issue_init_requires validate_str validate_int k d Hk Hnone) in Hi.
  discriminate Hi.
Qed.

(** X15.  An entry without one of the eight required fields is rejected,
    whatever the validators of the fields accept; [code_patch] may be
    absent, and the issue made of such an entry has the empty patch. *)
Theorem issue_required_fields (d : PyDict.dict pyval) :
  (forall k, In k required_fields -> PyDict.get k d = None -> init d = None)
  /\ (forall i, init d = Some i ->
                forall k, In k required_fields -> PyDict.get k d <> None)
  /\ (forall i, init d = Some i -> PyDict.get "code_patch" d = None ->
                issue_code_patch i = Some EmptyString).
Proof.
  split; [intros k Hk; now apply (@Issue_init_requires validate_str validate_int k d)|].
  split; [intros i Hi k Hk; now apply (@required_present k d i Hk Hi)|].
  intros i Hi Hcp. unfold Issue_init, obind, optional_str in Hi.
  rewrite Hcp in Hi.
  repeat match type of Hi with
         | match ?x with _ => _ end = Some _ =>
             destruct x; [|discriminate Hi]
         end.
  now inversion Hi.
Qed.

End IssueFailures.

Lemma invalid_mapping_fails_conversion_witness :
  issue_models exact_str exact_int [complete_entry; PStr "x"; partial_entry]
  = inl ValidationError
  /\ get_report_issues exact_str exact_int
       (PList [complete_entry; PStr "x"; partial_entry]) = [].
Proof.
  apply (@invalid_mapping_fails_conversion exact_str exact_int
           [complete_entry; PStr "x"; partial_entry]
           [("id", PStr "I2"); ("message", PStr "no file given")]).
  - right. right. left. reflexivity.
  - reflexivity.
Defined.


(** ** The dashboard helpers *)

Lemma has_char_app (c : ascii) (s t : string) :
  has_char c (s ++ t)%string = has_char c s || has_char c t.
Proof.
  induction s as [|a s IH]; simpl; [reflexivity|]. rewrite IH. apply orb_assoc.
Qed.

Lemma after_last_no_sep (sep : ascii) (s : string) :
  has_char sep s = false -> after_last sep s = s.
Proof.
  destruct s as [|c s]; [reflexivity|]. cbn [has_char after_last].
  intros H. apply orb_false_iff in H as [Hc Hs]. now rewrite Hs, Hc.
Qed.

Lemma after_last_spec (sep : ascii) (base ext : string) :
  has_char sep ext = false ->
  after_last sep (base ++ String sep ext)%string = ext.
Proof.
  intros Hext. induction base as [|c base IH].
  - cbn [append after_last]. rewrite Hext. now rewrite Ascii.eqb_refl.
  - cbn [append after_last]. rewrite has_char_app. cbn [has_char].
    rewrite Ascii.eqb_refl, orb_true_r. exact IH.
Qed.

(** X16.  The language of a filename is decided by the text after its last
    dot, taken in lower case: a known extension gives its language, any
    other gives Unknown with the extension in parentheses, and a name
    without a dot gives Unknown. *)
Theorem language_from_last_extension (base ext : string) :
  has_char dot ext = false ->
  detect_language_from_filename (base ++ String dot ext)%string
  = match PyDict.get (PyStr.lower ext) EXTENSION_LANG_MAP with
    | Some lang => lang
    | None => ("Unknown (" ++ PyStr.lower ext ++ ")")%string
    end
  /\ detect_language_from_filename ext = "Unknown".
Proof.
  intros Hext. unfold detect_language_from_filename. split.
  - rewrite has_char_app. cbn [has_char]. rewrite Ascii.eqb_refl, orb_true_r.
    cbn [negb]. now rewrite after_last_spec.
  - now rewrite Hext.
Qed.

Lemma language_from_last_extension_witness :
  detect_language_from_filename "pkg.v2/Main.test.PY" = "Python"
  /\ detect_language_from_filename "PY" = "Unknown".
Proof.
  exact (@language_from_last_extension "pkg.v2/Main.test" "PY" eq_refl).
Defined.

Lemma group_of_add (sev k : string) (issue : pyval) (grouped : PyDict.dict (list pyval)) :
  group_of sev (group_add k issue grouped)
  = group_of sev grouped ++ (if String.eqb sev k then [issue] else []).
Proof.
  unfold group_of. induction grouped as [|[k' l] rest IH]; cbn [group_add PyDict.get].
  - destruct (String.eqb sev k); reflexivity.
  - destruct (String.eqb_spec k k') as [->|Hkk'].
    + cbn [PyDict.get]. destruct (String.eqb sev k'); [reflexivity|].
      now rewrite app_nil_r.
    + cbn [PyDict.get]. destruct (String.eqb_spec sev k') as [->|Hsk'].
      * apply String.eqb_neq in Hkk'. rewrite String.eqb_sym in Hkk'.
        rewrite Hkk'. now rewrite app_nil_r.
      * exact IH.
Qed.

Lemma keys_group_add (k : string) (issue : pyval) (grouped : PyDict.dict (list pyval)) :
  incl (PyDict.keys (group_add k issue grouped)) (k :: PyDict.keys grouped)
  /\ (NoDup (PyDict.keys grouped) -> NoDup (PyDict.keys (group_add k issue grouped))).
Proof.
  induction grouped as [|[k' l] rest [IHi IHn]]; cbn [group_add PyDict.keys map fst].
  - split; [apply incl_refl|]. intros _. repeat constructor. intros [].
  - destruct (String.eqb_spec k k') as [->|Hne]; cbn [PyDict.keys map fst].
    + split; [apply incl_tl, incl_refl|auto].
    + split.
      * intros x [<-|Hx]; [right; now left|].
        apply IHi in Hx as [<-|Hx]; [now left|right; now right].
      * intros Hnd. inversion Hnd as [|? ? Hnotin Hnd']; subst.
        constructor; [|now apply IHn].
        intros Hin. apply IHi in Hin as [Heq|Hin]; [now apply Hne|now apply Hnotin].
Qed.

Lemma nonempty_group_add (k : string) (issue : pyval) (grouped : PyDict.dict (list pyval)) :
  Forall (fun entry => snd entry <> []) grouped ->
  Forall (fun entry => snd entry <> []) (group_add k issue grouped).
Proof.
  induction grouped as [|[k' l] rest IH]; intros H; cbn [group_add].
  - constructor; [discriminate|constructor].
  - inversion H as [|? ? Hl Hrest]; subst.
    destruct (String.eqb k k'); constructor; auto.
    cbn [snd]. intros Heq. now apply app_eq_nil in Heq as [_ Heq].
Qed.

Lemma mem_str_In (x : string) (l : list string) : mem_str x l = true <-> In x l.
Proof.
  induction l as [|y l IH]; cbn [mem_str In]; [split; [discriminate|tauto]|].
  rewrite orb_true_iff, IH, String.eqb_eq. split; intros [H|H]; auto.
Qed.

Lemma severity_key_in_order (issue : pyval) (sev : string) :
  severity_key issue = inr sev -> In sev SEVERITY_ORDER.
Proof.
  unfold severity_key. destruct issue; try discriminate.
  match goal with |- match ?v with _ => _ end = _ -> _ => destruct v end;
    try discriminate.
  destruct (mem_str (PyStr.lower s) SEVERITY_ORDER) eqn:Hm;
    intros H; injection H as <-.
  - now apply mem_str_In.
  - unfold SEVERITY_ORDER. cbn [In]. tauto.
Qed.

(** The loop of [group_issues_by_severity], from any accumulator. *)
Lemma group_loop (issues : list pyval) (grouped0 : PyDict.dict (list pyval)) :
  Forall (fun i => exists sev, severity_key i = inr sev) issues ->
  exists grouped,
    fold_left
      (fun acc issue =>
         match acc with
         | inl e => inl e
         | inr grouped =>
             match severity_key issue with
             | inl e => inl e
             | inr sev => inr (group_add sev issue grouped)
             end
         end)
      issues (inr grouped0) = inr grouped
    /\ (forall sev, group_of sev grouped
                    = group_of sev grouped0 ++ with_severity sev issues)
    /\ incl (PyDict.keys grouped) (PyDict.keys grouped0 ++ SEVERITY_ORDER)
    /\ (NoDup (PyDict.keys grouped0) -> NoDup (PyDict.keys grouped))
    /\ (Forall (fun entry => snd entry <> []) grouped0 ->
        Forall (fun entry => snd entry <> []) grouped).
Proof.
  revert grouped0. induction issues as [|i issues IH]; intros grouped0 Hall.
  - exists grouped0. split; [reflexivity|]. split.
    + intros sev. cbn. now rewrite app_nil_r.
    + split; [apply incl_appl, incl_refl|]. split; auto.
  - inversion Hall as [|? ? [sev0 Hi] Hall']; subst.
    cbn [fold_left]. rewrite Hi.
    destruct (IH (group_add sev0 i grouped0) Hall')
      as (grouped & Hfold & Hgroups & Hkeys & Hnd & Hne).
    exists grouped. split; [exact Hfold|]. split.
    + intros sev. rewrite Hgroups, group_of_add. unfold with_severity.
      cbn [filter]. rewrite Hi. rewrite (String.eqb_sym sev0 sev).
      destruct (String.eqb sev sev0); now rewrite <- app_assoc.
    + split.
      * intros x Hx. apply Hkeys in Hx. apply in_app_or in Hx as [Hx|Hx].
        -- apply (proj1 (keys_group_add sev0 i grouped0)) in Hx as [<-|Hx].
           ++ apply in_or_app. right. now apply (severity_key_in_order i).
           ++ apply in_or_app. now left.
        -- apply in_or_app. now right.
      * split.
        -- intros H0. apply Hnd. now apply keys_group_add.
        -- intros H0. apply Hne. now apply nonempty_group_add.
Qed.

Lemma group_loop_error (issues : list pyval) (e : lib_exn) :
  fold_left
    (fun acc issue =>
       match acc with
       | inl e => inl e
       | inr grouped =>
           match severity_key issue with
           | inl e => inl e
           | inr sev => inr (group_add sev issue grouped)
           end
       end)
    issues (inl e) = inl e.
Proof. induction issues as [|i issues IH]; [reflexivity|exact IH]. Qed.

(** X17.  When every issue has a group key, grouping returns a dictionary
    whose keys are distinct severities of [SEVERITY_ORDER], with no empty
    group, in which the group of a severity is the list of the issues with
    that key, in their order: the issues of an unknown or missing severity
    are in the group [info]. *)
Theorem grouping_partitions_issues (issues : list pyval) :
  Forall (fun i => exists sev, severity_key i = inr sev) issues ->
  exists grouped,
    group_issues_by_severity issues = inr grouped
    /\ (forall sev, group_of sev grouped = with_severity sev issues)
    /\ incl (PyDict.keys grouped) SEVERITY_ORDER
    /\ NoDup (PyDict.keys grouped)
    /\ Forall (fun entry => snd entry <> []) grouped.
Proof.
  intros Hall. destruct (group_loop [] Hall) as (grouped & Hfold & Hg & Hk & Hnd & Hne).
  exists grouped. split; [exact Hfold|]. split; [exact Hg|].
  split; [exact Hk|]. split; [apply Hnd; constructor|apply Hne; constructor].
Qed.

Lemma flat_map_filter_cons (A K : Type) (p : K -> A -> bool) (keys : list K)
  (x : A) (l : list A) (k0 : K) :
  NoDup keys -> In k0 keys -> p k0 x = true ->
  (forall k, In k keys -> k <> k0 -> p k x = false) ->
  Permutation (flat_map (fun k => filter (p k) (x :: l)) keys)
              (x :: flat_map (fun k => filter (p k) l) keys).
Proof.
  induction keys as [|k keys IH]; intros Hnd Hin Hk0 Hothers; [contradiction|].
  inversion Hnd as [|? ? Hnotin Hnd']; subst. cbn [flat_map].
  destruct Hin as [->|Hin].
  - change (filter (p k0) (x :: l))
      with (if p k0 x then x :: filter (p k0) l else filter (p k0) l).
    rewrite Hk0. cbn [app]. apply perm_skip. apply Permutation_app_head.
    assert (Hsame : forall k, In k keys -> filter (p k) (x :: l) = filter (p k) l).
    { intros k Hk. cbn [filter]. rewrite Hothers; [reflexivity|now right|].
      intros ->. now apply Hnotin. }
    clear -Hsame. induction keys as [|k keys IH]; [reflexivity|].
    cbn [flat_map]. rewrite Hsame by now left.
    apply Permutation_app_head. apply IH. intros k' Hk'. apply Hsame. now right.
  - change (filter (p k) (x :: l))
      with (if p k x then x :: filter (p k) l else filter (p k) l).
    rewrite (Hothers k); [|now left|intros ->; now apply Hnotin].
    eapply Permutation_trans.
    + apply Permutation_app_head. apply IH; auto.
      intros k' Hk' Hne. apply Hothers; [now right|exact Hne].
    + symmetry. apply Permutation_middle.
Qed.

Lemma severity_order_NoDup : NoDup SEVERITY_ORDER.
Proof.
  unfold SEVERITY_ORDER. repeat constructor; cbn [In]; intuition discriminate.
Qed.

Lemma with_severity_covers (issues : list pyval) :
  Forall (fun i => exists sev, severity_key i = inr sev) issues ->
  Permutation (flat_map (fun sev => with_severity sev issues) SEVERITY_ORDER) issues.
Proof.
  induction 1 as [|i issues [sev Hi] Hall IH]; [reflexivity|].
  unfold with_severity in *.
  eapply Permutation_trans.
  - apply (@flat_map_filter_cons pyval string
             (fun sev i => match severity_key i with
                           | inr s => String.eqb s sev
                           | inl _ => false
                           end)
             SEVERITY_ORDER i issues sev severity_order_NoDup).
    + now apply (severity_key_in_order i).
    + rewrite Hi. apply String.eqb_refl.
    + intros k _ Hne. rewrite Hi. apply String.eqb_neq. congruence.
  - now apply perm_skip.
Qed.

Lemma group_loop_first_error (issues : list pyval) (grouped0 : PyDict.dict (list pyval)) :
  (exists i, In i issues /\ forall sev, severity_key i <> inr sev) ->
  fold_left
    (fun acc issue =>
       match acc with
       | inl e => inl e
       | inr grouped =>
           match severity_key issue with
           | inl e => inl e
           | inr sev => inr (group_add sev issue grouped)
           end
       end)
    issues (inr grouped0) = inl AttributeError.
Proof.
  revert grouped0. induction issues as [|i issues IH]; intros grouped0 (j & Hj & Hbad).
  - contradiction.
  - cbn [fold_left]. destruct (severity_key i) as [e|sev] eqn:Hi.
    + assert (e = AttributeError) as ->.
      { unfold severity_key in Hi. destruct i; try (now inversion Hi).
        match type of Hi with match ?v with _ => _ end = _ => destruct v end;
          now inversion Hi. }
      apply group_loop_error.
    + apply IH. exists j. split; [|exact Hbad].
      destruct Hj as [->|Hj]; [|exact Hj]. now contradiction (Hbad sev).
Qed.

(** X19.  Grouping raises, with the attribute error, exactly when some
    issue has no group key: an issue that is no mapping, or one whose
    severity is a value other than a string that counts as true.  Mappings
    with a string severity, or with none, never make it raise. *)
Theorem grouping_raises_iff (issues : list pyval) :
  (group_issues_by_severity issues = inl AttributeError
   <-> exists i, In i issues /\ forall sev, severity_key i <> inr sev)
  /\ (forall d s, PyDict.get "severity" d = Some (PStr s) ->
                  exists sev, severity_key (PDict d) = inr sev)
  /\ (forall d, PyDict.get "severity" d = None ->
                severity_key (PDict d) = inr "info").
Proof.
  split; [split|split].
  - intros Herr.
    destruct (Exists_dec (fun i => forall sev, severity_key i <> inr sev) issues)
      as [Hex|Hnex].
    { intros i. destruct (severity_key i) as [e|sev].
      - left. discriminate.
      - right. intros H. now apply (H sev). }
    + apply Exists_exists in Hex. exact Hex.
    + assert (Hall : Forall (fun i => exists sev, severity_key i = inr sev) issues).
      { apply Forall_forall. intros i Hi.
        destruct (severity_key i) as [e|sev] eqn:Hk; [|now exists sev].
        exfalso. apply Hnex. apply Exists_exists. exists i. split; [exact Hi|].
        intros sev. rewrite Hk. discriminate. }
      destruct (group_loop [] Hall) as (grouped & Hfold & _).
      assert (Hret : group_issues_by_severity issues = inr grouped) by exact Hfold.
      rewrite Hret in Herr. discriminate Herr.
  - intros Hex. now apply group_loop_first_error.
  - intros d s Hget. unfold severity_key. rewrite Hget.
    destruct (truthy (PStr s)); eexists; reflexivity.
  - intros d Hget. unfold severity_key. rewrite Hget. reflexivity.
Qed.

Lemma grouping_partitions_issues_witness :
  exists grouped,
    group_issues_by_severity
      [PDict [("severity", PStr "High")]; PDict [("severity", PStr "odd")];
       PDict [("message", PStr "m")]; PDict [("severity", PStr "high")]]
    = inr grouped
    /\ PyDict.keys grouped = ["high"; "info"]
    /\ group_of "high" grouped
       = [PDict [("severity", PStr "High")]; PDict [("severity", PStr "high")]].
Proof.
  destruct (@grouping_partitions_issues
              [PDict [("severity", PStr "High")]; PDict [("severity", PStr "odd")];
               PDict [("message", PStr "m")]; PDict [("severity", PStr "high")]])
    as (grouped & Hg & Hgroups & _).
  - repeat constructor; eexists; reflexivity.
  - exists grouped. split; [exact Hg|].
    vm_compute in Hg. injection Hg as <-. split; reflexivity.
Defined.

(* ------------------------------------------------------------------ *)
(** ** The database layer *)
(* ------------------------------------------------------------------ *)

Lemma open_connections_app (l1 l2 : list db_event) :
  open_connections (l1 ++ l2) = (open_connections l1 + open_connections l2)%Z.
Proof.
  induction l1 as [|ev l1 IH]; [reflexivity|].
  cbn [app open_connections].
  destruct ev as [[ | | | | | | | | ] [e|] | line]; rewrite ?IH; lia.
Qed.

Lemma open_cursors_app (l1 l2 : list db_event) :
  open_cursors (l1 ++ l2) = (open_cursors l1 + open_cursors l2)%Z.
Proof.
  induction l1 as [|ev l1 IH]; [reflexivity|].
  cbn [app open_cursors].
  destruct ev as [[ | | | | | | | | ] [e|] | line]; rewrite ?IH; lia.
Qed.

Lemma errors_of_app (l1 l2 : list db_event) :
  errors_of (l1 ++ l2) = errors_of l1 ++ errors_of l2.
Proof.
  induction l1 as [|ev l1 IH]; [reflexivity|].
  cbn [app errors_of]. destruct ev as [c [e|] | line]; rewrite ?IH; reflexivity.
Qed.

Lemma statements_of_app (l1 l2 : list db_event) :
  statements_of (l1 ++ l2) = statements_of l1 ++ statements_of l2.
Proof.
  induction l1 as [|ev l1 IH]; [reflexivity|].
  cbn [app statements_of].
  destruct ev as [[ | | | | | | | | ] o | line]; rewrite ?IH; reflexivity.
Qed.

(** Running a function of the layer, one call at a time. *)
Ltac db_run :=
  cbv beta iota zeta delta
    [run_db insert_review fetch_recent_reviews fetch_review_by_id init_db
     add_columns add_column new_columns
     try_finally try_except close_handles when get_connection call print
     assign_conn assign_cursor db_bind db_ret db_raise
     db_log conn cursor fst snd closes_what_it_opens].

Ltac db_cases mysql :=
  repeat match goal with
         | H : forall log, mysql log ?c = None |- context [mysql ?l ?c] =>
             rewrite (H l)
         | |- context [mysql ?l ?c] =>
             let E := fresh "E" in
             destruct (mysql l c) eqn:E; cbv beta iota
         end.

Ltac db_close :=
  rewrite <- ?app_assoc; split; [reflexivity|];
  cbn [app open_connections open_cursors errors_of statements_of];
  repeat split; reflexivity.

Section DatabaseProperties.

Variable mysql : list db_event -> db_call -> option string.
Variable lastrowid : list db_event -> Z.
Variable fetchall : list db_event -> list DbRow.
Variable fetchone : list db_event -> option DbRow.

(** X20.  When closing a cursor and closing a connection do not fail, the
    three functions that use the table close what they open on every path:
    whichever call raises, no connection and no cursor is left open, and the
    function raises exactly when one call did, with the error of that
    call. *)
Theorem connections_closed_on_every_path
  (filenames : list string) (summary details : string)
  (raw_response issues_json : option string) (quality_score : pyval)
  (metrics_json strengths_json : option string) (limit review_id : Z)
  (log : list db_event) :
  (forall l, mysql l CloseCursor = None) ->
  (forall l, mysql l CloseConnection = None) ->
  (exists added,
      closes_what_it_opens log
        (run_db (insert_review mysql lastrowid filenames summary details
                   raw_response issues_json quality_score
                   metrics_json strengths_json) log) added)
  /\ (exists added,
         closes_what_it_opens log
           (run_db (fetch_recent_reviews mysql fetchall limit) log) added)
  /\ (exists added,
         closes_what_it_opens log
           (run_db (fetch_review_by_id mysql fetchone review_id) log) added).
Proof.
  intros Hcursor Hconn.
  split; [|split]; db_run; db_cases mysql; eexists; db_close.
Qed.

End DatabaseProperties.

Lemma connections_closed_on_every_path_witness :
  exists added,
    closes_what_it_opens []
      (run_db (insert_review statements_refused (fun _ => 1%Z) ["a.py"; "b.py"]
                 "fine" "nothing to report" (Some "{}") (Some "[]") (PFloat 5)
                 (Some "{}") (Some "[]")) [])
      added.
Proof.
  exact (proj1 (@connections_closed_on_every_path
                  statements_refused (fun _ => 1%Z) (fun _ => []) (fun _ => None)
                  ["a.py"; "b.py"] "fine" "nothing to report" (Some "{}")
                  (Some "[]") (PFloat 5) (Some "{}") (Some "[]") 10%Z 1%Z []
                  (fun _ => eq_refl) (fun _ => eq_refl))).
Defined.

(** Running [init_db] up to the additions of columns. *)
Ltac db_run_startup :=
  cbv beta iota zeta delta
    [run_db init_db try_except get_connection call print
     assign_conn assign_cursor db_bind db_ret db_raise
     db_log conn cursor fst snd].

Ltac db_count :=
  repeat (cbn [app open_connections open_cursors errors_of statements_of];
          rewrite ?open_connections_app, ?open_cursors_app,
                  ?errors_of_app, ?statements_of_app).

Section StartupProperties.

Variable DB_NAME : string.
Variable mysql : list db_event -> db_call -> option string.

(** One addition of a column: it never raises, opens and closes nothing,
    and runs its statement. *)
Lemma add_column_spec (sql confirmation : string) (s : DbState) :
  exists added,
    add_column mysql sql confirmation s
    = (mkDbState (db_log s ++ added) (conn s) (cursor s), inr tt)
    /\ open_connections added = 0%Z
    /\ open_cursors added = 0%Z
    /\ statements_of added = [sql].
Proof.
  destruct s as [log c k].
  cbv beta iota zeta delta
    [add_column try_except call print db_bind db_ret db_log conn cursor].
  destruct (mysql log (Execute sql [])) eqn:E1; cbv beta iota.
  - eexists. split; [reflexivity|]. repeat split; reflexivity.
  - destruct (mysql (log ++ [Called (Execute sql []) None]) Commit) eqn:E2;
      cbv beta iota; rewrite <- ?app_assoc; eexists;
      (split; [reflexivity|]); repeat split; reflexivity.
Qed.

Lemma add_columns_spec (columns : list (string * string)) (s : DbState) :
  exists added,
    add_columns mysql columns s
    = (mkDbState (db_log s ++ added) (conn s) (cursor s), inr tt)
    /\ open_connections added = 0%Z
    /\ open_cursors added = 0%Z
    /\ statements_of added
       = map (fun column =>
                ("ALTER TABLE reviews ADD COLUMN " ++ fst column ++ " "
                 ++ snd column)%string)
             columns.
Proof.
  revert s. induction columns as [|[col_name col_def] columns IH]; intros s.
  - exists []. cbn [add_columns db_ret map]. rewrite app_nil_r.
    destruct s; repeat split; reflexivity.
  - cbn [add_columns]. unfold db_bind at 1.
    destruct (add_column_spec
                ("ALTER TABLE reviews ADD COLUMN " ++ col_name ++ " " ++ col_def)
                ("[DB] Added " ++ col_name ++ " column to reviews table.") s)
      as (added1 & -> & Hc1 & Hk1 & Hs1).
    destruct (IH (mkDbState (db_log s ++ added1) (conn s) (cursor s)))
      as (added2 & -> & Hc2 & Hk2 & Hs2).
    cbn [db_log conn cursor]. exists (added1 ++ added2).
    rewrite <- app_assoc. split; [reflexivity|].
    rewrite open_connections_app, open_cursors_app, statements_of_app.
    rewrite Hc1, Hc2, Hk1, Hk2, Hs1, Hs2. repeat split; reflexivity.
Qed.

(** X21.  When only the statements that add a column can fail, as they do
    for a column that exists, [init_db] returns without raising, runs its
    six statements whichever of the additions fail, reports that the table
    is ready and leaves no connection and no cursor open. *)
Theorem init_db_tolerates_existing_columns (log : list db_event) :
  (forall l c, is_alter c = false -> mysql l c = None) ->
  exists added,
    run_db (init_db DB_NAME mysql) log = (log ++ added, inr tt)
    /\ statements_of added
       = [ ("CREATE DATABASE IF NOT EXISTS " ++ DB_NAME)%string;
           sql_create_table;
           "ALTER TABLE reviews ADD COLUMN issues_json LONGTEXT";
           "ALTER TABLE reviews ADD COLUMN quality_score FLOAT DEFAULT 0";
           "ALTER TABLE reviews ADD COLUMN metrics_json LONGTEXT";
           "ALTER TABLE reviews ADD COLUMN strengths_json LONGTEXT" ]
    /\ last added (Printed EmptyString)
       = Printed "[DB] Database and 'reviews' table are ready."
    /\ open_connections added = 0%Z
    /\ open_cursors added = 0%Z.
Proof.
  intros Honly.
  assert (H1 : forall b l, mysql l (Connect b) = None) by (intros; now apply Honly).
  assert (H2 : forall l, mysql l SetAutocommit = None) by (intros; now apply Honly).
  assert (H3 : forall b l, mysql l (OpenCursor b) = None) by (intros; now apply Honly).
  assert (H4 : forall l, mysql l Commit = None) by (intros; now apply Honly).
  assert (H5 : forall l, mysql l CloseCursor = None) by (intros; now apply Honly).
  assert (H6 : forall l, mysql l CloseConnection = None) by (intros; now apply Honly).
  assert (H7 : forall l, mysql l (Execute ("CREATE DATABASE IF NOT EXISTS " ++ DB_NAME) [])
                         = None) by (intros; now apply Honly).
  assert (H8 : forall l, mysql l (Execute sql_create_table []) = None)
    by (intros; now apply Honly).
  db_run_startup.
  rewrite (H1 false), H2, (H3 false). cbv beta iota.
  rewrite H7. cbv beta iota. rewrite H5. cbv beta iota. rewrite H6. cbv beta iota.
  rewrite (H1 true). cbv beta iota. rewrite (H3 false). cbv beta iota.
  rewrite H8. cbv beta iota. rewrite H4. cbv beta iota.
  match goal with
  | |- context [add_column mysql ?q ?c ?s] =>
      destruct (add_column_spec q c s) as (added1 & -> & Hc1 & Hk1 & Hs1)
  end.
  cbv beta iota delta [db_log conn cursor].
  match goal with
  | |- context [add_columns mysql ?cs ?s] =>
      destruct (add_columns_spec cs s) as (added2 & -> & Hc2 & Hk2 & Hs2)
  end.
  cbv beta iota delta [db_log conn cursor].
  rewrite H5. cbv beta iota. rewrite H6. cbv beta iota.
  rewrite <- ?app_assoc. eexists. split; [reflexivity|].
  split; [|split; [|split]].
  - db_count. rewrite Hs1, Hs2. reflexivity.
  - rewrite !app_assoc. apply last_last.
  - db_count. rewrite Hc1, Hc2. reflexivity.
  - db_count. rewrite Hk1, Hk2. reflexivity.
Qed.

(** X22.  [init_db] never raises, whatever the connector does.  It either
    reports that the table is ready, with no connection left open, or it
    ends by printing the error of the call that failed; then, unless that
    call was one that opens a connection, the connection that was open at
    that call is never closed. *)
Theorem init_db_leaks_connection_on_error (log : list db_event) :
  exists added,
    run_db (init_db DB_NAME mysql) log = (log ++ added, inr tt)
    /\ ((last added (Printed EmptyString)
         = Printed "[DB] Database and 'reviews' table are ready."
         /\ open_connections added = 0%Z)
        \/ (exists e,
               last added (Printed EmptyString)
               = Printed ("[DB] Error during init_db: " ++ e)%string
               /\ In e (errors_of added)
               /\ (((exists with_db, In (Called (Connect with_db) (Some e)) added)
                    /\ open_connections added = 0%Z)
                   \/ open_connections added = 1%Z))).
Proof.
  db_run_startup.
  repeat match goal with
         | |- context [add_column mysql ?q ?c ?s] =>
             destruct (add_column_spec q c s) as (added1 & -> & Hc1 & _);
             cbv beta iota delta [db_log conn cursor]
         | |- context [add_columns mysql ?cs ?s] =>
             destruct (add_columns_spec cs s) as (added2 & -> & Hc2 & _);
             cbv beta iota delta [db_log conn cursor]
         | |- context [mysql ?l ?c] =>
             let E := fresh "E" in
             destruct (mysql l c) eqn:E; cbv beta iota
         end;
    rewrite <- ?app_assoc; eexists; (split; [reflexivity|]);
    first [ left; split;
            [ rewrite ?app_assoc; apply last_last
            | db_count; rewrite ?Hc1, ?Hc2; reflexivity ]
          | right; eexists; split;
            [ rewrite ?app_assoc; apply last_last
            | split;
              [ db_count; rewrite ?in_app_iff; cbn [In]; intuition
              | first [ right; db_count; rewrite ?Hc1, ?Hc2; reflexivity
                      | left; split;
                        [ eexists; cbn [app In];
                          solve [repeat (first [left; reflexivity | right])]
                        | db_count; reflexivity ] ] ] ] ].
Qed.

End StartupProperties.

Lemma init_db_tolerates_existing_columns_witness :
  exists added,
    run_db (init_db "code_review_db" columns_exist) [] = (added, inr tt)
    /\ length (errors_of added) = 4
    /\ open_connections added = 0%Z.
Proof.
  destruct (@init_db_tolerates_existing_columns "code_review_db" columns_exist [])
    as (added & Hrun & _ & _ & Hopen & _).
  - intros l c Hc. unfold columns_exist. now rewrite Hc.
  - exists added. split; [exact Hrun|]. split; [|exact Hopen].
    vm_compute in Hrun. injection Hrun as <-. reflexivity.
Defined.

Lemma init_db_leaks_connection_on_error_witness :
  exists added,
    run_db (init_db "code_review_db" statements_refused) [] = (added, inr tt)
    /\ open_connections added = 1%Z.
Proof.
  destruct (@init_db_leaks_connection_on_error "code_review_db" statements_refused [])
    as (added & Hrun & Hcases).
  exists added. split; [exact Hrun|].
  vm_compute in Hrun. injection Hrun as <-. reflexivity.
Defined.


(* ------------------------------------------------------------------ *)
(** ** The review endpoint *)
(* ------------------------------------------------------------------ *)

Lemma get_dict_set (V : Type) (k k' : string) (v : V) (d : PyDict.dict V) :
  PyDict.get k (PyDict.dict_set k' v d)
  = if String.eqb k k' then Some v else PyDict.get k d.
Proof.
  induction d as [|[k0 v0] d IH]; cbn [PyDict.dict_set PyDict.get].
  - reflexivity.
  - destruct (String.eqb_spec k' k0) as [->|Hne]; cbn [PyDict.get].
    + destruct (String.eqb k k0); reflexivity.
    + destruct (String.eqb_spec k k0) as [->|Hne'].
      * apply not_eq_sym in Hne. apply String.eqb_neq in Hne. now rewrite Hne.
      * exact IH.
Qed.

Lemma keys_dict_set (V : Type) (k : string) (v : V) (d : PyDict.dict V) :
  (forall x, In x (PyDict.keys (PyDict.dict_set k v d)) <-> k = x \/ In x (PyDict.keys d))
  /\ (NoDup (PyDict.keys d) -> NoDup (PyDict.keys (PyDict.dict_set k v d))).
Proof.
  induction d as [|[k0 v0] d [IHi IHn]]; cbn [PyDict.dict_set PyDict.keys map fst].
  - split; [intros x; cbn [In]; tauto|].
    intros _. repeat constructor. intros [].
  - destruct (String.eqb_spec k k0) as [->|Hne]; cbn [PyDict.keys map fst In].
    + split; [intros x; tauto|auto].
    + split.
      * intros x. fold (PyDict.keys (PyDict.dict_set k v d)). rewrite IHi.
        fold (PyDict.keys d). tauto.
      * intros Hnd. inversion Hnd as [|? ? Hnotin Hnd']; subst.
        constructor; [|now apply IHn].
        fold (PyDict.keys (PyDict.dict_set k v d)). rewrite IHi.
        intros [Heq|Hin]; [now apply Hne|now apply Hnotin].
Qed.

Lemma find_app (A : Type) (p : A -> bool) (l1 l2 : list A) :
  find p (l1 ++ l2) = match find p l1 with Some x => Some x | None => find p l2 end.
Proof.
  induction l1 as [|x l1 IH]; [reflexivity|].
  cbn [app find]. destruct (p x); [reflexivity|exact IH].
Qed.

Section Uploads.

Variable decode : list Byte.byte -> string.

(** The dictionary the loop builds from [file_contents]. *)
Local Abbreviation uploaded files file_contents :=
  (fold_left
     (fun contents upload =>
        PyDict.dict_set (filename upload) (decode (content_bytes upload)) contents)
     files file_contents).

Lemma read_uploads_accepts (files : list Upload) (file_contents : FileSet)
  (filenames closed : list string) :
  Forall (fun upload => too_large upload = false) files ->
  read_uploads decode files file_contents filenames closed
  = (closed ++ map filename files,
     inr (uploaded files file_contents, filenames ++ map filename files)).
Proof.
  intros Hall. revert file_contents filenames closed.
  induction Hall as [|upload files Hok Hall IH]; intros file_contents filenames closed.
  - cbn [read_uploads map fold_left]. now rewrite !app_nil_r.
  - cbn [read_uploads map fold_left]. rewrite Hok, IH, <- !app_assoc. reflexivity.
Qed.

Lemma read_uploads_rejects (files : list Upload) (file_contents : FileSet)
  (filenames closed : list string) :
  Exists (fun upload => too_large upload = true) files ->
  exists upload,
    In upload files /\ too_large upload = true
    /\ read_uploads decode files file_contents filenames closed
       = (closed ++ map filename (read_until_large files),
          inl (HTTPException 400
                 ("File " ++ filename upload ++ " is too large (max 1MB for demo)."))).
Proof.
  intros Hex. revert file_contents filenames closed.
  induction files as [|upload files IH]; intros file_contents filenames closed.
  - inversion Hex.
  - cbn [read_uploads read_until_large]. destruct (too_large upload) eqn:Hl.
    + exists upload. split; [now left|]. split; [exact Hl|reflexivity].
    + assert (Hex' : Exists (fun u => too_large u = true) files).
      { inversion Hex as [? ? Hu|? ? Hrest]; subst; [congruence|exact Hrest]. }
      destruct (IH Hex' (PyDict.dict_set (filename upload)
                           (decode (content_bytes upload)) file_contents)
                  (filenames ++ [filename upload]) (closed ++ [filename upload]))
        as (u & Hin & Hu & ->).
      exists u. split; [now right|]. split; [exact Hu|].
      cbn [map]. now rewrite <- app_assoc.
Qed.

Lemma uploads_large_or_not (files : list Upload) :
  Exists (fun upload => too_large upload = true) files
  \/ Forall (fun upload => too_large upload = false) files.
Proof.
  induction files as [|upload files [IH|IH]].
  - right. constructor.
  - left. now apply Exists_cons_tl.
  - destruct (too_large upload) eqn:Hl.
    + left. now apply Exists_cons_hd.
    + right. now constructor.
Qed.

Lemma uploaded_get (files : list Upload) (file_contents : FileSet) (name : string) :
  PyDict.get name (uploaded files file_contents)
  = match last_upload name files with
    | Some upload => Some (decode (content_bytes upload))
    | None => PyDict.get name file_contents
    end.
Proof.
  revert file_contents. induction files as [|upload files IH]; intros file_contents.
  - reflexivity.
  - cbn [fold_left]. rewrite IH. unfold last_upload. cbn [rev].
    rewrite find_app. destruct (find _ (rev files)); [reflexivity|].
    cbn [find]. rewrite get_dict_set, (String.eqb_sym name).
    destruct (String.eqb (filename upload) name); reflexivity.
Qed.

Lemma uploaded_keys (files : list Upload) (file_contents : FileSet) :
  (forall name, In name (PyDict.keys (uploaded files file_contents))
                <-> In name (PyDict.keys file_contents) \/ In name (map filename files))
  /\ (NoDup (PyDict.keys file_contents)
      -> NoDup (PyDict.keys (uploaded files file_contents))).
Proof.
  revert file_contents. induction files as [|upload files IH]; intros file_contents.
  - cbn [fold_left map In]. split; [intros name; tauto|auto].
  - cbn [fold_left map In].
    destruct (IH (PyDict.dict_set (filename upload) (decode (content_bytes upload))
                    file_contents)) as [IHi IHn].
    destruct (keys_dict_set (filename upload) (decode (content_bytes upload))
                file_contents) as [Hi Hn].
    split.
    + intros name. rewrite IHi, Hi. tauto.
    + intros Hnd. apply IHn, Hn, Hnd.
Qed.

(** X23.  What the loop over the uploads builds when no upload is too
    large: every upload is closed, the list of names keeps every upload,
    also a name given twice, while the files sent for review have each name
    once, with the content of the last upload of that name. *)
Theorem uploads_become_file_set (files : list Upload) :
  Forall (fun upload => too_large upload = false) files ->
  exists file_contents,
    read_uploads decode files [] [] []
    = (map filename files, inr (file_contents, map filename files))
    /\ NoDup (PyDict.keys file_contents)
    /\ (forall name, In name (PyDict.keys file_contents)
                     <-> In name (map filename files))
    /\ (forall name,
          PyDict.get name file_contents
          = option_map (fun upload => decode (content_bytes upload))
                       (last_upload name files)).
Proof.
  intros Hall. exists (uploaded files []).
  split; [now rewrite read_uploads_accepts|].
  destruct (uploaded_keys files []) as [Hi Hn].
  split; [apply Hn; constructor|]. split.
  - intros name. rewrite Hi. cbn [PyDict.keys map In]. tauto.
  - intros name. rewrite uploaded_get.
    destruct (last_upload name files); reflexivity.
Qed.

End Uploads.

Section ReviewEndpoint.

Variable GROQ_API_KEY : option string.
Variable AI_MODEL : string.
Variable requests_post : Request -> lib_exn + Response.
Variable json_loads : string -> option pyval.
Variable str_nat : nat -> string.
Variable str_float : Q -> string.
Variable warning_sign : string.
Variable validate_str : pyval -> option string.
Variable validate_int : pyval -> option Z.
Variable validate_float : pyval -> option Q.
Variable decode : list Byte.byte -> string.
Variable json_dumps : pyval -> option string.
Variable exn_text : lib_exn -> string.
Variable mysql : list db_event -> db_call -> option string.
Variable lastrowid : list db_event -> Z.

Local Abbreviation endpoint :=
  (review_code GROQ_API_KEY AI_MODEL requests_post json_loads str_nat str_float
               warning_sign validate_str validate_int validate_float decode
               json_dumps exn_text mysql lastrowid).

Local Abbreviation run :=
  (run_review GROQ_API_KEY AI_MODEL requests_post json_loads
              str_nat str_float warning_sign).

(** The dictionary the loop builds from [file_contents]. *)
Local Abbreviation uploaded files file_contents :=
  (fold_left
     (fun contents upload =>
        PyDict.dict_set (filename upload) (decode (content_bytes upload)) contents)
     files file_contents).

Lemma store_review_not_400 (filenames : list string) (llm_result : ReviewResult)
  (closed0 : list string) (sent0 : list Request) (log : list db_event)
  (detail : string) :
  result (store_review validate_str validate_int validate_float json_dumps
            mysql lastrowid filenames llm_result closed0 sent0 log)
  <> inl (HTTPException 400 detail).
Proof.
  unfold store_review.
  destruct (strip_value (summary llm_result)); [discriminate|].
  destruct (strip_value (details llm_result)); [discriminate|].
  destruct (json_dumps (or_empty_list (issues llm_result)));
    destruct (json_dumps (metrics_value (metrics llm_result)));
    destruct (json_dumps (strengths llm_result));
    match goal with
    | |- context [run_db ?c ?l] => destruct (run_db c l) as [log' [e|review_id]]
    end; try discriminate;
    match goal with
    | |- context [lbind ?a ?f] => destruct (lbind a f)
    end; try discriminate;
    destruct (validate_float _); try discriminate;
    destruct (validate_str_list _ _); discriminate.
Qed.

(** X24.  The review endpoint answers 400 exactly when no file is
    uploaded, more than ten are, or one is too large.  It then sends nothing
    to the model and leaves the database alone; when a file is too large, the
    uploads up to that one have been read and closed, the later ones have
    not. *)
Theorem bad_request_iff (files : list Upload) (log : list db_event) :
  ((exists detail, result (endpoint files log) = inl (HTTPException 400 detail))
   <-> files = [] \/ max_files < List.length files
       \/ Exists (fun upload => too_large upload = true) files)
  /\ (forall detail,
        result (endpoint files log) = inl (HTTPException 400 detail) ->
        sent (endpoint files log) = []
        /\ database (endpoint files log) = log
        /\ closed (endpoint files log)
           = if (max_files <? List.length files)
             then []
             else map filename (read_until_large files)).
Proof.
  unfold review_code. destruct files as [|upload files].
  { split; [split; [now left|intros _; eexists; reflexivity]|].
    intros detail _. repeat split; reflexivity. }
  set (all := upload :: files).
  destruct (max_files <? List.length all) eqn:Hmany.
  { split; [split; [intros _; right; left; now apply Nat.ltb_lt
                   |intros _; eexists; reflexivity]|].
    intros detail _. repeat split; reflexivity. }
  apply Nat.ltb_ge in Hmany.
  destruct (uploads_large_or_not all) as [Hlarge|Hok].
  - destruct (read_uploads_rejects decode [] [] [] Hlarge) as (u & _ & _ & ->).
    cbn [result sent database closed app].
    split; [split; [intros _; now right; right|intros _; eexists; reflexivity]|].
    intros detail _. repeat split; reflexivity.
  - rewrite (read_uploads_accepts decode [] [] [] Hok). cbn [app].
    assert (Hnot : forall detail,
               result
                 match run (uploaded all []) with
                 | (sent0, inl (LLMConfigError msg)) =>
                     mkOutcome (map filename all) sent0 log
                       (inl (HTTPException 500 msg))
                 | (sent0, inl (Lib e)) =>
                     mkOutcome (map filename all) sent0 log
                       (inl (HTTPException 500 ("LLM error: " ++ exn_text e)))
                 | (sent0, inr llm_result) =>
                     store_review validate_str validate_int validate_float
                       json_dumps mysql lastrowid (map filename all) llm_result
                       (map filename all) sent0 log
                 end
               <> inl (HTTPException 400 detail)).
    { intros detail. destruct (run (uploaded all [])) as [sent0 [[msg|e]|r]];
        [discriminate|discriminate|apply store_review_not_400]. }
    split.
    + split.
      * intros [detail H]. now apply Hnot in H.
      * intros [H|[H|H]]; [discriminate H|lia|].
        exfalso. clear -H Hok. induction H as [u l Hu|u l _ IH];
          inversion Hok; subst; [congruence|now apply IH].
    + intros detail H. now apply Hnot in H.
Qed.

Lemma insert_review_returns (filenames : list string) (summary0 details0 : string)
  (raw_response0 issues_json : option string) (quality_score0 : pyval)
  (metrics_json strengths_json : option string) (log log' : list db_event)
  (review_id : Z) :
  run_db (insert_review mysql lastrowid filenames summary0 details0 raw_response0
            issues_json quality_score0 metrics_json strengths_json) log
  = (log', inr review_id) ->
  stored log log'.
Proof.
  unfold stored. db_run. db_cases mysql; intros H; try discriminate H.
  injection H as <- _. rewrite <- ?app_assoc. eexists. split; [reflexivity|].
  cbn [app statements_of errors_of open_connections open_cursors].
  repeat split; try reflexivity.
  do 3 right. left. reflexivity.
Qed.

Lemma convert_error_kind (issues0 : pyval) (e : lib_exn) :
  lbind (iterate issues0) (issue_models validate_str validate_int) = inl e ->
  e = TypeError \/ e = ValidationError.
Proof.
  destruct issues0; cbn [iterate lbind]; intros H;
    first [ injection H as <-; now left
          | right; now apply issue_models_error_kind in H ].
Qed.

(** What follows the call of the model: the failure of a summary or of
    details that are no text comes before the insertion, the failures of the
    conversion and of the response come after it. *)
Lemma store_review_outcome (filenames : list string) (llm_result : ReviewResult)
  (closed0 : list string) (sent0 : list Request) (log : list db_event) :
  let o := store_review validate_str validate_int validate_float json_dumps
             mysql lastrowid filenames llm_result closed0 sent0 log in
  closed o = closed0 /\ sent o = sent0
  /\ ((result o = inl (Uncaught AttributeError) /\ database o = log)
      \/ (exists e, result o = inl (HTTPException 500 ("Database error: " ++ e)))
      \/ (stored log (database o)
          /\ (result o = inl (Uncaught TypeError)
              \/ result o = inl (Uncaught ValidationError)
              \/ exists resp,
                   result o = inr resp
                   /\ (response_metrics resp = metrics llm_result
                       \/ response_metrics resp = [])))).
Proof.
  unfold store_review.
  destruct (summary llm_result); cbn [strip_value];
    try (repeat split; left; split; reflexivity).
  destruct (details llm_result); cbn [strip_value];
    try (repeat split; left; split; reflexivity).
  destruct (json_dumps (or_empty_list (issues llm_result)));
    destruct (json_dumps (metrics_value (metrics llm_result)));
    destruct (json_dumps (strengths llm_result));
    match goal with
    | |- context [run_db ?c ?l] =>
        destruct (run_db c l) as [log' [e|review_id]] eqn:Hinsert
    end;
    try (repeat split; right; left; eexists; reflexivity);
    apply insert_review_returns in Hinsert;
    match goal with
    | |- context [lbind ?a ?f] => destruct (lbind a f) as [e|models] eqn:Hconvert
    end;
    try (apply convert_error_kind in Hconvert; destruct Hconvert as [->| ->];
         repeat split; right; right; (split; [exact Hinsert|]);
         [left; reflexivity|right; left; reflexivity]);
    destruct (validate_float _);
    try (repeat split; right; right; (split; [exact Hinsert|]);
         right; left; reflexivity);
    destruct (validate_str_list _ _);
    repeat split; right; right; (split; [exact Hinsert|]);
    first [ right; left; reflexivity
          | right; right; eexists; split; [reflexivity|];
            first [left; reflexivity|right; reflexivity] ].
Qed.

Lemma run_returns_one_request (files : FileSet) (sent0 : list Request)
  (r : ReviewResult) :
  run files = (sent0, inr r) -> List.length sent0 = 1.
Proof.
  intros Hrun. destruct (key_missing GROQ_API_KEY) eqn:Hk.
  - rewrite (@run_without_key GROQ_API_KEY AI_MODEL requests_post json_loads
               str_nat str_float warning_sign files Hk) in Hrun.
    discriminate Hrun.
  - destruct (@run_with_key GROQ_API_KEY AI_MODEL requests_post json_loads
                str_nat str_float warning_sign files Hk) as (outcome & Hout & _).
    rewrite Hout in Hrun. now injection Hrun as <- _.
Qed.

(** A request that ends with an exception that is not caught, or with a
    response, went through [store_review]. *)
Lemma endpoint_past_model (files : list Upload) (log : list db_event) :
  (exists e, result (endpoint files log) = inl (Uncaught e))
  \/ (exists resp, result (endpoint files log) = inr resp) ->
  accepted files
  /\ exists sent0 llm_result,
       run (uploaded files []) = (sent0, inr llm_result)
       /\ endpoint files log
          = store_review validate_str validate_int validate_float
              json_dumps mysql lastrowid (map filename files) llm_result
              (map filename files) sent0 log.
Proof.
  unfold review_code. destruct files as [|upload files].
  { intros [[e H]|[resp H]]; discriminate H. }
  set (all := upload :: files).
  destruct (max_files <? List.length all) eqn:Hmany.
  { intros [[e H]|[resp H]]; discriminate H. }
  apply Nat.ltb_ge in Hmany.
  destruct (uploads_large_or_not all) as [Hlarge|Hok].
  { destruct (read_uploads_rejects decode [] [] [] Hlarge) as (u & _ & _ & ->).
    intros [[e H]|[resp H]]; discriminate H. }
  rewrite (read_uploads_accepts decode [] [] [] Hok). cbn [app].
  destruct (run (uploaded all [])) as [sent0 [[msg|e]|r]] eqn:Hrun.
  - intros [[e H]|[resp H]]; discriminate H.
  - intros [[e' H]|[resp H]]; discriminate H.
  - intros _. split; [repeat split; [discriminate|exact Hmany|exact Hok]|].
    exists sent0, r. split; reflexivity.
Qed.

(** X25.  An exception the endpoint does not catch: all uploads were read
    and closed and the model was asked once.  When it is the attribute error
    of a summary or of details that are no text, nothing was stored; the
    errors of the conversion of the issues and of the response come after the
    insertion, so the review is stored although the request fails. *)
Theorem uncaught_failure_storage (files : list Upload) (log : list db_event)
  (e : lib_exn) :
  result (endpoint files log) = inl (Uncaught e) ->
  accepted files
  /\ closed (endpoint files log) = map filename files
  /\ List.length (sent (endpoint files log)) = 1
  /\ ((e = AttributeError /\ database (endpoint files log) = log)
      \/ ((e = TypeError \/ e = ValidationError)
          /\ stored log (database (endpoint files log)))).
Proof.
  intros Hres.
  destruct (endpoint_past_model files log)
    as (Hacc & sent0 & r & Hrun & Heq); [left; now exists e|].
  rewrite Heq in Hres |- *.
  destruct (store_review_outcome (map filename files) r (map filename files) sent0 log)
    as (-> & -> & Hcases).
  split; [exact Hacc|]. split; [reflexivity|].
  split; [now apply run_returns_one_request in Hrun|].
  destruct Hcases as [[Hr Hdb]|[[e' Hr]|[Hst [Hr|[Hr|[resp [Hr _]]]]]]];
    rewrite Hr in Hres; try discriminate Hres; injection Hres as <-.
  - left. now split.
  - right. split; [now left|exact Hst].
  - right. split; [now right|exact Hst].
Qed.


(** X27.  When the uploads are accepted and the pipeline fails, the
    endpoint answers 500 after closing every upload, with the message of the
    configuration error or the text of the other exception, and the database
    is left alone; without a credential nothing is sent to the model
    either. *)
Theorem model_failure_is_500 (files : list Upload) (log : list db_event)
  (file_contents : FileSet) (sent0 : list Request) (e : exn) :
  accepted files ->
  read_uploads decode files [] [] []
  = (map filename files, inr (file_contents, map filename files)) ->
  run file_contents = (sent0, inl e) ->
  endpoint files log
  = mkOutcome (map filename files) sent0 log
      (inl (HTTPException 500
              match e with
              | LLMConfigError msg => msg
              | Lib e' => ("LLM error: " ++ exn_text e')%string
              end))
  /\ (key_missing GROQ_API_KEY = true ->
      sent0 = [] /\ e = LLMConfigError config_error_message).
Proof.
  intros (Hne & Hlen & Hok) Hread Hrun. split.
  - unfold review_code. destruct files as [|upload files]; [now contradiction Hne|].
    apply Nat.ltb_ge in Hlen. rewrite Hlen, Hread, Hrun. now destruct e.
  - intros Hk.
    rewrite (@run_without_key GROQ_API_KEY AI_MODEL requests_post json_loads
               str_nat str_float warning_sign file_contents Hk) in Hrun.
    injection Hrun as <- <-. now split.
Qed.

End ReviewEndpoint.

Lemma uploads_become_file_set_witness :
  exists file_contents,
    read_uploads text_of_bytes
      [mkUpload "a.py" [Byte.x61]; mkUpload "b.py" [Byte.x62];
       mkUpload "a.py" [Byte.x63]] [] [] []
    = (["a.py"; "b.py"; "a.py"], inr (file_contents, ["a.py"; "b.py"; "a.py"]))
    /\ PyDict.get "a.py" file_contents = Some "c".
Proof.
  destruct (@uploads_become_file_set text_of_bytes
              [mkUpload "a.py" [Byte.x61]; mkUpload "b.py" [Byte.x62];
               mkUpload "a.py" [Byte.x63]])
    as (file_contents & Hread & _ & _ & Hget).
  - repeat constructor.
  - exists file_contents. split; [exact Hread|]. rewrite Hget. reflexivity.
Defined.

Lemma uncaught_failure_storage_witness :
  stored []
    (database
       (review_code sample_key "m" (sample_post (PStr "{...}")) partial_json_loads
          sample_str_nat sample_str_float "!" exact_str exact_int exact_float
          text_of_bytes (fun _ => Some "json") (fun _ => "e") mysql_up
          (fun _ => 7%Z) [upload_of_size "a.py" 2] [])).
Proof.
  destruct (@uncaught_failure_storage sample_key "m" (sample_post (PStr "{...}"))
              partial_json_loads sample_str_nat sample_str_float "!" exact_str
              exact_int exact_float text_of_bytes (fun _ => Some "json")
              (fun _ => "e") mysql_up (fun _ => 7%Z) [upload_of_size "a.py" 2] []
              ValidationError)
    as (_ & _ & _ & [[Habs _]|[_ Hst]]).
  - vm_compute. reflexivity.
  - discriminate Habs.
  - exact Hst.
Defined.


Lemma model_failure_is_500_witness :
  review_code None "m" (sample_post PNone) sample_json_loads sample_str_nat
    sample_str_float "!" exact_str exact_int exact_float text_of_bytes
    (fun _ => Some "json") (fun _ => "e") mysql_up (fun _ => 7%Z)
    [upload_of_size "a.py" 2] []
  = mkOutcome ["a.py"] [] []
      (inl (HTTPException 500 "GROQ_API_KEY is not set in environment (.env).")).
Proof.
  refine (proj1
            (@model_failure_is_500 None "m" (sample_post PNone) sample_json_loads
               sample_str_nat sample_str_float "!" exact_str exact_int exact_float
               text_of_bytes (fun _ => Some "json") (fun _ => "e") mysql_up
               (fun _ => 7%Z) [upload_of_size "a.py" 2] []
               [("a.py", text_of_bytes (repeat Byte.x00 2))] []
               (LLMConfigError "GROQ_API_KEY is not set in environment (.env).")
               _ _ _)).
  - split; [discriminate|]. split; [unfold max_files; cbn [List.length]; lia|].
    repeat constructor.
  - reflexivity.
  - reflexivity.
Defined.

(* ------------------------------------------------------------------ *)
(** ** The report endpoints *)
(* ------------------------------------------------------------------ *)

Lemma column_error (row : DbRow) (k : string) (e : lib_exn) :
  column row k = inl e -> e = KeyError /\ PyDict.get k row = None.
Proof.
  unfold column. destruct (PyDict.get k row); [discriminate|].
  intros H. injection H as <-. now split.
Qed.

Lemma valid_error (A : Type) (o : option A) (e : lib_exn) :
  valid o = inl e -> e = ValidationError.
Proof. destruct o; [discriminate|]. intros H. now injection H as <-. Qed.

Section ReportEndpoints.

Variable json_loads : string -> option pyval.
Variable validate_str : pyval -> option string.
Variable validate_int : pyval -> option Z.
Variable validate_float : pyval -> option Q.
Variable py_str : pyval -> string.
Variable mysql : list db_event -> db_call -> option string.
Variable fetchall : list db_event -> list DbRow.
Variable fetchone : list db_event -> option DbRow.

Local Abbreviation reports :=
  (list_recent_reports validate_str validate_int validate_float py_str mysql fetchall).

Local Abbreviation report :=
  (get_report json_loads validate_str validate_int validate_float py_str mysql
              fetchone).

(** The only statement the list of reports runs is its [SELECT], with the
    limit as a parameter of the statement. *)
Lemma fetch_recent_reviews_statement (limit : Z) (log : list db_event) :
  exists added,
    fst (run_db (fetch_recent_reviews mysql fetchall limit) log) = log ++ added
    /\ forall sql params outcome,
         In (Called (Execute sql params) outcome) added ->
         sql = sql_recent_reviews /\ params = [PInt limit].
Proof.
  db_run. db_cases mysql; rewrite <- ?app_assoc; eexists;
    (split; [reflexivity|]); intros sql params outcome Hin; cbn [app In] in Hin;
    repeat match type of Hin with
           | _ \/ _ => destruct Hin as [Hin|Hin]
           | False => contradiction
           | Called _ _ = Called _ _ => injection Hin as <- <- _; now split
           | Called _ _ = Called _ _ => discriminate Hin
           | Printed _ = Called _ _ => discriminate Hin
           end.
Qed.

(** X28.  The list of reports answers 400 exactly when the limit is below
    1 or above 100, and then it does not touch the database.  With a limit
    in range, the only statement it runs is its [SELECT], with the limit as a
    parameter of the statement. *)
Theorem report_limit_guard (limit : Z) (log : list db_event) :
  ((exists detail, result (reports limit log) = inl (HTTPException 400 detail))
   <-> (limit < 1 \/ 100 < limit)%Z)
  /\ ((limit < 1 \/ 100 < limit)%Z -> database (reports limit log) = log)
  /\ exists added,
       database (reports limit log) = log ++ added
       /\ forall sql params outcome,
            In (Called (Execute sql params) outcome) added ->
            sql = sql_recent_reviews /\ params = [PInt limit].
Proof.
  unfold list_recent_reports.
  destruct ((limit <? 1) || (100 <? limit))%Z eqn:Hguard.
  - assert (Hout : (limit < 1 \/ 100 < limit)%Z).
    { apply orb_true_iff in Hguard as [H|H]; [left|right]; now apply Z.ltb_lt. }
    split; [split; [intros _; exact Hout|intros _; eexists; reflexivity]|].
    split; [intros _; reflexivity|].
    exists []. cbn [database]. rewrite app_nil_r. split; [reflexivity|].
    intros sql params outcome [].
  - assert (Hin : (1 <= limit <= 100)%Z).
    { apply orb_false_iff in Hguard as [H1 H2].
      apply Z.ltb_ge in H1. apply Z.ltb_ge in H2. lia. }
    destruct (fetch_recent_reviews_statement limit log) as (added & Hlog & Honly).
    destruct (run_db (fetch_recent_reviews mysql fetchall limit) log)
      as [log' [e|rows]]; cbn [fst] in Hlog; subst log'.
    + split; [split; [intros [detail H]; discriminate H|lia]|].
      split; [lia|]. exists added. now split.
    + destruct (list_items validate_str validate_int validate_float py_str rows);
        (split; [split; [intros [detail H]; discriminate H|lia]|]);
        (split; [lia|]); exists added; now split.
Qed.

Lemma report_detail_error (row : DbRow) (e : lib_exn) :
  report_detail json_loads validate_str validate_int validate_float py_str row
  = inl e ->
  (e = KeyError /\ exists k, In k detail_columns /\ PyDict.get k row = None)
  \/ e = ValidationError.
Proof.
  unfold report_detail, detail_columns.
  destruct (column row "id") eqn:H1; cbn [lbind];
    [intros H; injection H as <-; apply column_error in H1 as [-> H1]; left;
     split; [reflexivity|]; exists "id"; cbn [In]; tauto|].
  destruct (column row "created_at") eqn:H2; cbn [lbind];
    [intros H; injection H as <-; apply column_error in H2 as [-> H2]; left;
     split; [reflexivity|]; exists "created_at"; cbn [In]; tauto|].
  destruct (column row "filenames") eqn:H3; cbn [lbind];
    [intros H; injection H as <-; apply column_error in H3 as [-> H3]; left;
     split; [reflexivity|]; exists "filenames"; cbn [In]; tauto|].
  destruct (column row "summary") eqn:H4; cbn [lbind];
    [intros H; injection H as <-; apply column_error in H4 as [-> H4]; left;
     split; [reflexivity|]; exists "summary"; cbn [In]; tauto|].
  destruct (column row "details") eqn:H5; cbn [lbind];
    [intros H; injection H as <-; apply column_error in H5 as [-> H5]; left;
     split; [reflexivity|]; exists "details"; cbn [In]; tauto|].
  intros H. right. now apply valid_error in H.
Qed.

(** X29.  The detail of a report answers 404 exactly when the table gave
    no row, or an empty one.  Whatever the JSON columns of the row hold, the
    only exceptions that escape are the key error of a row that lacks one of
    the columns read with a subscript, and the validation error of the
    response: text that cannot be decoded never makes the request fail. *)
Theorem report_failures (report_id : Z) (log : list db_event) :
  ((exists detail, result (report report_id log) = inl (HTTPException 404 detail))
   <-> exists log',
         run_db (fetch_review_by_id mysql fetchone report_id) log = (log', inr None)
         \/ run_db (fetch_review_by_id mysql fetchone report_id) log
            = (log', inr (Some [])))
  /\ (forall e,
        result (report report_id log) = inl (Uncaught e) ->
        exists log' row,
          run_db (fetch_review_by_id mysql fetchone report_id) log
          = (log', inr (Some row))
          /\ ((e = KeyError
               /\ exists k, In k detail_columns /\ PyDict.get k row = None)
              \/ e = ValidationError)).
Proof.
  unfold get_report.
  destruct (run_db (fetch_review_by_id mysql fetchone report_id) log)
    as [log' [e|[[|item items]|]]].
  - split.
    + split; [intros [detail H]; discriminate H|].
      intros [l [H|H]]; discriminate H.
    + intros e' H. discriminate H.
  - split.
    + split; [intros _; exists log'; now right|intros _; eexists; reflexivity].
    + intros e' H. discriminate H.
  - destruct (report_detail json_loads validate_str validate_int validate_float
                py_str (item :: items)) as [e|detail] eqn:Hd.
    + split.
      * split; [intros [detail H]; discriminate H|].
        intros [l [H|H]]; discriminate H.
      * intros e' H. injection H as <-. exists log', (item :: items).
        split; [reflexivity|]. now apply report_detail_error.
    + split.
      * split; [intros [d H]; discriminate H|].
        intros [l [H|H]]; discriminate H.
      * intros e' H. discriminate H.
  - split.
    + split; [intros _; exists log'; now left|intros _; eexists; reflexivity].
    + intros e' H. discriminate H.
Qed.

End ReportEndpoints.

(* ------------------------------------------------------------------ *)
(** ** The rendering of the issues *)
(* ------------------------------------------------------------------ *)

Lemma headline_count_app (l1 l2 : list st_call) :
  headline_count (l1 ++ l2) = headline_count l1 + headline_count l2.
Proof. unfold headline_count. now rewrite filter_app, length_app. Qed.

Section PageProperties.

Variable format_value : pyval -> string.
Variable upper : string -> string.

Local Abbreviation render := (render_issue format_value upper).

(** An issue with a group key gets its headline; the call fails exactly
    when the patch is no text. *)
Lemma render_issue_outcome (issue : pyval) (sev : string) :
  severity_key issue = inr sev ->
  headline_count (fst (render issue)) = 1
  /\ snd (render issue)
     = if patch_is_text issue then None else Some AttributeError.
Proof.
  unfold severity_key, render_issue, patch_is_text.
  destruct issue; try discriminate.
  fold (or_else (PyDict.get "severity" d) (PStr EmptyString)).
  destruct (or_else (PyDict.get "severity" d) (PStr EmptyString)); try discriminate.
  intros _. cbv zeta.
  destruct (or_else (PyDict.get "code_patch" d) (PStr EmptyString));
    cbn [fst snd]; (split; [|reflexivity]);
    rewrite ?headline_count_app;
    destruct (String.eqb (PyStr.lower s) "critical" || String.eqb (PyStr.lower s) "high");
    try destruct (String.eqb (PyStr.lower s) "medium");
    destruct (truthy (get_default "suggestion" (PStr EmptyString) d));
    try destruct (nonempty (PyStr.strip s0)); reflexivity.
Qed.

Lemma render_issues_outcome (issues : list pyval) :
  Forall (fun i => exists sev, severity_key i = inr sev) issues ->
  headline_count (fst (render_issues format_value upper issues))
  = List.length (until_bad_patch issues)
  /\ snd (render_issues format_value upper issues)
     = (if forallb patch_is_text issues then None else Some AttributeError)
  /\ (forallb patch_is_text issues = true ->
      fst (render_issues format_value upper issues)
      = flat_map (fun issue => fst (render issue)) issues).
Proof.
  induction 1 as [|issue issues [sev Hkey] Hall (IHc & IHr & IHf)].
  - repeat split; reflexivity.
  - cbn [render_issues until_bad_patch forallb flat_map].
    destruct (render_issue_outcome issue Hkey) as [Hc Hr].
    destruct (render issue) as [calls r]. cbn [fst snd] in Hc, Hr.
    destruct (patch_is_text issue); subst r.
    + destruct (render_issues format_value upper issues) as [calls' r'].
      cbn [fst snd andb] in *. rewrite headline_count_app, Hc, IHc.
      repeat split; [exact IHr|]. intros Hok. now rewrite IHf.
    + cbn [fst snd andb List.length]. repeat split; [exact Hc|discriminate].
Qed.

Lemma until_bad_patch_app (l1 l2 : list pyval) :
  until_bad_patch (l1 ++ l2)
  = if forallb patch_is_text l1 then l1 ++ until_bad_patch l2
    else until_bad_patch l1.
Proof.
  induction l1 as [|issue l1 IH]; [reflexivity|].
  cbn [app until_bad_patch forallb]. destruct (patch_is_text issue); [|reflexivity].
  cbn [andb]. rewrite IH. now destruct (forallb patch_is_text l1).
Qed.

Lemma until_bad_patch_all (l : list pyval) :
  forallb patch_is_text l = true -> until_bad_patch l = l.
Proof.
  induction l as [|issue l IH]; [reflexivity|].
  cbn [forallb until_bad_patch]. intros H. apply andb_true_iff in H as [-> H].
  now rewrite IH.
Qed.

(** The loop over the severities, for groups that are the issues of each
    severity. *)
Lemma render_groups_outcome (issues : list pyval) (grouped : PyDict.dict (list pyval))
  (order : list string) :
  Forall (fun i => exists sev, severity_key i = inr sev) issues ->
  (forall sev, group_of sev grouped = with_severity sev issues) ->
  let shown := flat_map (fun sev => with_severity sev issues) order in
  headline_count (fst (render_groups format_value upper order grouped))
  = List.length (until_bad_patch shown)
  /\ snd (render_groups format_value upper order grouped)
     = (if forallb patch_is_text shown then None else Some AttributeError)
  /\ (forallb patch_is_text shown = true ->
      fst (render_groups format_value upper order grouped)
      = flat_map
          (fun sev =>
             match with_severity sev issues with
             | [] => []
             | group =>
                 st_markdown ("### " ++ upper sev)
                 :: flat_map (fun issue => fst (render issue)) group
             end)
          order).
Proof.
  intros Hall Hgroups. induction order as [|sev order (IHc & IHr & IHf)].
  - repeat split; reflexivity.
  - cbn [render_groups flat_map].
    assert (Hgroup : Forall (fun i => exists sev, severity_key i = inr sev)
                       (with_severity sev issues)).
    { apply Forall_forall. intros i Hi. apply filter_In in Hi as [Hi _].
      revert i Hi. now apply Forall_forall. }
    pose proof (Hgroups sev) as Hsev. unfold group_of in Hsev.
    rewrite until_bad_patch_app, forallb_app.
    destruct (PyDict.get sev grouped) as [[|issue group]|];
      rewrite <- Hsev in Hgroup |- *; clear Hsev;
      try (cbn [app forallb andb]; repeat split; assumption).
    destruct (render_issues_outcome Hgroup) as (Hc & Hr & Hf).
    destruct (render_issues format_value upper (issue :: group)) as [calls r].
    cbn [fst snd] in Hc, Hr, Hf.
    destruct (forallb patch_is_text (issue :: group)) eqn:Hok; subst r.
    + destruct (render_groups format_value upper order grouped) as [calls' r'].
      cbn [fst snd andb] in *.
      change (st_markdown ("### " ++ upper sev) :: calls ++ calls')
        with ([st_markdown ("### " ++ upper sev)] ++ calls ++ calls').
      rewrite !headline_count_app, Hc, IHc, length_app.
      rewrite (until_bad_patch_all _ Hok).
      split; [reflexivity|]. split; [exact IHr|].
      intros Hrest. rewrite Hf, IHf by (exact Hrest || reflexivity).
      reflexivity.
    + cbn [fst snd andb].
      change (st_markdown ("### " ++ upper sev) :: calls)
        with ([st_markdown ("### " ++ upper sev)] ++ calls).
      rewrite headline_count_app, Hc.
      repeat split; discriminate.
Qed.

End PageProperties.

Lemma forallb_Permutation (A : Type) (p : A -> bool) (l l' : list A) :
  Permutation l l' -> forallb p l = forallb p l'.
Proof.
  induction 1 as [|x l l' _ IH|x y l|l l' l'' _ IH1 _ IH2]; cbn [forallb].
  - reflexivity.
  - now rewrite IH.
  - now rewrite !andb_assoc, (andb_comm (p y)).
  - now rewrite IH1.
Qed.

Section PageTheorems.

Variable format_value : pyval -> string.
Variable upper : string -> string.

Local Abbreviation page := (render_page format_value upper).
Local Abbreviation calls_of issues := (page_calls format_value upper issues).

(** The page of a list of issues that all have a group key. *)
Lemma page_outcome (issues : list pyval) :
  Forall (fun i => exists sev, severity_key i = inr sev) issues ->
  exists grouped,
    group_issues_by_severity issues = inr grouped
    /\ Permutation (render_order issues) issues
    /\ headline_count (fst (page grouped))
       = List.length (until_bad_patch (render_order issues))
    /\ snd (page grouped)
       = (if forallb patch_is_text issues then None else Some AttributeError)
    /\ (forallb patch_is_text issues = true ->
        fst (page grouped) = calls_of issues).
Proof.
  intros Hall. destruct (group_loop [] Hall) as (grouped & Hfold & Hg & _).
  exists grouped. split; [exact Hfold|].
  pose proof (with_severity_covers Hall) as Hperm.
  split; [exact Hperm|].
  destruct (render_groups_outcome format_value upper grouped SEVERITY_ORDER Hall Hg)
    as (Hc & Hr & Hf).
  rewrite (forallb_Permutation patch_is_text Hperm) in Hr, Hf.
  unfold render_page, render_order. now repeat split.
Qed.

(** X18.  When every issue has a group key, the page goes through the
    issues severity by severity in the order of [SEVERITY_ORDER], each issue
    once.  When the patch of every issue is text or counts as false, it makes
    the calls of every issue under the heading of its severity and shows one
    headline per issue.  When the patch of some issue is another value,
    [render_issue] raises the attribute error at the first such issue, after
    its headline, and no later issue is shown. *)
Theorem every_issue_rendered_once (issues : list pyval) :
  Forall (fun i => exists sev, severity_key i = inr sev) issues ->
  exists grouped,
    group_issues_by_severity issues = inr grouped
    /\ Permutation (render_order issues) issues
    /\ (forallb patch_is_text issues = true ->
        page grouped = (calls_of issues, None)
        /\ headline_count (calls_of issues) = List.length issues)
    /\ (forallb patch_is_text issues = false ->
        snd (page grouped) = Some AttributeError
        /\ headline_count (fst (page grouped))
           = List.length (until_bad_patch (render_order issues))).
Proof.
  intros Hall.
  destruct (page_outcome Hall) as (grouped & Hg & Hperm & Hc & Hr & Hf).
  exists grouped. split; [exact Hg|]. split; [exact Hperm|]. split.
  - intros Hok. rewrite Hok in Hr. specialize (Hf Hok).
    destruct (page grouped) as [calls r]. cbn [fst snd] in Hc, Hr, Hf. subst.
    split; [reflexivity|]. rewrite Hc.
    rewrite until_bad_patch_all
      by now rewrite (forallb_Permutation patch_is_text Hperm).
    now apply Permutation_length.
  - intros Hbad. rewrite Hbad in Hr. now split.
Qed.

Lemma valid_issue_has_key (issues : list pyval) :
  (forall d v, In (PDict d) issues -> PyDict.get "severity" d = Some v ->
               exists s, v = PStr s) ->
  Forall (fun i => exists sev, severity_key i = inr sev) (valid_issues issues).
Proof.
  intros Hstr. apply Forall_forall. intros i Hi.
  apply filter_In in Hi as [Hin Hvalid]. destruct i; try discriminate Hvalid.
  unfold severity_key. destruct (PyDict.get "severity" d) as [v|] eqn:Hget.
  - destruct (Hstr d v Hin Hget) as [s ->].
    destruct (truthy (PStr s)); eexists; reflexivity.
  - eexists. reflexivity.
Qed.

Lemma valid_issue_patch_is_text (issues : list pyval) :
  (forall d v, In (PDict d) issues -> PyDict.get "code_patch" d = Some v ->
               v = PNone \/ exists s, v = PStr s) ->
  forallb patch_is_text (valid_issues issues) = true.
Proof.
  intros Hpatch. apply forallb_forall. intros i Hi.
  apply filter_In in Hi as [Hin _]. destruct i; try reflexivity.
  unfold patch_is_text, or_else.
  destruct (PyDict.get "code_patch" d) as [v|] eqn:Hget; [|reflexivity].
  destruct (Hpatch d v Hin Hget) as [->|[s ->]]; [reflexivity|].
  now destruct (truthy (PStr s)).
Qed.

(** X30.  The issues of a page: of the issues received, the page keeps the
    mappings whose severity and message count as true.  When every severity
    received is text and every patch is text or [None], as the response model
    of the backend has them, grouping the kept issues does not raise, no call
    of [render_issue] raises, and the page shows one headline for each kept
    issue, severity by severity. *)
Theorem page_renders_valid_issues (issues : list pyval) :
  (forall d v, In (PDict d) issues -> PyDict.get "severity" d = Some v ->
               exists s, v = PStr s) ->
  (forall d v, In (PDict d) issues -> PyDict.get "code_patch" d = Some v ->
               v = PNone \/ exists s, v = PStr s) ->
  exists grouped,
    group_issues_by_severity (valid_issues issues) = inr grouped
    /\ page grouped = (calls_of (valid_issues issues), None)
    /\ headline_count (calls_of (valid_issues issues))
       = List.length (valid_issues issues)
    /\ Permutation (render_order (valid_issues issues)) (valid_issues issues)
    /\ forall i,
         In i (valid_issues issues)
         <-> In i issues
             /\ exists d, i = PDict d
                          /\ truthy (get_default "severity" PNone d) = true
                          /\ truthy (get_default "message" PNone d) = true.
Proof.
  intros Hstr Hpatch.
  pose proof (valid_issue_patch_is_text issues Hpatch) as Hok.
  destruct (page_outcome (valid_issue_has_key issues Hstr))
    as (grouped & Hg & Hperm & Hc & Hr & Hf).
  rewrite Hok in Hr. specialize (Hf Hok).
  assert (Hpage : page grouped = (calls_of (valid_issues issues), None)).
  { destruct (page grouped) as [calls r]. cbn [fst snd] in Hr, Hf. now subst. }
  assert (Hcount : headline_count (calls_of (valid_issues issues))
                   = List.length (valid_issues issues)).
  { rewrite Hpage in Hc. cbn [fst] in Hc. rewrite Hc.
    rewrite until_bad_patch_all
      by now rewrite (forallb_Permutation patch_is_text Hperm).
    now apply Permutation_length. }
  exists grouped. split; [exact Hg|]. split; [exact Hpage|].
  split; [exact Hcount|]. split; [exact Hperm|].
  intros i. split.
  - intros Hi. apply filter_In in Hi as [Hin Hvalid]. split; [exact Hin|].
    destruct i; try discriminate Hvalid.
    apply andb_true_iff in Hvalid as [Hs Hm]. now exists d.
  - intros (Hin & d & -> & Hs & Hm).
    apply filter_In. split; [exact Hin|]. now rewrite Hs, Hm.
Qed.

End PageTheorems.

Lemma every_issue_rendered_once_witness :
  exists grouped,
    group_issues_by_severity
      [PDict [("severity", PStr "low")];
       PDict [("severity", PStr "Critical"); ("code_patch", PInt 5)];
       PDict [("severity", PStr "critical")]]
    = inr grouped
    /\ snd (render_page (fun _ => "v") (fun s => s) grouped) = Some AttributeError
    /\ headline_count (fst (render_page (fun _ => "v") (fun s => s) grouped)) = 1.
Proof.
  destruct (@every_issue_rendered_once (fun _ => "v") (fun s => s)
              [PDict [("severity", PStr "low")];
               PDict [("severity", PStr "Critical"); ("code_patch", PInt 5)];
               PDict [("severity", PStr "critical")]])
    as (grouped & Hg & _ & _ & Hbad).
  - repeat constructor; eexists; reflexivity.
  - exists grouped. split; [exact Hg|].
    destruct (Hbad eq_refl) as [Hr Hc]. split; [exact Hr|].
    rewrite Hc. reflexivity.
Defined.

Lemma page_renders_valid_issues_witness :
  exists grouped,
    group_issues_by_severity
      (valid_issues
         [PDict [("severity", PStr "low"); ("message", PStr "m1")];
          PStr "note";
          PDict [("severity", PStr "HIGH"); ("message", PStr "m2");
                 ("code_patch", PNone)];
          PDict [("severity", PStr "high")]])
    = inr grouped
    /\ headline_count (fst (render_page (fun _ => "v") (fun s => s) grouped)) = 2
    /\ snd (render_page (fun _ => "v") (fun s => s) grouped) = None.
Proof.
  destruct (@page_renders_valid_issues (fun _ => "v") (fun s => s)
              [PDict [("severity", PStr "low"); ("message", PStr "m1")];
               PStr "note";
               PDict [("severity", PStr "HIGH"); ("message", PStr "m2");
                      ("code_patch", PNone)];
               PDict [("severity", PStr "high")]])
    as (grouped & Hg & Hpage & Hcount & _).
  - intros d v Hin Hget. cbn [In] in Hin.
    destruct Hin as [H|[H|[H|[H|[]]]]]; try discriminate H;
      injection H as <-; cbn in Hget; injection Hget as <-; eexists; reflexivity.
  - intros d v Hin Hget. cbn [In] in Hin.
    destruct Hin as [H|[H|[H|[H|[]]]]]; try discriminate H;
      injection H as <-; cbn in Hget; try discriminate Hget;
      injection Hget as <-; now left.
  - exists grouped. split; [exact Hg|]. rewrite Hpage. cbn [fst snd].
    split; [|reflexivity]. rewrite Hcount. reflexivity.
Defined.
